(** * ERC20 chaincode (chaincode.go): a shallow embedding and its properties

    The chaincode is a Hyperledger Fabric contract written in Go.  Every
    operation receives a [shim.ChaincodeStubInterface] and a list of string
    parameters and returns an [sc.Response].  The embedding keeps that shape:
    an operation is a function from a stub and its parameters to the stub
    after the call and the outcome of the call.

    Go values are represented as follows.
    - [string] and [[]byte] are Rocq strings, one [ascii] per byte; a
      [[]byte] that may be [nil] is an [option string].
    - [int] is a [Z] kept inside the 64-bit two's complement range by
      [wrap_int] (the peers run on 64-bit platforms); [uint64] is a [Z]
      between [0] and [2^64 - 1].
    - the world state is a [gmap string string].
    - a run-time panic (index out of range) is an outcome of its own.
    - [fmt.Println] only writes to the log of the peer and is left out,
      except that the indexing in its arguments is kept.

    The file has three parts: the Go packages the chaincode calls
    (strconv, unicode/utf8, encoding/json and the stub), the chaincode
    itself, and the properties, those of the specification numbered C1 to
    C10. *)

From Stdlib Require Import ZArith Lia Ascii String List.
From stdpp Require Import base option list gmap strings sorting.

Local Open Scope string_scope.
Local Open Scope Z_scope.

(** ** Results of fallible library calls *)

Inductive result (E A : Type) : Type :=
| Ok (a : A)
| Err (e : E).
Arguments Ok {E A} a.
Arguments Err {E A} e.

(** ** Bytes *)

Definition code (c : ascii) : Z := Z.of_N (N_of_ascii c).

Definition chr (z : Z) : ascii := ascii_of_N (Z.to_N z).

Definition is_digit (c : ascii) : bool := (48 <=? code c) && (code c <=? 57).

Definition digit_val (c : ascii) : Z := code c - 48.

Definition digit_chr (d : Z) : ascii := chr (48 + d).

(** ** Go's [int] and [uint64] *)

Definition intSize : Z := 64.

Definition maxInt : Z := 2 ^ (intSize - 1) - 1.

Definition minInt : Z := - 2 ^ (intSize - 1).

Definition maxUint64 : Z := 2 ^ 64 - 1.

(** The value an [int] expression takes after two's complement wrap-around. *)
Definition wrap_int (z : Z) : Z :=
  (z + 2 ^ (intSize - 1)) mod 2 ^ intSize - 2 ^ (intSize - 1).

Definition int_add (a b : Z) : Z := wrap_int (a + b).

Definition int_sub (a b : Z) : Z := wrap_int (a - b).

(** ** Package strconv *)

Module strconv.

Inductive NumError : Type := ErrSyntax | ErrRange.

(** The digit loop of [ParseUint] in base 10: a byte that is not a decimal
    digit is a syntax error, a value above [maxVal] a range error, in the
    order the bytes are met. *)
Fixpoint parseUint_loop (maxVal : Z) (s : string) (n : Z) : result NumError Z :=
  match s with
  | EmptyString => Ok n
  | String c s' =>
      if is_digit c then
        let n1 := n * 10 + digit_val c in
        if maxVal <? n1 then Err ErrRange else parseUint_loop maxVal s' n1
      else Err ErrSyntax
  end.

(** [strconv.ParseUint(s, 10, 64)]: no sign is accepted. *)
Definition ParseUint (s : string) : result NumError Z :=
  match s with
  | EmptyString => Err ErrSyntax
  | _ => parseUint_loop maxUint64 s 0
  end.

(** [strconv.Atoi(s)], that is [ParseInt(s, 10, 0)]: an optional sign, then
    decimal digits; the magnitude is read as a [uint64] and then checked
    against the range of [int]. *)
Definition Atoi (s : string) : result NumError Z :=
  match s with
  | EmptyString => Err ErrSyntax
  | String c s' =>
      let neg := bool_decide (c = "-"%char) in
      let body := if bool_decide (c = "+"%char) || neg then s' else s in
      match body with
      | EmptyString => Err ErrSyntax
      | _ =>
          match parseUint_loop maxUint64 body 0 with
          | Err ErrSyntax => Err ErrSyntax
          | Err ErrRange => Err ErrRange
          | Ok un =>
              if negb neg && (maxInt <? un) then Err ErrRange
              else if neg && (maxInt + 1 <? un) then Err ErrRange
              else Ok (if neg then - un else un)
          end
      end
  end.

(** Decimal digits of a non-negative number, most significant first.  The
    fuel bounds the number of digits; 20 digits cover every [uint64]. *)
Fixpoint formatBits (fuel : nat) (u : Z) (acc : string) : string :=
  match fuel with
  | O => acc
  | S fuel' =>
      let acc' := String (digit_chr (u mod 10)) acc in
      if u <? 10 then acc' else formatBits fuel' (u / 10) acc'
  end.

Definition FormatUint (u : Z) : string := formatBits 20 u "".

(** [strconv.Itoa(i)]. *)
Definition Itoa (i : Z) : string :=
  if i <? 0 then String "-"%char (FormatUint (- i)) else FormatUint i.

End strconv.

(** ** Package unicode/utf8 *)

Module utf8.

Definition RuneError : Z := 0xFFFD.

Definition MaxRune : Z := 0x10FFFF.

Definition between (lo hi : Z) (c : ascii) : bool :=
  (lo <=? code c) && (code c <=? hi).

(** For a leading byte above 0x7F: the length of the sequence and the range
    the second byte must lie in (the [first] and [acceptRanges] tables). *)
Definition lead (x : Z) : option (nat * Z * Z) :=
  if x <? 0xC2 then None
  else if x <=? 0xDF then Some (2%nat, 0x80, 0xBF)
  else if x =? 0xE0 then Some (3%nat, 0xA0, 0xBF)
  else if x =? 0xED then Some (3%nat, 0x80, 0x9F)
  else if x <=? 0xEF then Some (3%nat, 0x80, 0xBF)
  else if x =? 0xF0 then Some (4%nat, 0x90, 0xBF)
  else if x <=? 0xF3 then Some (4%nat, 0x80, 0xBF)
  else if x =? 0xF4 then Some (4%nat, 0x80, 0x8F)
  else None.

Definition low6 (c : ascii) : Z := Z.land (code c) 0x3F.

(** [utf8.DecodeRuneInString]: the first rune of [s] and its width in bytes;
    an ill-formed sequence gives [(RuneError, 1)], the empty string
    [(RuneError, 0)]. *)
Definition DecodeRune (s : string) : Z * nat :=
  match s with
  | EmptyString => (RuneError, 0%nat)
  | String b0 s1 =>
      let x := code b0 in
      if x <? 0x80 then (x, 1%nat)
      else
        match lead x, s1 with
        | Some (2%nat, lo, hi), String b1 _ =>
            if between lo hi b1
            then (Z.lor (Z.shiftl (Z.land x 0x1F) 6) (low6 b1), 2%nat)
            else (RuneError, 1%nat)
        | Some (3%nat, lo, hi), String b1 (String b2 _) =>
            if between lo hi b1 && between 0x80 0xBF b2
            then (Z.lor (Z.shiftl (Z.land x 0x0F) 12)
                    (Z.lor (Z.shiftl (low6 b1) 6) (low6 b2)), 3%nat)
            else (RuneError, 1%nat)
        | Some (4%nat, lo, hi), String b1 (String b2 (String b3 _)) =>
            if between lo hi b1 && between 0x80 0xBF b2 && between 0x80 0xBF b3
            then (Z.lor (Z.shiftl (Z.land x 0x07) 18)
                    (Z.lor (Z.shiftl (low6 b1) 12)
                       (Z.lor (Z.shiftl (low6 b2) 6) (low6 b3))), 4%nat)
            else (RuneError, 1%nat)
        | _, _ => (RuneError, 1%nat)
        end
  end.

Fixpoint skip (n : nat) (s : string) : string :=
  match n, s with
  | S n', String _ s' => skip n' s'
  | _, _ => s
  end.

Fixpoint prefix (n : nat) (s : string) : string :=
  match n, s with
  | S n', String c s' => String c (prefix n' s')
  | _, _ => EmptyString
  end.

(** The runes a [for _, r := range s] loop sees.  Every step consumes at
    least one byte, so [String.length s] steps are enough. *)
Fixpoint runes_loop (fuel : nat) (s : string) : list (Z * nat) :=
  match fuel, s with
  | S fuel', String _ _ =>
      let d := DecodeRune s in d :: runes_loop fuel' (skip (snd d) s)
  | _, _ => []
  end.

Definition runes (s : string) : list (Z * nat) :=
  runes_loop (String.length s) s.

Definition ill_formed (d : Z * nat) : bool :=
  (fst d =? RuneError) && Nat.eqb (snd d) 1.

(** [utf8.ValidString]. *)
Definition ValidString (s : string) : bool :=
  forallb (fun d => negb (ill_formed d)) (runes s).

(** [utf8.EncodeRune]; a surrogate or a value above [MaxRune] is encoded as
    [RuneError]. *)
Definition EncodeRune (r : Z) : string :=
  let r := if (r <? 0) || (MaxRune <? r) || ((0xD800 <=? r) && (r <=? 0xDFFF))
           then RuneError else r in
  let tail k := chr (Z.lor 0x80 (Z.land (Z.shiftr r k) 0x3F)) in
  if r <=? 0x7F then String (chr r) ""
  else if r <=? 0x7FF then
    String (chr (Z.lor 0xC0 (Z.shiftr r 6))) (String (tail 0) "")
  else if r <=? 0xFFFF then
    String (chr (Z.lor 0xE0 (Z.shiftr r 12))) (String (tail 6) (String (tail 0) ""))
  else
    String (chr (Z.lor 0xF0 (Z.shiftr r 18)))
      (String (tail 12) (String (tail 6) (String (tail 0) ""))).

End utf8.

(** ** Error values and responses *)

(** The [error] values the chaincode can meet: those returned by the stub
    (the text is the host's), and those of package encoding/json. *)
Inductive error : Type :=
| HostError (text : string)
| SyntaxError
| UnmarshalTypeError.

(** A response message is either a literal or a literal followed by
    [err.Error()]; the rendering of library errors is left symbolic. *)
Inductive message : Type :=
| Text (s : string)
| TextErr (s : string) (e : error).

(** ** Package encoding/json *)

Module json.

Definition quote_chr : ascii := chr 0x22.

Definition backslash : ascii := chr 0x5C.

Definition hex (d : Z) : ascii :=
  if d <? 10 then chr (48 + d) else chr (87 + d).

(** [htmlSafeSet]: printable ASCII without the quote, the backslash and the
    three characters escaped for HTML. *)
Definition htmlSafe (x : Z) : bool :=
  (0x20 <=? x) && (x <? 0x80)
  && negb ((x =? 0x22) || (x =? 0x26) || (x =? 0x3C) || (x =? 0x3E) || (x =? 0x5C)).

(** The body of a string as [Marshal] writes it (HTML escaping on). *)
Fixpoint escape_loop (fuel : nat) (s : string) : string :=
  match fuel, s with
  | S fuel', String b rest =>
      let x := code b in
      if x <? 0x80 then
        (if htmlSafe x then String b ""
         else if (x =? 0x5C) || (x =? 0x22) then String backslash (String b "")
         else if x =? 0x0A then "\n"
         else if x =? 0x0D then "\r"
         else if x =? 0x09 then "\t"
         else "\u00" +:+ String (hex (Z.shiftr x 4)) (String (hex (Z.land x 0xF)) ""))
        +:+ escape_loop fuel' rest
      else
        let d := utf8.DecodeRune s in
        if utf8.ill_formed d then "\u" +:+ "fffd" +:+ escape_loop fuel' rest
        else if (fst d =? 0x2028) || (fst d =? 0x2029) then
          "\u202" +:+ String (hex (Z.land (fst d) 0xF)) ""
          +:+ escape_loop fuel' (utf8.skip (snd d) s)
        else utf8.prefix (snd d) s +:+ escape_loop fuel' (utf8.skip (snd d) s)
  | _, _ => ""
  end.

Definition quote (s : string) : string :=
  String quote_chr (escape_loop (String.length s) s) +:+ String quote_chr "".

Definition field (name value : string) : string :=
  quote name +:+ ":" +:+ value.

Fixpoint join (sep : string) (l : list string) : string :=
  match l with
  | [] => ""
  | [x] => x
  | x :: l' => x +:+ sep +:+ join sep l'
  end.

Definition object (fields : list string) : string :=
  "{" +:+ join "," fields +:+ "}".

Definition array (elems : list string) : string :=
  "[" +:+ join "," elems +:+ "]".

(** [json.Marshal] of a [uint64] and of an [int]. *)
Definition Marshal_uint64 (n : Z) : result error string :=
  Ok (strconv.FormatUint n).

Definition Marshal_int (n : Z) : string := strconv.Itoa n.

(** *** Reading *)

#[local] Set Warnings "-register-all".

Inductive value : Type :=
| Null
| Bool (b : bool)
| Number (lit : string)
| Str (s : string)
| Array (vs : list value)
| Object (ms : list (string * value)).

Definition is_space (c : ascii) : bool :=
  let x := code c in (x =? 0x20) || (x =? 0x09) || (x =? 0x0D) || (x =? 0x0A).

Fixpoint skip_ws (s : string) : string :=
  match s with
  | String c s' => if is_space c then skip_ws s' else s
  | EmptyString => s
  end.

Fixpoint span_digits (s : string) : string * string :=
  match s with
  | String c s' =>
      if is_digit c then let '(ds, r) := span_digits s' in (String c ds, r)
      else ("", s)
  | EmptyString => ("", s)
  end.

Definition scan_int (s : string) : option (string * string) :=
  match s with
  | String c s' =>
      if code c =? 48 then Some ("0", s')
      else if is_digit c then
        let '(ds, r) := span_digits s' in Some (String c ds, r)
      else None
  | EmptyString => None
  end.

Definition scan_frac (s : string) : option (string * string) :=
  match s with
  | String "." s' =>
      match span_digits s' with
      | (EmptyString, _) => None
      | (ds, r) => Some (String "." ds, r)
      end
  | _ => Some ("", s)
  end.

Definition scan_exp (s : string) : option (string * string) :=
  match s with
  | String c s' =>
      if (code c =? 0x65) || (code c =? 0x45) then
        let '(sign, s'') :=
          match s' with
          | String c' r => if (code c' =? 0x2B) || (code c' =? 0x2D)
                           then (String c' "", r) else ("", s')
          | EmptyString => ("", s')
          end in
        match span_digits s'' with
        | (EmptyString, _) => None
        | (ds, r) => Some (String c sign +:+ ds, r)
        end
      else Some ("", s)
  | EmptyString => Some ("", s)
  end.

(** A number literal at the head of [s] and what follows it. *)
Definition scan_number (s : string) : option (string * string) :=
  let '(sign, s0) :=
    match s with
    | String "-" r => ("-", r)
    | _ => ("", s)
    end in
  '(i, s1) ← scan_int s0;
  '(f, s2) ← scan_frac s1;
  '(e, s3) ← scan_exp s2;
  Some (sign +:+ i +:+ f +:+ e, s3).

Definition hex_val (c : ascii) : option Z :=
  let x := code c in
  if is_digit c then Some (x - 48)
  else if (0x61 <=? x) && (x <=? 0x66) then Some (x - 87)
  else if (0x41 <=? x) && (x <=? 0x46) then Some (x - 55)
  else None.

(** [getu4]: the value of a [\uXXXX] escape at the head of [s]. *)
Definition getu4 (s : string) : option (Z * string) :=
  match s with
  | String b (String "u" (String h3 (String h2 (String h1 (String h0 r))))) =>
      if bool_decide (b = backslash) then
        a ← hex_val h3; b ← hex_val h2; c ← hex_val h1; d ← hex_val h0;
        Some (a * 4096 + b * 256 + c * 16 + d, r)
      else None
  | _ => None
  end.

Definition simple_escape (c : ascii) : option ascii :=
  let x := code c in
  if (x =? 0x22) || (x =? 0x5C) || (x =? 0x2F) then Some c
  else if x =? 0x62 then Some (chr 0x08)
  else if x =? 0x66 then Some (chr 0x0C)
  else if x =? 0x6E then Some (chr 0x0A)
  else if x =? 0x72 then Some (chr 0x0D)
  else if x =? 0x74 then Some (chr 0x09)
  else None.

Definition IsSurrogate (r : Z) : bool := (0xD800 <=? r) && (r <? 0xE000).

(** [utf16.DecodeRune]. *)
Definition utf16_DecodeRune (r1 r2 : Z) : Z :=
  if (0xD800 <=? r1) && (r1 <? 0xDC00) && (0xDC00 <=? r2) && (r2 <? 0xE000)
  then Z.lor (Z.shiftl (r1 - 0xD800) 10) (r2 - 0xDC00) + 0x10000
  else utf8.RuneError.

(** The body of a string literal, after its opening quote: the decoded
    bytes and what follows the closing quote. *)
Fixpoint unquote_loop (fuel : nat) (s : string) : option (string * string) :=
  match fuel, s with
  | S fuel', String c r =>
      let x := code c in
      if x =? 0x22 then Some ("", r)
      else if x =? 0x5C then
        match r with
        | String e r' =>
            match simple_escape e with
            | Some b => '(t, k) ← unquote_loop fuel' r'; Some (String b t, k)
            | None =>
                '(rr, r1) ← getu4 s;
                let '(rune, r2) :=
                  if IsSurrogate rr then
                    match getu4 r1 with
                    | Some (rr1, r1') =>
                        if utf16_DecodeRune rr rr1 =? utf8.RuneError
                        then (utf8.RuneError, r1)
                        else (utf16_DecodeRune rr rr1, r1')
                    | None => (utf8.RuneError, r1)
                    end
                  else (rr, r1) in
                '(t, k) ← unquote_loop fuel' r2;
                Some (utf8.EncodeRune rune +:+ t, k)
            end
        | EmptyString => None
        end
      else if x <? 0x20 then None
      else if x <? 0x80 then
        '(t, k) ← unquote_loop fuel' r; Some (String c t, k)
      else
        let d := utf8.DecodeRune s in
        '(t, k) ← unquote_loop fuel' (utf8.skip (snd d) s);
        Some (utf8.EncodeRune (fst d) +:+ t, k)
  | _, _ => None
  end.

Definition scan_string (s : string) : option (string * string) :=
  unquote_loop (String.length s) s.

Definition literal (word : string) (v : value) (s : string) : option (value * string) :=
  if String.prefix word s then Some (v, utf8.skip (String.length word) s) else None.

(** One JSON value at the head of [s] (after white space) and what follows
    it.  [parse_elems] reads the elements of an array after its opening
    bracket or a comma, [parse_members] the members of an object. *)
Fixpoint parse_value (fuel : nat) (s : string) : option (value * string) :=
  match fuel with
  | O => None
  | S fuel' =>
      match skip_ws s with
      | EmptyString => None
      | String c r as s0 =>
          let x := code c in
          if x =? 0x7B then
            match skip_ws r with
            | String "}" k => Some (Object [], k)
            | _ => '(ms, k) ← parse_members fuel' r; Some (Object ms, k)
            end
          else if x =? 0x5B then
            match skip_ws r with
            | String "]" k => Some (Array [], k)
            | _ => '(vs, k) ← parse_elems fuel' r; Some (Array vs, k)
            end
          else if x =? 0x22 then
            '(t, k) ← scan_string r; Some (Str t, k)
          else if (x =? 0x2D) || is_digit c then
            '(lit, k) ← scan_number s0; Some (Number lit, k)
          else if x =? 0x74 then literal "true" (Bool true) s0
          else if x =? 0x66 then literal "false" (Bool false) s0
          else if x =? 0x6E then literal "null" Null s0
          else None
      end
  end
with parse_elems (fuel : nat) (s : string) : option (list value * string) :=
  match fuel with
  | O => None
  | S fuel' =>
      '(v, k) ← parse_value fuel' s;
      match skip_ws k with
      | String "," k' => '(vs, k'') ← parse_elems fuel' k'; Some (v :: vs, k'')
      | String "]" k' => Some ([v], k')
      | _ => None
      end
  end
with parse_members (fuel : nat) (s : string) : option (list (string * value) * string) :=
  match fuel with
  | O => None
  | S fuel' =>
      match skip_ws s with
      | String c r =>
          if code c =? 0x22 then
            '(key, k) ← scan_string r;
            match skip_ws k with
            | String ":" k' =>
                '(v, k'') ← parse_value fuel' k';
                match skip_ws k'' with
                | String "," k3 =>
                    '(ms, k4) ← parse_members fuel' k3; Some ((key, v) :: ms, k4)
                | String "}" k3 => Some ([(key, v)], k3)
                | _ => None
                end
            | _ => None
            end
          else None
      | EmptyString => None
      end
  end.

(** A whole document ([checkValid] and the scan of the decoder): one value
    surrounded by white space.  Two steps per byte are enough fuel. *)
Definition parse (data : string) : option value :=
  '(v, k) ← parse_value (2 * String.length data + 2) data;
  match skip_ws k with
  | EmptyString => Some v
  | _ => None
  end.

End json.

(** ** The chaincode stub (package shim) *)

(** Modelled from the spec: the stub, which the chaincode imports from the
    Fabric shim and which is not part of the repository.  The definitions
    of this module follow the State Store and Event sink interfaces of the
    specification (section 6: get, put, makeCompositeKey, splitCompositeKey,
    scanByPartialCompositeKey, emit) and the composite key of its glossary,
    with the error results of the Go signatures.  Where the specification
    is silent (the bytes of a composite key, the attributes it refuses) they
    follow the shim the chaincode is compiled against. *)
Module shim.

Definition OK : Z := 200.

Definition ERROR : Z := 500.

(** [sc.Response]. *)
Record Response : Type := {
  Status : Z;
  Message : message;
  Payload : option string
}.

Definition Success (payload : option string) : Response :=
  {| Status := OK; Message := Text ""; Payload := payload |}.

Definition Error (msg : message) : Response :=
  {| Status := ERROR; Message := msg; Payload := None |}.

(** The failures of the host ledger, which the chaincode cannot foresee:
    for each call of the stub, the error it returns, if any. *)
Record Host : Type := {
  getFault : string → option error;
  putFault : string → string → option error;
  eventFault : string → string → option error;
  scanFault : string → option error
}.

(** The stub of one invocation: the arguments of the call, the world
    state with the writes of the invocation applied in order, the event
    set for the transaction, and the host.  No operation of the chaincode
    reads a key after it has written one, so it makes no difference whether
    a read sees the writes of its own invocation. *)
Record ChaincodeStub : Type := {
  args : list string;
  State : gmap string string;
  Event : option (string * string);
  host : Host
}.

Definition with_State (stub : ChaincodeStub) (st : gmap string string) : ChaincodeStub :=
  {| args := args stub; State := st; Event := Event stub; host := host stub |}.

Definition with_Event (stub : ChaincodeStub) (ev : option (string * string)) : ChaincodeStub :=
  {| args := args stub; State := State stub; Event := ev; host := host stub |}.

(** [GetFunctionAndParameters]: the first argument is the function name,
    the others are its parameters. *)
Definition GetFunctionAndParameters (stub : ChaincodeStub) : string * list string :=
  match args stub with
  | fcn :: params => (fcn, params)
  | [] => ("", [])
  end.

(** [GetState]: the bytes stored under [key], [nil] when there are none. *)
Definition GetState (stub : ChaincodeStub) (key : string) : result error (option string) :=
  match getFault (host stub) key with
  | Some e => Err e
  | None => Ok (State stub !! key)
  end.

(** [PutState]: a failed write leaves the state as it was. *)
Definition PutState (stub : ChaincodeStub) (key value : string) : ChaincodeStub * option error :=
  match putFault (host stub) key value with
  | Some e => (stub, Some e)
  | None => (with_State stub (<[key := value]> (State stub)), None)
  end.

(** [SetEvent]: at most one event per transaction, the last one set. *)
Definition SetEvent (stub : ChaincodeStub) (name payload : string) : ChaincodeStub * option error :=
  match eventFault (host stub) name payload with
  | Some e => (stub, Some e)
  | None => (with_Event stub (Some (name, payload)), None)
  end.

(** *** Composite keys *)

Definition minUnicodeRuneValue : Z := 0.

Definition maxUnicodeRuneValue : Z := utf8.MaxRune.

Definition NUL : ascii := chr 0.

Definition compositeKeyNamespace : string := String NUL "".

(** [validateCompositeKeyAttribute]: well-formed UTF-8 without U+0000 and
    U+10FFFF. *)
Definition validateCompositeKeyAttribute (str : string) : option error :=
  if negb (utf8.ValidString str) then Some (HostError "not a valid utf8 string")
  else if forallb (fun d => negb ((fst d =? minUnicodeRuneValue) || (fst d =? maxUnicodeRuneValue)))
            (utf8.runes str)
  then None
  else Some (HostError "input contain unicode U+0000 or U+10FFFF").

Fixpoint appendAttributes (ck : string) (attributes : list string) : string * option error :=
  match attributes with
  | [] => (ck, None)
  | att :: rest =>
      match validateCompositeKeyAttribute att with
      | Some e => ("", Some e)
      | None => appendAttributes (ck +:+ att +:+ String NUL "") rest
      end
  end.

(** [CreateCompositeKey]: the namespace byte, then the object type and
    every attribute, each followed by U+0000; the empty key and an error
    when a component is refused. *)
Definition CreateCompositeKey (objectType : string) (attributes : list string)
  : string * option error :=
  match validateCompositeKeyAttribute objectType with
  | Some e => ("", Some e)
  | None =>
      appendAttributes (compositeKeyNamespace +:+ objectType +:+ String NUL "") attributes
  end.

(** The components of a composite key: the first byte is skipped, every
    U+0000 after it closes a component, and bytes after the last one are
    dropped. *)
Fixpoint components (s : string) (current : string) : list string :=
  match s with
  | EmptyString => []
  | String c r =>
      if bool_decide (c = NUL) then current :: components r ""
      else components r (current +:+ String c "")
  end.

(** [SplitCompositeKey]; [None] is the panic of [components[0]] on a key
    without a component. *)
Definition SplitCompositeKey (compositeKey : string) : option (string * list string) :=
  match components (utf8.skip 1 compositeKey) "" with
  | objectType :: attributes => Some (objectType, attributes)
  | [] => None
  end.

Definition key_le (a b : string * string) : Prop := String.leb (fst a) (fst b) = true.

#[export] Instance key_le_dec : RelDecision key_le.
Proof. intros a b. unfold key_le. apply _. Defined.

(** The entries of the state with [startKey <= key < endKey], in the
    order of their keys (byte-wise). *)
Definition range (st : gmap string string) (startKey endKey : string) : list (string * string) :=
  merge_sort key_le
    (filter (fun kv => String.leb startKey (fst kv) = true ∧ String.ltb (fst kv) endKey = true)
       (map_to_list st)).

(** [GetStateByPartialCompositeKey]: the range from the partial key to the
    partial key followed by U+10FFFF.  The iterator is the list of the
    entries still to come. *)
Definition GetStateByPartialCompositeKey (stub : ChaincodeStub)
    (objectType : string) (attributes : list string)
  : result error (list (string * string)) :=
  match CreateCompositeKey objectType attributes with
  | (_, Some e) => Err e
  | (partialCompositeKey, None) =>
      match scanFault (host stub) partialCompositeKey with
      | Some e => Err e
      | None =>
          Ok (range (State stub) partialCompositeKey
                (partialCompositeKey +:+ utf8.EncodeRune maxUnicodeRuneValue))
      end
  end.

End shim.

(** ** The chaincode (chaincode.go) *)

Import shim.

(** [ERC20Metadata], the token meta information. *)
Record ERC20Metadata : Type := {
  Name : string;
  Symbol : string;
  Owner : string;
  TotalSupply : Z
}.

(** [TransferEvent], the event of a transfer. *)
Record TransferEvent : Type := {
  Sender : string;
  Recipient : string;
  Amount : Z
}.

(** [Insurance], the entry type local to [approve]. *)
Record Insurance : Type := {
  Insurance_Name : string;
  Insurance_Amount : string
}.

(** What a call of the chaincode ends in: a response, or a run-time panic
    (an index out of range), which aborts the invocation. *)
Inductive outcome : Type :=
| Returned (r : Response)
| Panicked.

(** *** The JSON forms of the three structures *)

Definition Marshal_ERC20Metadata (m : ERC20Metadata) : result error string :=
  Ok (json.object
        [json.field "name" (json.quote (Name m));
         json.field "symbol" (json.quote (Symbol m));
         json.field "owner" (json.quote (Owner m));
         json.field "totalSupply" (strconv.FormatUint (TotalSupply m))]).

Definition Marshal_TransferEvent (ev : TransferEvent) : result error string :=
  Ok (json.object
        [json.field "sender" (json.quote (Sender ev));
         json.field "recipient" (json.quote (Recipient ev));
         json.field "amount" (json.Marshal_int (Amount ev))]).

Definition Marshal_Insurance (i : Insurance) : string :=
  json.object
    [json.field "name" (json.quote (Insurance_Name i));
     json.field "amount" (json.quote (Insurance_Amount i))].

Definition Marshal_Insurances (l : list Insurance) : string :=
  json.array (map Marshal_Insurance l).

(** The fields of [ERC20Metadata] by their JSON names, in declaration
    order. *)
Inductive metadata_field : Type := FName | FSymbol | FOwner | FTotalSupply.

Definition metadata_fields : list (string * metadata_field) :=
  [("name", FName); ("symbol", FSymbol); ("owner", FOwner); ("totalSupply", FTotalSupply)].

Definition caseMask (c : ascii) : Z := Z.land (code c) 0xDF.

(** [simpleLetterEqualFold], for a name made of letters other than K and S. *)
Fixpoint simpleLetterEqualFold (s t : string) : bool :=
  match s, t with
  | EmptyString, EmptyString => true
  | String a s', String b t' => (caseMask a =? caseMask b) && simpleLetterEqualFold s' t'
  | _, _ => false
  end.

(** [equalFoldRight], for a name with a K or an S: the key may also spell
    them as the Kelvin sign (U+212A) and the long s (U+017F). *)
Fixpoint equalFoldRight (s t : string) : bool :=
  match s with
  | EmptyString => match t with EmptyString => true | _ => false end
  | String sb s' =>
      match t with
      | EmptyString => false
      | String tb t' =>
          if code tb <? 0x80 then
            (bool_decide (sb = tb)
             || ((0x41 <=? caseMask sb) && (caseMask sb <=? 0x5A)
                 && (caseMask sb =? caseMask tb)))
            && equalFoldRight s' t'
          else
            let d := utf8.DecodeRune t in
            (if caseMask sb =? 0x53 then fst d =? 0x17F
             else if caseMask sb =? 0x4B then fst d =? 0x212A
             else false)
            && match snd d with
               | 2%nat => match t' with String _ t2 => equalFoldRight s' t2 | _ => false end
               | 3%nat => match t' with String _ (String _ t3) => equalFoldRight s' t3 | _ => false end
               | _ => false
               end
      end
  end.

(** [foldFunc] on the names of this structure, which are all letters. *)
Definition foldFunc (name : string) : string → string → bool :=
  if existsb (fun c => (caseMask c =? 0x4B) || (caseMask c =? 0x53)) (list_ascii_of_string name)
  then equalFoldRight else simpleLetterEqualFold.

(** The field a key of the document names: the one spelt exactly so, else
    the first one equal to it up to case. *)
Definition find_field (key : string) : option metadata_field :=
  match find (fun f => bool_decide (fst f = key)) metadata_fields with
  | Some f => Some (snd f)
  | None => snd <$> find (fun f => foldFunc (fst f) (fst f) key) metadata_fields
  end.

(** Storing one member into the structure; the flag tells that the value
    has the wrong type for the field, which leaves the field as it was. *)
Definition store_field (m : ERC20Metadata) (f : metadata_field) (v : json.value)
  : ERC20Metadata * bool :=
  match v with
  | json.Null => (m, false)
  | json.Str s =>
      match f with
      | FName => ({| Name := s; Symbol := Symbol m; Owner := Owner m; TotalSupply := TotalSupply m |}, false)
      | FSymbol => ({| Name := Name m; Symbol := s; Owner := Owner m; TotalSupply := TotalSupply m |}, false)
      | FOwner => ({| Name := Name m; Symbol := Symbol m; Owner := s; TotalSupply := TotalSupply m |}, false)
      | FTotalSupply => (m, true)
      end
  | json.Number lit =>
      match f with
      | FTotalSupply =>
          match strconv.ParseUint lit with
          | Ok n => ({| Name := Name m; Symbol := Symbol m; Owner := Owner m; TotalSupply := n |}, false)
          | Err _ => (m, true)
          end
      | _ => (m, true)
      end
  | _ => (m, true)
  end.

Fixpoint store_members (m : ERC20Metadata) (mismatch : bool) (ms : list (string * json.value))
  : ERC20Metadata * bool :=
  match ms with
  | [] => (m, mismatch)
  | (key, v) :: ms' =>
      match find_field key with
      | Some f =>
          let '(m', bad) := store_field m f v in store_members m' (mismatch || bad) ms'
      | None => store_members m mismatch ms'
      end
  end.

(** [json.Unmarshal(data, &erc20)] on a fresh [ERC20Metadata]. *)
Definition Unmarshal_ERC20Metadata (data : option string) : result error ERC20Metadata :=
  let zero := {| Name := ""; Symbol := ""; Owner := ""; TotalSupply := 0 |} in
  match json.parse (default "" data) with
  | None => Err SyntaxError
  | Some json.Null => Ok zero
  | Some (json.Object ms) =>
      let '(m, mismatch) := store_members zero false ms in
      if mismatch then Err UnmarshalTypeError else Ok m
  | Some _ => Err UnmarshalTypeError
  end.

(** *** Init *)

Definition returns (stub : ChaincodeStub) (r : Response) : ChaincodeStub * outcome :=
  (stub, Returned r).

(** [Init]: params - tokenName, symbol, owner(address), amount. *)
Definition Init (stub : ChaincodeStub) : ChaincodeStub * outcome :=
  let '(_, params) := GetFunctionAndParameters stub in
  if negb (Nat.eqb (length params) 4) then
    returns stub (Error (Text "incorrect number of parameter"))
  else
    match params !! 0%nat, params !! 1%nat, params !! 2%nat, params !! 3%nat with
    | Some tokenName, Some symbol, Some owner, Some amount =>
        (* check amount is unsigned int *)
        match strconv.ParseUint amount with
        | Err _ => returns stub (Error (Text "amount must be a number or amount cannot be negative"))
        | Ok amountUint =>
            (* tokenName & symbol & owner cannot be empty *)
            if Nat.eqb (String.length tokenName) 0 || Nat.eqb (String.length symbol) 0
               || Nat.eqb (String.length owner) 0 then
              returns stub (Error (Text "tokenName or symbol or owner cannot be emtpy"))
            else
              (* make metadata *)
              let erc20 := {| Name := tokenName; Symbol := symbol; Owner := owner;
                              TotalSupply := amountUint |} in
              match Marshal_ERC20Metadata erc20 with
              | Err e => returns stub (Error (TextErr "failed to Marshal erc20, error: " e))
              | Ok erc20Bytes =>
                  (* save token meta data *)
                  match PutState stub tokenName erc20Bytes with
                  | (stub1, Some e) =>
                      returns stub1 (Error (TextErr "failed to PutState, error: " e))
                  | (stub1, None) =>
                      (* save owner balance *)
                      match PutState stub1 owner amount with
                      | (stub2, Some e) =>
                          returns stub2 (Error (TextErr "failed to PutState, error: " e))
                      | (stub2, None) => returns stub2 (Success None)
                      end
                  end
              end
        end
    | _, _, _, _ => (stub, Panicked)
    end.

(** *** Queries *)

(** [totalSupply]: params - tokenName. *)
Definition totalSupply (stub : ChaincodeStub) (params : list string) : ChaincodeStub * outcome :=
  if negb (Nat.eqb (length params) 1) then
    returns stub (Error (Text "incorrect number of parameter"))
  else
    match params !! 0%nat with
    | Some tokenName =>
        (* Get ERC20 Metadata *)
        match GetState stub tokenName with
        | Err e => returns stub (Error (TextErr "failed to GetState, error: " e))
        | Ok erc20Bytes =>
            match Unmarshal_ERC20Metadata erc20Bytes with
            | Err e => returns stub (Error (TextErr "failed to Unmarshal, error: " e))
            | Ok erc20 =>
                (* Convert TotalSupply to Bytes *)
                match json.Marshal_uint64 (TotalSupply erc20) with
                | Err e => returns stub (Error (TextErr "failed to Marshal totalSupply, error: " e))
                | Ok totalSupplyBytes => returns stub (Success (Some totalSupplyBytes))
                end
            end
        end
    | None => (stub, Panicked)
    end.

(** [balanceOf]: params - address. *)
Definition balanceOf (stub : ChaincodeStub) (params : list string) : ChaincodeStub * outcome :=
  if negb (Nat.eqb (length params) 1) then
    returns stub (Error (Text "incorrect number of parameters"))
  else
    match params !! 0%nat with
    | Some address =>
        (* get Balance *)
        match GetState stub address with
        | Err e => returns stub (Error (TextErr "failed to GetState, error: " e))
        | Ok None => returns stub (Success (Some "0"))
        | Ok (Some amountBytes) => returns stub (Success (Some amountBytes))
        end
    | None => (stub, Panicked)
    end.

(** *** transfer *)

(** [transfer]: params - caller's address, recipient's address, amount of
    token. *)
Definition transfer (stub : ChaincodeStub) (params : list string) : ChaincodeStub * outcome :=
  if negb (Nat.eqb (length params) 3) then
    returns stub (Error (Text "incorrect number of parameters"))
  else
    match params !! 0%nat, params !! 1%nat, params !! 2%nat with
    | Some callerAddress, Some recipientAddress, Some transferAmount =>
        (* check amount is integer & positive *)
        match strconv.Atoi transferAmount with
        | Err _ => returns stub (Error (Text "transfer amount must be integer"))
        | Ok transferAmountInt =>
        if transferAmountInt <=? 0 then
          returns stub (Error (Text "transfer amount must be positive"))
        else
        (* get caller amount *)
        match GetState stub callerAddress with
        | Err e => returns stub (Error (TextErr "failed to GetState, error: " e))
        | Ok callerAmount =>
        match strconv.Atoi (default "" callerAmount) with
        | Err _ => returns stub (Error (Text "caller amount must be integer"))
        | Ok callerAmountInt =>
        (* get recipient amount *)
        match GetState stub recipientAddress with
        | Err e => returns stub (Error (TextErr "failed to GetState, error: " e))
        | Ok recipientAmount =>
        let recipientAmount := match recipientAmount with None => "0" | Some b => b end in
        match strconv.Atoi recipientAmount with
        | Err _ => returns stub (Error (Text "caller amount must be integer"))
        | Ok recipientAmountInt =>
        (* calculate amount *)
        let callerResultAmount := int_sub callerAmountInt transferAmountInt in
        let recipientResultAmount := int_add recipientAmountInt transferAmountInt in
        (* check callerResult Amount is positive *)
        if callerResultAmount <? 0 then
          returns stub (Error (Text "caller's balance is not sufficient"))
        else
        (* save the caller's & recipient's amount *)
        match PutState stub callerAddress (strconv.Itoa callerResultAmount) with
        | (stub1, Some e) =>
            returns stub1 (Error (TextErr "failed to PutState of caller, error: " e))
        | (stub1, None) =>
        match PutState stub1 recipientAddress (strconv.Itoa recipientResultAmount) with
        | (stub2, Some e) =>
            returns stub2 (Error (TextErr "failed to PutState of caller, error: " e))
        | (stub2, None) =>
        (* emit transfer event *)
        let transferEvent := {| Sender := callerAddress; Recipient := recipientAddress;
                                Amount := transferAmountInt |} in
        match Marshal_TransferEvent transferEvent with
        | Err e => returns stub2 (Error (TextErr "failed to Marshal transferEvent, error: " e))
        | Ok transferEventBytes =>
        match SetEvent stub2 "transferEvent" transferEventBytes with
        | (stub3, Some e) =>
            returns stub3 (Error (TextErr "failed to SetEvent of TransferEvent, error: " e))
        | (stub3, None) => returns stub3 (Success (Some "transfer Success"))
        end end end end end end end end end
    | _, _, _ => (stub, Panicked)
    end.

(** *** The allowance registry *)

(** [allowance]: params - id, name, amount.  Neither the error of the key
    construction nor the one of the write is looked at. *)
Definition allowance (stub : ChaincodeStub) (params : list string) : ChaincodeStub * outcome :=
  match params !! 0%nat, params !! 1%nat, params !! 2%nat with
  | Some id, Some name, Some amount =>
      let '(insuranceKey, _) := CreateCompositeKey "insurance" [id; name] in
      let '(stub1, _) := PutState stub insuranceKey amount in
      returns stub1 (Success None)
  | _, _, _ => (stub, Panicked)
  end.

(** The loop of [approve] over the iterator: every entry is split back into
    its attributes, of which the first two are indexed. *)
Fixpoint approve_loop (it : list (string * string)) (result : list Insurance)
  : option (list Insurance) :=
  match it with
  | [] => Some result
  | (key, value) :: it' =>
      match SplitCompositeKey key with
      | Some (objectType, attrs) =>
          match attrs !! 0%nat, attrs !! 1%nat with
          | Some _, Some name =>
              approve_loop it'
                (result ++ [{| Insurance_Name := name; Insurance_Amount := value |}])
          | _, _ => None
          end
      | None => None
      end
  end.

(** [approve]: params - id. *)
Definition approve (stub : ChaincodeStub) (params : list string) : ChaincodeStub * outcome :=
  match params !! 0%nat with
  | Some id =>
      match GetStateByPartialCompositeKey stub "insurance" [id] with
      | Err e => returns stub (Error (TextErr "error: " e))
      | Ok insuranceIterator =>
          match approve_loop insuranceIterator [] with
          | Some result => returns stub (Success (Some (Marshal_Insurances result)))
          | None => (stub, Panicked)
          end
      end
  | None => (stub, Panicked)
  end.

(** *** Operations without a body *)

Definition transferFrom (stub : ChaincodeStub) (params : list string) : ChaincodeStub * outcome :=
  returns stub (Success None).

Definition increaseAllowance (stub : ChaincodeStub) (params : list string) : ChaincodeStub * outcome :=
  returns stub (Success None).

Definition decreaseAllowance (stub : ChaincodeStub) (params : list string) : ChaincodeStub * outcome :=
  returns stub (Success None).

Definition mint (stub : ChaincodeStub) (params : list string) : ChaincodeStub * outcome :=
  returns stub (Success None).

Definition burn (stub : ChaincodeStub) (params : list string) : ChaincodeStub * outcome :=
  returns stub (Success None).

(** *** Invoke *)

Definition NotFound : Response :=
  {| Status := 404; Message := Text "404 Not Found"; Payload := None |}.

Definition Invoke (stub : ChaincodeStub) : ChaincodeStub * outcome :=
  let '(fcn, params) := GetFunctionAndParameters stub in
  if String.eqb fcn "totalSupply" then totalSupply stub params
  else if String.eqb fcn "balanceOf" then balanceOf stub params
  else if String.eqb fcn "transfer" then transfer stub params
  else if String.eqb fcn "allowance" then allowance stub params
  else if String.eqb fcn "approve" then approve stub params
  else if String.eqb fcn "transferFrom" then transferFrom stub params
  else if String.eqb fcn "increaseAllowance" then increaseAllowance stub params
  else if String.eqb fcn "decreaseAllowance" then decreaseAllowance stub params
  else if String.eqb fcn "mint" then mint stub params
  else if String.eqb fcn "burn" then burn stub params
  else returns stub NotFound.

(** ** Hosts and stubs for examples *)

(** A host on which no call of the stub fails. *)
Definition reliable : Host :=
  {| getFault := fun _ => None;
     putFault := fun _ _ => None;
     eventFault := fun _ _ => None;
     scanFault := fun _ => None |}.

(** A host whose only failures are the two argument checks of the Fabric
    shim: a write under the empty key and an event without a name. *)
Definition fabric : Host :=
  {| getFault := fun _ => None;
     putFault := fun key _ =>
       if Nat.eqb (String.length key) 0
       then Some (HostError "key must not be an empty string") else None;
     eventFault := fun name _ =>
       if Nat.eqb (String.length name) 0
       then Some (HostError "event name can not be nil string") else None;
     scanFault := fun _ => None |}.

(** A host on which no event can be set. *)
Definition no_events : Host :=
  {| getFault := fun _ => None;
     putFault := fun _ _ => None;
     eventFault := fun _ _ => Some (HostError "no event can be set");
     scanFault := fun _ => None |}.

(** The stub of a call with arguments [a] on world state [st]. *)
Definition stub_of (h : Host) (st : gmap string string) (a : list string) : ChaincodeStub :=
  {| args := a; State := st; Event := None; host := h |}.

(** The stub a later invocation gets: the state the earlier one left, new
    arguments, no event yet. *)
Definition next_call (stub : ChaincodeStub) (a : list string) : ChaincodeStub :=
  {| args := a; State := State stub; Event := None; host := host stub |}.

(** A ledger on which alice holds 10 tokens. *)
Definition alice_10 : ChaincodeStub :=
  stub_of reliable {[ "alice" := "10" ]} [].

(** The same ledger on a host that sets no event. *)
Definition alice_10_no_events : ChaincodeStub :=
  stub_of no_events {[ "alice" := "10" ]} [].

(** A ledger on which alice holds the largest [int]. *)
Definition alice_maxInt : ChaincodeStub :=
  stub_of reliable {[ "alice" := "9223372036854775807" ]} [].

(** The same with 5 tokens for bob. *)
Definition alice_maxInt_bob_5 : ChaincodeStub :=
  stub_of reliable {[ "alice" := "9223372036854775807"; "bob" := "5" ]} [].

(** The ledger after [Init] of the token TOK for alice with 10 tokens: the
    metadata record under the token name, the balance under the owner. *)
Definition after_init : ChaincodeStub :=
  fst (Init (stub_of reliable ∅ ["init"; "TOK"; "T"; "alice"; "10"])).

(** The ledger of the scenarios of the specification: the token TOK with
    1000 tokens for alice. *)
Definition alice_1000 : ChaincodeStub :=
  fst (Init (stub_of reliable ∅ ["init"; "TOK"; "T"; "alice"; "1000"])).

(** The stub of an [Init] whose owner is the token name itself. *)
Definition init_owner_is_token : ChaincodeStub :=
  stub_of reliable ∅ ["init"; "TOK"; "T"; "TOK"; "10"].

(** The stub of an [Init] whose token name needs an escape in JSON and
    whose amount is written with zeros in front. *)
Definition init_escaped : ChaincodeStub :=
  stub_of reliable ∅ ["init"; "T<K"; "T"; "alice"; "007"].

(** An empty ledger on the Fabric host. *)
Definition empty_fabric : ChaincodeStub := stub_of fabric ∅ [].

(** ** Notions used in the statements *)

(** The balance stored for an address, as a number: an absent key counts as
    zero, bytes that [Atoi] refuses are no balance. *)
Definition balance (st : gmap string string) (address : string) : option Z :=
  match st !! address with
  | None => Some 0
  | Some b => match strconv.Atoi b with Ok z => Some z | Err _ => None end
  end.

(** Conservation between two states: the balances of the two parties exist
    before and after, and add up to the same. *)
Definition conserved (st st' : gmap string string) (caller recipient : string) : Prop :=
  ∃ c r c' r',
    balance st caller = Some c ∧ balance st recipient = Some r
    ∧ balance st' caller = Some c' ∧ balance st' recipient = Some r'
    ∧ c' + r' = c + r.

(** An operation checks its arity: there is a parameter count such that any
    other count is answered by an error response, the stub left as it was. *)
Definition checks_arity (op : ChaincodeStub → list string → ChaincodeStub * outcome) : Prop :=
  ∃ n : nat, ∀ stub params, length params ≠ n →
    ∃ msg, op stub params = (stub, Returned (Error msg)).

(** The keys of the allowance registry start with the composite-key
    namespace byte and the object type. *)
Definition insurancePrefix : string := fst (CreateCompositeKey "insurance" []).

(** The key of the allowance that alice grants to bob, the partial key of
    alice's allowances, and the entry listed for the grant of 50. *)
Definition alice_bob_key : string := fst (CreateCompositeKey "insurance" ["alice"; "bob"]).

Definition alice_key : string := fst (CreateCompositeKey "insurance" ["alice"]).

Definition bob_50 : Insurance := {| Insurance_Name := "bob"; Insurance_Amount := "50" |}.

Definition scans_ok (stub : ChaincodeStub) : Prop :=
  ∀ key, scanFault (host stub) key = None.

Definition no_allowance_entries (st : gmap string string) : Prop :=
  ∀ key, String.prefix insurancePrefix key = true → st !! key = None.

(** The key under which [allowance] stores the grant of [id] to [name], and
    the partial key that [approve] scans for [id]. *)
Definition grant_key (id name : string) : string :=
  fst (CreateCompositeKey "insurance" [id; name]).

Definition granter_key (id : string) : string :=
  fst (CreateCompositeKey "insurance" [id]).

(** A registry whose keys are all keys of grants: every key of the state in
    the namespace of the allowances is the key of an accepted granter and an
    accepted grantee. *)
Definition registry_ok (st : gmap string string) : Prop :=
  ∀ key, String.prefix insurancePrefix key = true → is_Some (st !! key) →
    ∃ id name,
      validateCompositeKeyAttribute id = None
      ∧ validateCompositeKeyAttribute name = None
      ∧ key = grant_key id name.

(** An entry of a scan and the element of the list that [approve]
    makes of it. *)
Definition listed (id : string) (kv : string * string) (e : Insurance) : Prop :=
  validateCompositeKeyAttribute (Insurance_Name e) = None
  ∧ fst kv = grant_key id (Insurance_Name e)
  ∧ snd kv = Insurance_Amount e.

(** A registry with a grant of alice to bob and one of carol to bob. *)
Definition two_granters : ChaincodeStub :=
  stub_of fabric {[grant_key "alice" "bob" := "50"; grant_key "carol" "bob" := "5"]}
    ["allowance"; "alice"; "bob"; "70"].

(** The order in which [approve] lists its entries: byte-wise by name. *)
Definition name_le (a b : Insurance) : Prop :=
  String.leb (Insurance_Name a) (Insurance_Name b) = true.

Fixpoint all_digits (s : string) : bool :=
  match s with
  | EmptyString => true
  | String c s' => is_digit c && all_digits s'
  end.

(** No byte of the string is the delimiter of composite keys. *)
Fixpoint nul_free (s : string) : bool :=
  match s with
  | EmptyString => true
  | String c s' => negb (code c =? 0) && nul_free s'
  end.

(** The names [Invoke] knows, and those of them that write. *)
Definition operations : list string :=
  ["totalSupply"; "balanceOf"; "transfer"; "allowance"; "approve"; "transferFrom";
   "increaseAllowance"; "decreaseAllowance"; "mint"; "burn"].

(** A response of the shim: success or error, never the 404 of [Invoke]. *)
Definition shim_status (r : Response) : Prop := Status r = OK ∨ Status r = ERROR.

(** A parameter list that [Init] accepts: four parameters, an amount that
    [ParseUint] reads, and three names that are not empty. *)
Definition valid_init (params : list string) : Prop :=
  ∃ tokenName symbol owner amount amountUint,
    params = [tokenName; symbol; owner; amount]
    ∧ strconv.ParseUint amount = Ok amountUint
    ∧ tokenName ≠ "" ∧ symbol ≠ "" ∧ owner ≠ "".

(** Bytes that a string literal holds as they are. *)
Definition plain (c : ascii) : bool :=
  (0x20 <=? code c) && (code c <? 0x80)
  && negb (code c =? 0x22) && negb (code c =? 0x5C).

(** The bytes of a member whose name needs no escape, before its value. *)
Definition member (key value : string) : string :=
  String json.quote_chr (key +:+ String json.quote_chr (String ":" value)).

(** The double quote, as a string. *)
Definition dq : string := String (chr 0x22) "".

(** The listing of alice's one grant, byte by byte. *)
Definition bob_50_bytes : string :=
  "[{" +:+ dq +:+ "name" +:+ dq +:+ ":" +:+ dq +:+ "bob" +:+ dq +:+ ","
  +:+ dq +:+ "amount" +:+ dq +:+ ":" +:+ dq +:+ "50" +:+ dq +:+ "}]".

(** Strings that [Marshal] writes as they are: printable ASCII without
    the quote, the backslash and the characters escaped for HTML. *)
Definition safe (s : string) : bool :=
  forallb (λ c, json.htmlSafe (code c)) (list_ascii_of_string s).

(** Strings of ASCII bytes. *)
Definition ascii_only (s : string) : bool :=
  forallb (λ c, code c <? 0x80) (list_ascii_of_string s).

(** The bytes of one entry of a listing and of a whole listing. *)
Definition entry_bytes (e : Insurance) : string :=
  "{" +:+ dq +:+ "name" +:+ dq +:+ ":" +:+ json.quote (Insurance_Name e) +:+ ","
  +:+ dq +:+ "amount" +:+ dq +:+ ":" +:+ json.quote (Insurance_Amount e) +:+ "}".

Definition listing_bytes (l : list Insurance) : string :=
  "[" +:+ json.join "," (map entry_bytes l) +:+ "]".

(** The JSON value of one entry. *)
Definition entry_value (e : Insurance) : json.value :=
  json.Object [("name", json.Str (Insurance_Name e));
               ("amount", json.Str (Insurance_Amount e))].

(** An entry whose name and amount are ASCII. *)
Definition ascii_entry (e : Insurance) : bool :=
  ascii_only (Insurance_Name e) && ascii_only (Insurance_Amount e).

(** Hosts on which the calls made by one operation succeed. *)
Definition reads_ok (stub : ChaincodeStub) (key : string) : Prop :=
  getFault (host stub) key = None.

Definition writes_ok (stub : ChaincodeStub) : Prop :=
  ∀ key value, putFault (host stub) key value = None.

Definition events_ok (stub : ChaincodeStub) : Prop :=
  ∀ name payload, eventFault (host stub) name payload = None.

(** ** Properties of the libraries *)

(** *** Strings, prefixes and the order of keys *)

Lemma append_cons c (s t : string) : String c s +:+ t = String c (s +:+ t).
Proof. reflexivity. Qed.

Lemma append_nil_l (t : string) : "" +:+ t = t.
Proof. reflexivity. Qed.

Lemma append_nil_r (s : string) : s +:+ "" = s.
Proof. induction s as [|c s IH]; [done|]. by rewrite append_cons, IH. Qed.

Lemma append_assoc (s t u : string) : (s +:+ t) +:+ u = s +:+ (t +:+ u).
Proof. induction s as [|c s IH]; [done|]. by rewrite !append_cons, IH. Qed.

Lemma prefix_cons a b (s t : string) :
  String.prefix (String a s) (String b t) = true ↔ a = b ∧ String.prefix s t = true.
Proof.
  cbn [String.prefix]. destruct (ascii_dec a b) as [->|Hne]; [tauto|].
  split; [discriminate|]. intros [? _]. contradiction.
Qed.

Lemma prefix_app (p t : string) : String.prefix p (p +:+ t) = true.
Proof.
  induction p as [|a p IH]; [by destruct t|]. rewrite append_cons. by apply prefix_cons.
Qed.

Lemma prefix_trans (p q k : string) :
  String.prefix p q = true → String.prefix q k = true → String.prefix p k = true.
Proof.
  revert q k. induction p as [|a p IH]; intros q k Hpq Hqk; [by destruct k|].
  destruct q as [|b q]; [done|]. destruct k as [|c k]; [done|].
  apply prefix_cons in Hpq as [-> Hpq]. apply prefix_cons in Hqk as [-> Hqk].
  apply prefix_cons. eauto.
Qed.

Lemma prefix_app_inv (p s t : string) :
  String.prefix (p +:+ s) (p +:+ t) = true → String.prefix s t = true.
Proof.
  induction p as [|a p IH]; [done|]. rewrite !append_cons. intros [_ ?]%prefix_cons. by apply IH.
Qed.

(** A key of the range that starts at [p] and ends at [p] followed by some
    bytes has the prefix [p]. *)
Lemma range_prefix (p sfx k : string) :
  String.leb p k = true → String.ltb k (p +:+ sfx) = true → String.prefix p k = true.
Proof.
  revert k. induction p as [|a p IH]; intros k; [by destruct k|].
  destruct k as [|b k]; [done|]. rewrite append_cons.
  unfold String.leb, String.ltb. cbn [String.compare].
  rewrite (Ascii.compare_antisym b a).
  destruct (Ascii.compare a b) eqn:Hab; cbn [CompOpp]; [|done..].
  apply Ascii.compare_eq_iff in Hab as ->. intros Hle Hlt.
  apply prefix_cons. split; [done|]. by apply IH.
Qed.

(** The delimiter makes the encoding of an attribute prefix-free: of two
    attributes without U+0000, each followed by U+0000 and further bytes, one
    is a prefix of the other only when the attributes are equal. *)
Lemma delimited_prefix_inj (g a x y : string) :
  nul_free g = true → nul_free a = true →
  String.prefix (g +:+ String NUL x) (a +:+ String NUL y) = true → g = a.
Proof.
  revert a. induction g as [|c g IH]; intros a Hg Ha Hp.
  - destruct a as [|d a]; [done|]. rewrite append_nil_l, append_cons in Hp.
    apply prefix_cons in Hp as [<- _]. by vm_compute in Ha.
  - destruct a as [|d a]; rewrite !append_cons in Hp.
    + rewrite append_nil_l in Hp. apply prefix_cons in Hp as [-> _]. by vm_compute in Hg.
    + apply prefix_cons in Hp as [<- Hp]. cbn [nul_free] in Hg, Ha.
      apply andb_true_iff in Hg as [_ Hg]. apply andb_true_iff in Ha as [_ Ha].
      f_equal. by apply IH.
Qed.

(** *** Go's [int] *)

Lemma wrap_int_id z : minInt ≤ z ≤ maxInt → wrap_int z = z.
Proof.
  unfold wrap_int, minInt, maxInt, intSize. intros H.
  rewrite Z.mod_small; lia.
Qed.

Lemma int_add_exact a b : minInt ≤ a + b ≤ maxInt → int_add a b = a + b.
Proof. apply wrap_int_id. Qed.

Lemma int_sub_exact a b : minInt ≤ a - b ≤ maxInt → int_sub a b = a - b.
Proof. apply wrap_int_id. Qed.

Lemma wrap_int_range z : minInt ≤ wrap_int z ≤ maxInt.
Proof.
  unfold wrap_int, minInt, maxInt, intSize.
  pose proof (Z.mod_pos_bound (z + 2 ^ (64 - 1)) (2 ^ 64)). lia.
Qed.

(** *** strconv: printing and reading back *)

Lemma digit_chr_spec d :
  0 ≤ d < 10 → is_digit (digit_chr d) = true ∧ digit_val (digit_chr d) = d.
Proof.
  intros H.
  assert (d = 0 ∨ d = 1 ∨ d = 2 ∨ d = 3 ∨ d = 4 ∨ d = 5 ∨ d = 6 ∨ d = 7 ∨ d = 8 ∨ d = 9)
    as Hd by lia.
  repeat (destruct Hd as [-> | Hd]; [by vm_compute|]). subst d. by vm_compute.
Qed.

Lemma is_digit_not_sign c :
  is_digit c = true → c ≠ "-"%char ∧ c ≠ "+"%char.
Proof. intros H. split; intros ->; vm_compute in H; discriminate. Qed.

Lemma parseUint_loop_app M s1 s2 n :
  strconv.parseUint_loop M (s1 +:+ s2) n =
    match strconv.parseUint_loop M s1 n with
    | Ok n1 => strconv.parseUint_loop M s2 n1
    | Err e => Err e
    end.
Proof.
  revert n. induction s1 as [|c s1 IH]; intros n; [done|].
  rewrite append_cons. cbn [strconv.parseUint_loop].
  destruct (is_digit c); [|done].
  destruct (M <? n * 10 + digit_val c); [done|]. apply IH.
Qed.

Lemma formatBits_acc fuel u acc :
  strconv.formatBits fuel u acc = strconv.formatBits fuel u "" +:+ acc.
Proof.
  revert u acc. induction fuel as [|fuel IH]; intros u acc; [done|].
  cbn [strconv.formatBits]. destruct (u <? 10); [done|].
  rewrite IH, (IH _ (String _ "")). by rewrite append_assoc.
Qed.

Lemma formatBits_head fuel u :
  0 ≤ u → ∃ c rest, strconv.formatBits (S fuel) u "" = String c rest ∧ is_digit c = true.
Proof.
  revert u. induction fuel as [|fuel IH]; intros u Hu.
  - cbn [strconv.formatBits]. exists (digit_chr (u mod 10)), "".
    split; [by destruct (u <? 10)|]. apply digit_chr_spec, Z.mod_pos_bound. lia.
  - change (strconv.formatBits (S (S fuel)) u "")
      with (if u <? 10 then String (digit_chr (u mod 10)) ""
            else strconv.formatBits (S fuel) (u / 10) (String (digit_chr (u mod 10)) "")).
    destruct (u <? 10).
    + eexists _, _. split; [done|]. apply digit_chr_spec, Z.mod_pos_bound. lia.
    + rewrite formatBits_acc.
      destruct (IH (u / 10)) as (c & rest & -> & Hc); [apply Z.div_pos; lia|].
      by eexists _, _.
Qed.

(** Reading the digits printed for [u] gives [u] back, whatever the bound
    [M] above [u]. *)
Lemma parse_formatBits M fuel u :
  0 ≤ u < 10 ^ Z.of_nat fuel → u ≤ M →
  strconv.parseUint_loop M (strconv.formatBits fuel u "") 0 = Ok u.
Proof.
  revert u. induction fuel as [|fuel IH]; intros u Hu HM.
  { change (10 ^ Z.of_nat 0) with 1 in Hu. assert (u = 0) as -> by lia. done. }
  cbn [strconv.formatBits].
  pose proof (Z.mod_pos_bound u 10 ltac:(lia)) as Hmod.
  destruct (digit_chr_spec (u mod 10) Hmod) as [Hd Hv].
  destruct (Z.ltb_spec u 10) as [Hlt|Hge].
  - cbn [strconv.parseUint_loop]. rewrite Hd, Hv, Z.mod_small by lia.
    destruct (Z.ltb_spec M (0 * 10 + u)); [lia|]. f_equal; lia.
  - rewrite formatBits_acc, parseUint_loop_app.
    rewrite Nat2Z.inj_succ, Z.pow_succ_r in Hu by lia.
    rewrite IH.
    + cbn [strconv.parseUint_loop]. rewrite Hd, Hv.
      pose proof (Z.div_mod u 10 ltac:(lia)).
      destruct (Z.ltb_spec M (u / 10 * 10 + u mod 10)); [lia|]. f_equal; lia.
    + split; [apply Z.div_pos; lia|]. apply Z.div_lt_upper_bound; lia.
    + pose proof (Z.div_mod u 10 ltac:(lia)). lia.
Qed.

(** [Atoi] reads back what [Itoa] prints, for every value of an [int]. *)
Lemma Atoi_Itoa z : minInt ≤ z ≤ maxInt → strconv.Atoi (strconv.Itoa z) = Ok z.
Proof.
  unfold minInt, maxInt, intSize. intros Hz. unfold strconv.Itoa.
  destruct (Z.ltb_spec z 0) as [Hneg|Hpos].
  - unfold strconv.FormatUint.
    destruct (formatBits_head 19 (- z)) as (c & rest & Heq & _); [lia|].
    change (strconv.Atoi (String "-" (strconv.formatBits 20 (- z) "")))
      with (match strconv.formatBits 20 (- z) "" with
            | EmptyString => Err strconv.ErrSyntax
            | _ =>
                match strconv.parseUint_loop maxUint64 (strconv.formatBits 20 (- z) "") 0 with
                | Err strconv.ErrSyntax => Err strconv.ErrSyntax
                | Err strconv.ErrRange => Err strconv.ErrRange
                | Ok un => if maxInt + 1 <? un then Err strconv.ErrRange else Ok (- un)
                end
            end).
    rewrite parse_formatBits; [|change (Z.of_nat 20) with 20; lia|unfold maxUint64; lia].
    rewrite Heq. unfold maxInt, intSize.
    destruct (Z.ltb_spec (2 ^ (64 - 1) - 1 + 1) (- z)); [lia|]. f_equal; lia.
  - unfold strconv.Atoi, strconv.FormatUint.
    destruct (formatBits_head 19 z) as (c & rest & Heq & Hc); [lia|].
    destruct (is_digit_not_sign c Hc) as [Hm Hp].
    rewrite Heq.
    rewrite (bool_decide_eq_false_2 _ Hm), (bool_decide_eq_false_2 _ Hp).
    cbn [orb andb negb]. rewrite <- Heq.
    rewrite parse_formatBits; [|change (Z.of_nat 20) with 20; lia|unfold maxUint64; lia].
    unfold maxInt, intSize.
    destruct (Z.ltb_spec (2 ^ (64 - 1) - 1) z); [lia|]. done.
Qed.

Lemma parseUint_loop_lower M s n m :
  0 ≤ n → strconv.parseUint_loop M s n = Ok m → n ≤ m.
Proof.
  revert n. induction s as [|c s IH]; intros n Hn H; cbn [strconv.parseUint_loop] in H.
  - injection H as <-. lia.
  - destruct (is_digit c) eqn:Hc; [|done].
    destruct (M <? n * 10 + digit_val c); [done|].
    assert (0 ≤ digit_val c).
    { unfold is_digit in Hc. unfold digit_val. lia. }
    apply IH in H; lia.
Qed.

(** What [Atoi] accepts is a value of an [int]. *)
Lemma Atoi_range s z : strconv.Atoi s = Ok z → minInt ≤ z ≤ maxInt.
Proof.
  unfold strconv.Atoi. destruct s as [|c s]; [done|].
  set (neg := bool_decide (c = "-"%char)).
  set (body := if bool_decide (c = "+"%char) || neg then s else String c s).
  destruct body as [|c' body'] eqn:Hbody; [done|].
  destruct (strconv.parseUint_loop maxUint64 (String c' body') 0) as [un|[]] eqn:Hp; [|done..].
  apply parseUint_loop_lower in Hp; [|done].
  unfold minInt, maxInt, intSize in *.
  destruct neg; cbn [negb andb].
  - destruct (Z.ltb_spec (2 ^ (64 - 1) - 1 + 1) un); [done|]. intros [= <-]. lia.
  - destruct (Z.ltb_spec (2 ^ (64 - 1) - 1) un); [done|]. intros [= <-]. lia.
Qed.

Lemma parseUint_loop_all_digits M s n m :
  strconv.parseUint_loop M s n = Ok m → all_digits s = true.
Proof.
  revert n. induction s as [|c s IH]; intros n H; [done|].
  cbn [strconv.parseUint_loop] in H. cbn [all_digits].
  destruct (is_digit c); [|done].
  destruct (M <? n * 10 + digit_val c); [done|]. by apply IH in H.
Qed.

(** *** unicode/utf8: accepted attributes hold no U+0000 *)

Lemma lead_lo x size lo hi : utf8.lead x = Some (size, lo, hi) → 0x80 ≤ lo.
Proof.
  unfold utf8.lead.
  repeat match goal with |- context [if ?b then _ else _] => destruct b end;
    intros [= <- <- <-]; lia.
Qed.

Lemma between_not_nul lo hi c :
  0x80 ≤ lo → utf8.between lo hi c = true → negb (code c =? 0) = true.
Proof. unfold utf8.between. intros Hlo H. apply negb_true_iff. lia. Qed.

(** One step of the rune loop: when the rune read is not U+0000, the bytes
    it covers hold no zero byte, and the loop goes on with a shorter
    string. *)
Lemma DecodeRune_step b0 s1 :
  fst (utf8.DecodeRune (String b0 s1)) ≠ 0 →
  (String.length (utf8.skip (snd (utf8.DecodeRune (String b0 s1))) (String b0 s1))
   ≤ String.length s1)%nat
  ∧ (nul_free (utf8.skip (snd (utf8.DecodeRune (String b0 s1))) (String b0 s1)) = true →
     nul_free (String b0 s1) = true).
Proof.
  cbn [utf8.DecodeRune].
  destruct (Z.ltb_spec (code b0) 0x80) as [Hlt|Hge].
  { cbn [fst snd utf8.skip nul_free]. intros H0. split; [lia|].
    intros ->. apply andb_true_iff. split; [|done]. apply negb_true_iff. lia. }
  assert (negb (code b0 =? 0) = true) as Hb0 by (apply negb_true_iff; lia).
  assert (∀ s, nul_free s = true → nul_free (String b0 s) = true) as Hcons.
  { intros s Hs. cbn [nul_free]. by rewrite Hb0, Hs. }
  destruct (utf8.lead (code b0)) as [[[size lo] hi]|] eqn:Hlead;
    [|intros _; cbn [fst snd utf8.skip]; split; [lia|apply Hcons]].
  pose proof (lead_lo _ _ _ _ Hlead) as Hlo.
  destruct size as [|[|[|[|[|size]]]]];
    try (intros _; cbn [fst snd utf8.skip]; split; [lia|apply Hcons]).
  - destruct s1 as [|b1 s2]; [intros _; cbn [fst snd utf8.skip]; split; [lia|apply Hcons]|].
    destruct (utf8.between lo hi b1) eqn:H1;
      [|intros _; cbn [fst snd utf8.skip]; split; [lia|apply Hcons]].
    intros _. cbn [fst snd utf8.skip String.length]. split; [lia|].
    intros Hs. apply Hcons. cbn [nul_free]. by rewrite (between_not_nul _ _ _ Hlo H1), Hs.
  - destruct s1 as [|b1 [|b2 s3]];
      try (intros _; cbn [fst snd utf8.skip]; split; [lia|apply Hcons]).
    destruct (utf8.between lo hi b1) eqn:H1; cbn [andb];
      [|intros _; cbn [fst snd utf8.skip]; split; [lia|apply Hcons]].
    destruct (utf8.between 128 191 b2) eqn:H2;
      [|intros _; cbn [fst snd utf8.skip]; split; [lia|apply Hcons]].
    intros _. cbn [fst snd utf8.skip String.length]. split; [lia|].
    intros Hs. apply Hcons. cbn [nul_free].
    by rewrite (between_not_nul _ _ _ Hlo H1), (between_not_nul 128 _ _ ltac:(lia) H2), Hs.
  - destruct s1 as [|b1 [|b2 [|b3 s4]]];
      try (intros _; cbn [fst snd utf8.skip]; split; [lia|apply Hcons]).
    destruct (utf8.between lo hi b1) eqn:H1; cbn [andb];
      [|intros _; cbn [fst snd utf8.skip]; split; [lia|apply Hcons]].
    destruct (utf8.between 128 191 b2) eqn:H2; cbn [andb];
      [|intros _; cbn [fst snd utf8.skip]; split; [lia|apply Hcons]].
    destruct (utf8.between 128 191 b3) eqn:H3;
      [|intros _; cbn [fst snd utf8.skip]; split; [lia|apply Hcons]].
    intros _. cbn [fst snd utf8.skip String.length]. split; [lia|].
    intros Hs. apply Hcons. cbn [nul_free].
    by rewrite (between_not_nul _ _ _ Hlo H1), (between_not_nul 128 _ _ ltac:(lia) H2),
      (between_not_nul 128 _ _ ltac:(lia) H3), Hs.
Qed.

Lemma runes_loop_nul_free fuel s :
  (String.length s ≤ fuel)%nat →
  forallb (λ d, negb ((fst d =? minUnicodeRuneValue) || (fst d =? maxUnicodeRuneValue)))
    (utf8.runes_loop fuel s) = true →
  nul_free s = true.
Proof.
  revert s. induction fuel as [|fuel IH]; intros s Hlen H.
  { destruct s; [done|]. cbn [String.length] in Hlen. lia. }
  destruct s as [|b0 s1]; [done|]. cbn [utf8.runes_loop forallb] in H.
  apply andb_true_iff in H as [Hd Hrest].
  assert (fst (utf8.DecodeRune (String b0 s1)) ≠ 0) as Hne.
  { apply negb_true_iff, orb_false_iff in Hd as [Hd _]. unfold minUnicodeRuneValue in Hd. lia. }
  destruct (DecodeRune_step _ _ Hne) as [Hshort Hnul].
  apply Hnul, IH; [|done]. cbn [String.length] in Hlen. lia.
Qed.

Lemma validated_nul_free str :
  validateCompositeKeyAttribute str = None → nul_free str = true.
Proof.
  unfold validateCompositeKeyAttribute.
  destruct (negb (utf8.ValidString str)); [done|].
  destruct (forallb _ (utf8.runes str)) eqn:H; [|done].
  intros _. by apply (runes_loop_nul_free (String.length str) str).
Qed.

(** The partial key of one attribute: the error of the attribute, or the
    namespace prefix followed by the attribute and the delimiter. *)
Lemma CreateCompositeKey_one id :
  CreateCompositeKey "insurance" [id]
  = match validateCompositeKeyAttribute id with
    | Some e => ("", Some e)
    | None => (insurancePrefix +:+ id +:+ String NUL "", None)
    end.
Proof.
  unfold CreateCompositeKey.
  change (validateCompositeKeyAttribute "insurance") with (@None error).
  cbn [appendAttributes]. by destruct (validateCompositeKeyAttribute id).
Qed.

(** *** encoding/json on decimal digits *)

Lemma digit_cases (c : ascii) :
  is_digit c = true →
  (c = "0" ∨ c = "1" ∨ c = "2" ∨ c = "3" ∨ c = "4"
   ∨ c = "5" ∨ c = "6" ∨ c = "7" ∨ c = "8" ∨ c = "9")%char.
Proof.
  destruct c as [[] [] [] [] [] [] [] []]; intros H; vm_compute in H; try discriminate;
    tauto.
Qed.

Ltac digit_case c H :=
  destruct (digit_cases c H) as [->|[->|[->|[->|[->|[->|[->|[->|[->| ->]]]]]]]]].

Lemma span_digits_all s : all_digits s = true → json.span_digits s = (s, "").
Proof.
  induction s as [|c s IH]; [done|]. cbn [all_digits json.span_digits].
  intros [Hc Hs]%andb_true_iff. by rewrite Hc, IH.
Qed.

Lemma skip_ws_digits c s : is_digit c = true → json.skip_ws (String c s) = String c s.
Proof. intros H. digit_case c H; reflexivity. Qed.

Lemma scan_frac_digits s : all_digits s = true → json.scan_frac s = Some ("", s).
Proof.
  destruct s as [|c s]; [done|]. cbn [all_digits]. intros [H _]%andb_true_iff.
  digit_case c H; reflexivity.
Qed.

Lemma scan_exp_digits s : all_digits s = true → json.scan_exp s = Some ("", s).
Proof.
  destruct s as [|c s]; [done|]. cbn [all_digits]. intros [H _]%andb_true_iff.
  digit_case c H; reflexivity.
Qed.

(** The number at the head of a run of digits: the zero alone when the run
    starts with it, the whole run otherwise. *)
Lemma scan_number_digits c s :
  is_digit c = true → all_digits s = true →
  json.scan_number (String c s)
  = if code c =? 48 then Some ("0", s) else Some (String c s, "").
Proof.
  intros Hc Hs. unfold json.scan_number.
  assert (match String c s with
          | String "-" r => ("-", r)
          | _ => ("", String c s)
          end = ("", String c s)) as ->.
  { digit_case c Hc; reflexivity. }
  unfold json.scan_int. rewrite (span_digits_all _ Hs).
  destruct (code c =? 48).
  - cbn [mbind option_bind]. rewrite (scan_frac_digits _ Hs). cbn [mbind option_bind].
    by rewrite (scan_exp_digits _ Hs).
  - rewrite Hc. cbn [mbind option_bind json.scan_frac json.scan_exp].
    by rewrite !append_nil_l, !append_nil_r.
Qed.

Lemma parse_value_digits fuel c s :
  is_digit c = true → all_digits s = true →
  json.parse_value (S fuel) (String c s)
  = if code c =? 48 then Some (json.Number "0", s)
    else Some (json.Number (String c s), "").
Proof.
  intros Hc Hs. cbn [json.parse_value]. rewrite (skip_ws_digits _ _ Hc).
  assert ((code c =? 123) = false ∧ (code c =? 91) = false ∧ (code c =? 34) = false)
    as (-> & -> & ->).
  { unfold is_digit in Hc. lia. }
  rewrite Hc, orb_true_r, (scan_number_digits _ _ Hc Hs).
  by destruct (code c =? 48).
Qed.

(** A document made of decimal digits is a number, or no document at all
    when a zero leads other digits; either way it does not decode into the
    metadata structure. *)
Lemma Unmarshal_digits amount n :
  strconv.ParseUint amount = Ok n →
  Unmarshal_ERC20Metadata (Some amount) = Err SyntaxError
  ∨ Unmarshal_ERC20Metadata (Some amount) = Err UnmarshalTypeError.
Proof.
  unfold strconv.ParseUint. destruct amount as [|c s]; [done|]. intros Hp.
  apply parseUint_loop_all_digits in Hp. cbn [all_digits] in Hp.
  apply andb_true_iff in Hp as [Hc Hs].
  unfold Unmarshal_ERC20Metadata, json.parse. cbn [from_option id].
  change (2 * String.length (String c s) + 2)%nat
    with (S (String.length s + S (String.length s + 0) + 2))%nat.
  rewrite (parse_value_digits _ _ _ Hc Hs).
  destruct (code c =? 48); cbn [mbind option_bind].
  - destruct s as [|d s']; [by right|]. left.
    cbn [all_digits] in Hs. apply andb_true_iff in Hs as [Hd _].
    by rewrite (skip_ws_digits _ _ Hd).
  - by right.
Qed.

(** *** The stub *)

Lemma GetState_ok stub key :
  reads_ok stub key → GetState stub key = Ok (State stub !! key).
Proof. unfold reads_ok, GetState. by intros ->. Qed.

Lemma GetState_fault stub key e :
  getFault (host stub) key = Some e → GetState stub key = Err e.
Proof. unfold GetState. by intros ->. Qed.

Lemma PutState_ok stub key value :
  writes_ok stub →
  PutState stub key value = (with_State stub (<[key := value]> (State stub)), None).
Proof. unfold writes_ok, PutState. intros H. by rewrite H. Qed.

Lemma PutState_fault stub key value e :
  putFault (host stub) key value = Some e → PutState stub key value = (stub, Some e).
Proof. unfold PutState. by intros ->. Qed.

Lemma SetEvent_ok stub name payload :
  events_ok stub →
  SetEvent stub name payload = (with_Event stub (Some (name, payload)), None).
Proof. unfold events_ok, SetEvent. intros H. by rewrite H. Qed.

Lemma writes_ok_with_State stub st : writes_ok stub → writes_ok (with_State stub st).
Proof. done. Qed.

Lemma events_ok_with_State stub st : events_ok stub → events_ok (with_State stub st).
Proof. done. Qed.

Lemma elem_of_range st startKey endKey key value :
  (key, value) ∈ range st startKey endKey
  ↔ st !! key = Some value
    ∧ String.leb startKey key = true ∧ String.ltb key endKey = true.
Proof.
  unfold range. rewrite merge_sort_Permutation, list_elem_of_filter, elem_of_map_to_list.
  cbn [fst]. tauto.
Qed.

(** The scan yields its entries in the order of their keys. *)
Lemma Sorted_range st startKey endKey : Sorted key_le (range st startKey endKey).
Proof.
  unfold range. apply Sorted_merge_sort.
  intros a b. unfold key_le. apply String.leb_total.
Qed.

Lemma NoDup_range st startKey endKey : NoDup (range st startKey endKey).
Proof.
  unfold range. rewrite merge_sort_Permutation. apply NoDup_filter, NoDup_map_to_list.
Qed.

Lemma NoDup_singleton_eq {A} (l : list A) (a : A) :
  NoDup l → (∀ x, x ∈ l ↔ x = a) → l = [a].
Proof.
  intros Hnd Hl. destruct l as [|x l].
  - pose proof (proj2 (Hl a) eq_refl) as Ha. by apply elem_of_nil in Ha.
  - assert (x = a) as -> by (apply Hl; left).
    destruct l as [|y l]; [done|].
    assert (y = a) as -> by (apply Hl; right; left).
    apply NoDup_cons in Hnd as [Hnd _]. exfalso. apply Hnd. left.
Qed.

(** ** Properties of the chaincode *)

(** Reduces the arity test and the indexing of a literal parameter list. *)
Tactic Notation "index_params" :=
  cbn [length Nat.eqb negb lookup list_lookup].
Tactic Notation "index_params" "in" hyp(H) :=
  cbn [length Nat.eqb negb lookup list_lookup] in H.

(** *** The scenarios of the specification *)

(** After the initialization with amount 1000 and owner alice, the total
    supply and alice's balance are 1000, and an address never written holds
    0. *)
Example init_then_queries :
  snd (totalSupply alice_1000 ["TOK"]) = Returned (Success (Some "1000"))
  ∧ snd (balanceOf alice_1000 ["alice"]) = Returned (Success (Some "1000"))
  ∧ snd (balanceOf alice_1000 ["bob"]) = Returned (Success (Some "0")).
Proof. by vm_compute. Qed.

(** The transfer of 300 tokens from alice to bob leaves 700 and 300 and sets
    the event of the transfer. *)
Example transfer_300 :
  snd (transfer alice_1000 ["alice"; "bob"; "300"])
  = Returned (Success (Some "transfer Success"))
  ∧ State (fst (transfer alice_1000 ["alice"; "bob"; "300"])) !! "alice" = Some "700"
  ∧ State (fst (transfer alice_1000 ["alice"; "bob"; "300"])) !! "bob" = Some "300"
  ∧ Event (fst (transfer alice_1000 ["alice"; "bob"; "300"]))
    = Some ("transferEvent",
            json.object [json.field "sender" (json.quote "alice");
                         json.field "recipient" (json.quote "bob");
                         json.field "amount" "300"]).
Proof. by vm_compute. Qed.

(** An initialization with three parameters is refused and writes nothing;
    an unknown operation is answered with the response 404. *)
Example refused_calls :
  Init (stub_of reliable ∅ ["init"; "TOK"; "T"; "alice"])
  = (stub_of reliable ∅ ["init"; "TOK"; "T"; "alice"],
     Returned (Error (Text "incorrect number of parameter")))
  ∧ snd (Invoke (next_call alice_1000 ["freeze"; "alice"])) = Returned NotFound.
Proof. by vm_compute. Qed.

(** *** Balances *)

Lemma balance_insert_eq st address z :
  minInt ≤ z ≤ maxInt → balance (<[address := strconv.Itoa z]> st) address = Some z.
Proof.
  intros Hz. unfold balance. by rewrite lookup_insert_eq, Atoi_Itoa.
Qed.

Lemma balance_insert_ne st address other value :
  address ≠ other → balance (<[address := value]> st) other = balance st other.
Proof. intros Hne. unfold balance. by rewrite lookup_insert_ne. Qed.

Lemma balance_default st address z :
  balance st address = Some z ↔ strconv.Atoi (default "0" (st !! address)) = Ok z.
Proof.
  unfold balance. destruct (st !! address) as [b|]; cbn [from_option id].
  - destruct (strconv.Atoi b); split; congruence.
  - change (strconv.Atoi "0") with (@Ok strconv.NumError Z 0). split; congruence.
Qed.

(** *** transfer, step by step *)

(** The calls of [transfer] with three parameters whose amount [Atoi]
    accepts and finds positive: the two checks at the head of the function
    are passed. *)
Section accepted_amount.

Context (stub : ChaincodeStub) (callerAddress recipientAddress transferAmount : string) (n : Z).
Hypothesis Hamount : strconv.Atoi transferAmount = Ok n.
Hypothesis Hpositive : 0 < n.

(** What is left of the function then. *)
Lemma transfer_unfold :
  transfer stub [callerAddress; recipientAddress; transferAmount] =
    match GetState stub callerAddress with
    | Err e => returns stub (Error (TextErr "failed to GetState, error: " e))
    | Ok callerAmount =>
    match strconv.Atoi (default "" callerAmount) with
    | Err _ => returns stub (Error (Text "caller amount must be integer"))
    | Ok callerAmountInt =>
    match GetState stub recipientAddress with
    | Err e => returns stub (Error (TextErr "failed to GetState, error: " e))
    | Ok recipientAmount =>
    match strconv.Atoi (default "0" recipientAmount) with
    | Err _ => returns stub (Error (Text "caller amount must be integer"))
    | Ok recipientAmountInt =>
    if int_sub callerAmountInt n <? 0 then
      returns stub (Error (Text "caller's balance is not sufficient"))
    else
    match PutState stub callerAddress (strconv.Itoa (int_sub callerAmountInt n)) with
    | (stub1, Some e) =>
        returns stub1 (Error (TextErr "failed to PutState of caller, error: " e))
    | (stub1, None) =>
    match PutState stub1 recipientAddress (strconv.Itoa (int_add recipientAmountInt n)) with
    | (stub2, Some e) =>
        returns stub2 (Error (TextErr "failed to PutState of caller, error: " e))
    | (stub2, None) =>
    match SetEvent stub2 "transferEvent"
            (json.object
               [json.field "sender" (json.quote callerAddress);
                json.field "recipient" (json.quote recipientAddress);
                json.field "amount" (json.Marshal_int n)]) with
    | (stub3, Some e) =>
        returns stub3 (Error (TextErr "failed to SetEvent of TransferEvent, error: " e))
    | (stub3, None) => returns stub3 (Success (Some "transfer Success"))
    end end end end end end end.
Proof.
  unfold transfer. index_params.
  rewrite Hamount. destruct (Z.leb_spec n 0) as [?|_]; [lia|].
  destruct (GetState stub callerAddress) as [callerAmount|e]; [|done].
  destruct (strconv.Atoi (default "" callerAmount)); [|done].
  destruct (GetState stub recipientAddress) as [[recipientAmount|]|e]; done.
Qed.

(** [transfer] reports a failed read of the caller's balance. *)
Lemma transfer_read_failure e :
  getFault (host stub) callerAddress = Some e →
  transfer stub [callerAddress; recipientAddress; transferAmount]
  = (stub, Returned (Error (TextErr "failed to GetState, error: " e))).
Proof. intros H. by rewrite transfer_unfold, (GetState_fault _ _ _ H). Qed.

(** [transfer] reports a failed write of the caller's balance, and has
    written nothing then. *)
Lemma transfer_write_failure callerAmount c rv e :
  reads_ok stub callerAddress → reads_ok stub recipientAddress →
  State stub !! callerAddress = Some callerAmount → strconv.Atoi callerAmount = Ok c →
  balance (State stub) recipientAddress = Some rv →
  0 ≤ int_sub c n →
  putFault (host stub) callerAddress (strconv.Itoa (int_sub c n)) = Some e →
  transfer stub [callerAddress; recipientAddress; transferAmount]
  = (stub, Returned (Error (TextErr "failed to PutState of caller, error: " e))).
Proof.
  intros Hrc Hrr Hc Hci Hr Hge Hput.
  rewrite transfer_unfold.
  rewrite (GetState_ok _ _ Hrc), Hc. cbn [from_option id]. rewrite Hci.
  rewrite (GetState_ok _ _ Hrr). apply balance_default in Hr. rewrite Hr.
  destruct (Z.ltb_spec (int_sub c n) 0); [lia|].
  by rewrite (PutState_fault _ _ _ _ Hput).
Qed.

End accepted_amount.

(** Closes the case of a branch that answers with an error, where success
    was assumed. *)
Ltac not_this_branch H := injection H as <- <-; discriminate.

(** Closes the case of a branch that answers before any write. *)
Ltac same_stub H := by injection H as <- <-.

(** A call of [transfer] that answers with success had three parameters, an
    amount and two balances that [Atoi] accepts, a caller whose balance is
    stored, and has written the two new balances, the caller's first, and
    set the event. *)
Lemma transfer_success stub params stub' r :
  transfer stub params = (stub', Returned r) → Status r = OK →
  ∃ callerAddress recipientAddress transferAmount n callerAmount c rv,
    params = [callerAddress; recipientAddress; transferAmount]
    ∧ strconv.Atoi transferAmount = Ok n ∧ 0 < n
    ∧ State stub !! callerAddress = Some callerAmount
    ∧ strconv.Atoi callerAmount = Ok c
    ∧ strconv.Atoi (default "0" (State stub !! recipientAddress)) = Ok rv
    ∧ 0 ≤ int_sub c n
    ∧ State stub' =
        <[recipientAddress := strconv.Itoa (int_add rv n)]>
          (<[callerAddress := strconv.Itoa (int_sub c n)]> (State stub))
    ∧ r = Success (Some "transfer Success").
Proof.
  intros Ht Hs.
  destruct params as [|callerAddress [|recipientAddress [|transferAmount [|? ?]]]];
    try (unfold transfer in Ht; cbn [length Nat.eqb negb] in Ht;
         not_this_branch Ht).
  destruct (strconv.Atoi transferAmount) as [n|e] eqn:Hn.
  2:{ unfold transfer in Ht. index_params in Ht. rewrite Hn in Ht.
      not_this_branch Ht. }
  destruct (Z.leb_spec n 0) as [Hle|Hpos].
  { unfold transfer in Ht. index_params in Ht. rewrite Hn in Ht.
    destruct (Z.leb_spec n 0); [|lia]. not_this_branch Ht. }
  rewrite (transfer_unfold _ _ _ _ n Hn Hpos) in Ht.
  unfold GetState in Ht.
  destruct (getFault (host stub) callerAddress); [not_this_branch Ht|].
  destruct (State stub !! callerAddress) as [callerAmount|] eqn:Hc;
    [|not_this_branch Ht].
  cbn [from_option id] in Ht.
  destruct (strconv.Atoi callerAmount) as [c|] eqn:Hci; [|not_this_branch Ht].
  destruct (getFault (host stub) recipientAddress); [not_this_branch Ht|].
  destruct (strconv.Atoi (default "0" (State stub !! recipientAddress))) as [rv|] eqn:Hr;
    [|not_this_branch Ht].
  destruct (Z.ltb_spec (int_sub c n) 0) as [|Hge]; [not_this_branch Ht|].
  unfold PutState in Ht.
  destruct (putFault (host stub) callerAddress _); [not_this_branch Ht|].
  cbn [host with_State] in Ht.
  destruct (putFault (host stub) recipientAddress _); [not_this_branch Ht|].
  unfold SetEvent in Ht. cbn [host with_State] in Ht.
  destruct (eventFault (host stub) _ _); injection Ht as <- <-; [discriminate|].
  by eexists callerAddress, recipientAddress, transferAmount, n, callerAmount, c, rv.
Qed.

(** A transfer that is answered with an error before its first write hands
    the stub back as it was: when the writes and the event of the host do
    not fail, every error response of [transfer] comes with the unchanged
    stub. *)
Lemma transfer_error_writes_nothing stub params stub' r :
  writes_ok stub → events_ok stub →
  transfer stub params = (stub', Returned r) → Status r = ERROR → stub' = stub.
Proof.
  intros Hw He Ht Hs.
  destruct params as [|callerAddress [|recipientAddress [|transferAmount [|? ?]]]];
    try (unfold transfer in Ht; cbn [length Nat.eqb negb] in Ht; same_stub Ht).
  destruct (strconv.Atoi transferAmount) as [n|e] eqn:Hn.
  2:{ unfold transfer in Ht. index_params in Ht. rewrite Hn in Ht. same_stub Ht. }
  destruct (Z.leb_spec n 0) as [Hle|Hpos].
  { unfold transfer in Ht. index_params in Ht. rewrite Hn in Ht.
    destruct (Z.leb_spec n 0); [|lia]. same_stub Ht. }
  rewrite (transfer_unfold _ _ _ _ n Hn Hpos) in Ht.
  destruct (GetState stub callerAddress) as [callerAmount|]; [|same_stub Ht].
  destruct (strconv.Atoi (default "" callerAmount)) as [c|]; [|same_stub Ht].
  destruct (GetState stub recipientAddress) as [recipientAmount|]; [|same_stub Ht].
  destruct (strconv.Atoi (default "0" recipientAmount)) as [rv|]; [|same_stub Ht].
  destruct (int_sub c n <? 0); [same_stub Ht|].
  rewrite (PutState_ok _ _ _ Hw) in Ht.
  rewrite (PutState_ok _ _ _ (writes_ok_with_State _ _ Hw)) in Ht.
  rewrite SetEvent_ok in Ht by done.
  injection Ht as <- <-. discriminate.
Qed.

(** Between two different addresses, a successful transfer conserves the
    sum of the two balances, as long as the caller's balance is not negative
    and the recipient's new balance is still an [int]. *)
Lemma transfer_conserves_distinct stub caller recipient amount stub' r c rv n :
  caller ≠ recipient →
  transfer stub [caller; recipient; amount] = (stub', Returned r) → Status r = OK →
  strconv.Atoi amount = Ok n →
  balance (State stub) caller = Some c → 0 ≤ c →
  balance (State stub) recipient = Some rv → rv + n ≤ maxInt →
  conserved (State stub) (State stub') caller recipient
  ∧ balance (State stub') caller = Some (c - n)
  ∧ balance (State stub') recipient = Some (rv + n).
Proof.
  intros Hne Ht Hs Hn Hc Hc0 Hr Hrmax.
  destruct (transfer_success _ _ _ _ Ht Hs)
    as (ca & ra & ta & n' & callerAmount & c' & rv' & [= <- <- <-] & Hn' & Hpos
        & Hcs & Hci & Hri & Hge & Hst & _).
  rewrite Hn in Hn'. injection Hn' as <-.
  assert (c' = c) as ->.
  { unfold balance in Hc. rewrite Hcs, Hci in Hc. congruence. }
  assert (rv' = rv) as ->.
  { unfold balance in Hr. destruct (State stub !! recipient); cbn [from_option id] in Hri;
      [rewrite Hri in Hr|]; [congruence|]. vm_compute in Hri. congruence. }
  pose proof (Atoi_range _ _ Hn) as Hnr. pose proof (Atoi_range _ _ Hci) as Hcr.
  pose proof (Atoi_range _ _ Hri) as Hrr.
  unfold minInt, maxInt, intSize in *.
  rewrite int_sub_exact in Hst by (unfold minInt, maxInt, intSize; lia).
  rewrite int_add_exact in Hst by (unfold minInt, maxInt, intSize; lia).
  assert (balance (State stub') caller = Some (c - n)) as Hc'.
  { rewrite Hst, balance_insert_ne by done.
    apply balance_insert_eq. unfold minInt, maxInt, intSize; lia. }
  assert (balance (State stub') recipient = Some (rv + n)) as Hr'.
  { rewrite Hst. apply balance_insert_eq. unfold minInt, maxInt, intSize; lia. }
  split; [|done]. exists c, rv, (c - n), (rv + n). repeat split; try done. lia.
Qed.

(** An absent recipient, on the other hand, is read as 0: after a
    successful transfer to an address without a record, the recipient holds
    the amount. *)
Lemma transfer_absent_recipient stub caller recipient amount stub' r n :
  caller ≠ recipient →
  transfer stub [caller; recipient; amount] = (stub', Returned r) → Status r = OK →
  strconv.Atoi amount = Ok n →
  State stub !! recipient = None →
  State stub' !! recipient = Some (strconv.Itoa n).
Proof.
  intros Hne Ht Hs Hn Habsent.
  destruct (transfer_success _ _ _ _ Ht Hs)
    as (ca & ra & ta & n' & callerAmount & c' & rv' & [= <- <- <-] & Hn' & Hpos
        & Hcs & Hci & Hri & Hge & Hst & _).
  rewrite Hn in Hn'. injection Hn' as <-.
  rewrite Habsent in Hri. vm_compute in Hri. injection Hri as <-.
  rewrite Hst, lookup_insert_eq. f_equal. f_equal.
  apply int_add_exact. pose proof (Atoi_range _ _ Hn). unfold minInt, maxInt, intSize in *. lia.
Qed.

(** *** C1: conservation *)

(** C1: the code at an input where conservation fails.  On a ledger where alice holds 10 tokens, the
    transfer of 5 tokens from alice to alice answers with success, and
    alice's balance is 15 afterwards: with the caller and the recipient
    being the same address, the sum of their balances is 20 before and 30
    after, so the transfer does not conserve it. *)
Theorem C1_self_transfer_breaks_conservation :
  snd (transfer alice_10 ["alice"; "alice"; "5"]) = Returned (Success (Some "transfer Success"))
  ∧ balance (State alice_10) "alice" = Some 10
  ∧ balance (State (fst (transfer alice_10 ["alice"; "alice"; "5"]))) "alice" = Some 15
  ∧ ¬ conserved (State alice_10) (State (fst (transfer alice_10 ["alice"; "alice"; "5"])))
        "alice" "alice".
Proof.
  assert (balance (State alice_10) "alice" = Some 10) as Hb by (by vm_compute).
  assert (balance (State (fst (transfer alice_10 ["alice"; "alice"; "5"]))) "alice" = Some 15)
    as Ha by (by vm_compute).
  split; [by vm_compute|]. split; [done|]. split; [done|].
  intros (c & r & c' & r' & Hc & Hr & Hc' & Hr' & Hsum).
  rewrite Hb in Hc, Hr. rewrite Ha in Hc', Hr'.
  injection Hc as <-. injection Hr as <-. injection Hc' as <-. injection Hr' as <-. lia.
Qed.

(** *** C2: a caller without a balance record *)

(** C2: what the code does where the specification reads the caller's
    absent balance as 0.  When nothing is stored
    under the caller's address, the balance is not read as 0: the empty
    bytes are handed to [Atoi], which refuses them, and the transfer
    of a positive amount is answered with the error "caller amount must be
    integer" and not with "caller's balance is not sufficient"; the stub is
    left as it was. *)
Theorem C2_absent_caller_is_a_parse_error :
  ∀ (stub : ChaincodeStub) (caller recipient amount : string) (n : Z),
    strconv.Atoi amount = Ok n → 0 < n →
    reads_ok stub caller →
    State stub !! caller = None →
    transfer stub [caller; recipient; amount]
    = (stub, Returned (Error (Text "caller amount must be integer"))).
Proof.
  intros stub caller recipient amount n Hn Hpos Hread Habsent.
  rewrite (transfer_unfold _ _ _ _ n Hn Hpos), (GetState_ok _ _ Hread), Habsent.
  reflexivity.
Qed.

Lemma C2_witness :
  transfer empty_fabric ["alice"; "bob"; "5"]
  = (empty_fabric, Returned (Error (Text "caller amount must be integer"))).
Proof.
  apply (C2_absent_caller_is_a_parse_error empty_fabric "alice" "bob" "5" 5).
  - reflexivity.
  - lia.
  - reflexivity.
  - reflexivity.
Defined.

(** *** C3: insufficient funds *)

(** C3 as it holds on the code: when the reads of both balances succeed,
    the caller's stored balance is an integer below the positive amount,
    the recipient's stored value is absent or an integer as well, and the
    difference of balance and amount is still an [int], the transfer is
    answered with the error "caller's balance is not sufficient" and the
    stub is handed back as it was: no key of the state store is written and
    both balances are what they were. *)
Theorem C3_insufficient_funds_writes_nothing :
  ∀ (stub : ChaincodeStub) (caller recipient amount callerAmount : string) (c rv n : Z),
    reads_ok stub caller → reads_ok stub recipient →
    State stub !! caller = Some callerAmount → strconv.Atoi callerAmount = Ok c →
    balance (State stub) recipient = Some rv →
    strconv.Atoi amount = Ok n → 0 < n →
    c < n → minInt ≤ c - n →
    transfer stub [caller; recipient; amount]
    = (stub, Returned (Error (Text "caller's balance is not sufficient"))).
Proof.
  intros stub caller recipient amount callerAmount c rv n Hrc Hrr Hc Hci Hr Hn Hpos Hlt Hmin.
  rewrite (transfer_unfold _ _ _ _ n Hn Hpos).
  rewrite (GetState_ok _ _ Hrc), Hc. cbn [from_option id]. rewrite Hci.
  rewrite (GetState_ok _ _ Hrr). apply balance_default in Hr. rewrite Hr.
  pose proof (Atoi_range _ _ Hn). pose proof (Atoi_range _ _ Hci).
  rewrite int_sub_exact by lia.
  destruct (Z.ltb_spec (c - n) 0); [done|lia].
Qed.

Lemma C3_witness :
  transfer alice_10 ["alice"; "bob"; "11"]
  = (alice_10, Returned (Error (Text "caller's balance is not sufficient"))).
Proof.
  apply (C3_insufficient_funds_writes_nothing alice_10 "alice" "bob" "11" "10" 10 0 11).
  - reflexivity.
  - reflexivity.
  - reflexivity.
  - reflexivity.
  - reflexivity.
  - reflexivity.
  - lia.
  - lia.
  - unfold minInt, intSize. lia.
Defined.

(** C3 does not hold for every recipient: after [Init] of the token TOK for
    alice with 10 tokens, alice's stored balance, 10, is below the amount 11,
    yet the transfer of 11 tokens from alice to the address TOK is not
    answered with the insufficient-funds error.  The bytes stored under TOK
    are the metadata record, which [Atoi] refuses before the balance check
    is reached. *)
Lemma C3_counterexample :
  State after_init !! "alice" = Some "10"
  ∧ strconv.Atoi "10" = Ok 10 ∧ strconv.Atoi "11" = Ok 11 ∧ 0 < 11 ∧ 10 < 11
  ∧ transfer after_init ["alice"; "TOK"; "11"]
    = (after_init, Returned (Error (Text "caller amount must be integer")))
  ∧ snd (transfer after_init ["alice"; "TOK"; "11"])
    ≠ Returned (Error (Text "caller's balance is not sufficient")).
Proof.
  assert (transfer after_init ["alice"; "TOK"; "11"]
          = (after_init, Returned (Error (Text "caller amount must be integer")))) as H
    by (by vm_compute).
  repeat (split; [by vm_compute || lia || done|]).
  rewrite H. discriminate.
Qed.

(** *** C4: failures of the state store *)

(** [totalSupply] reports a failed read. *)
Lemma totalSupply_read_failure stub tokenName e :
  getFault (host stub) tokenName = Some e →
  totalSupply stub [tokenName]
  = (stub, Returned (Error (TextErr "failed to GetState, error: " e))).
Proof.
  intros H. unfold totalSupply. index_params. by rewrite (GetState_fault _ _ _ H).
Qed.

(** A failed read is reported by [balanceOf]. *)
Lemma balanceOf_read_failure stub address e :
  getFault (host stub) address = Some e →
  balanceOf stub [address] = (stub, Returned (Error (TextErr "failed to GetState, error: " e))).
Proof.
  intros H. unfold balanceOf. index_params.
  by rewrite (GetState_fault _ _ _ H).
Qed.

(** [Init] reports a failed write of the metadata record. *)
Lemma Init_write_failure stub fcn tokenName symbol owner amount amountUint e :
  args stub = [fcn; tokenName; symbol; owner; amount] →
  strconv.ParseUint amount = Ok amountUint →
  tokenName ≠ "" → symbol ≠ "" → owner ≠ "" →
  (∀ value, putFault (host stub) tokenName value = Some e) →
  Init stub = (stub, Returned (Error (TextErr "failed to PutState, error: " e))).
Proof.
  intros Ha Hp Ht Hs Ho Hput. unfold Init, GetFunctionAndParameters. rewrite Ha.
  index_params. rewrite Hp.
  destruct tokenName; [done|]. destruct symbol; [done|]. destruct owner; [done|].
  cbn [String.length Nat.eqb orb Marshal_ERC20Metadata].
  by rewrite (PutState_fault _ _ _ _ (Hput _)).
Qed.

(** C4: what the code does where the specification wants every failure
    of the state store reported.  [allowance] looks
    neither at the error of [CreateCompositeKey] nor at the error of
    [PutState]: with three parameters its response is success whatever the
    two calls return, and when the write fails nothing has been stored.  On
    the Fabric host, an id that holds U+0000 makes both calls fail, and the
    response is success all the same. *)
Theorem C4_allowance_hides_failures :
  (∀ (stub : ChaincodeStub) (id name amount : string),
     snd (allowance stub [id; name; amount]) = Returned (Success None)
     ∧ (is_Some (snd (PutState stub (fst (CreateCompositeKey "insurance" [id; name])) amount)) →
        fst (allowance stub [id; name; amount]) = stub))
  ∧ is_Some (snd (CreateCompositeKey "insurance" [String NUL "alice"; "bob"]))
  ∧ is_Some (snd (PutState empty_fabric
                    (fst (CreateCompositeKey "insurance" [String NUL "alice"; "bob"])) "50"))
  ∧ allowance empty_fabric [String NUL "alice"; "bob"; "50"]
    = (empty_fabric, Returned (Success None)).
Proof.
  split.
  - intros stub id name amount. unfold allowance. index_params.
    destruct (CreateCompositeKey "insurance" [id; name]) as [insuranceKey err].
    cbn [fst]. unfold PutState.
    destruct (putFault (host stub) insuranceKey amount); cbn [fst snd returns].
    + done.
    + split; [done|]. by intros [? [=]].
  - split; [by vm_compute; eexists|]. split; [by vm_compute; eexists|]. by vm_compute.
Qed.

(** At that input both calls fail on the Fabric host: the id holds U+0000,
    so the key construction returns an error and the empty key, and the
    write under the empty key is refused. *)
Lemma allowance_failing_input :
  CreateCompositeKey "insurance" [String NUL "alice"; "bob"]
  = ("", Some (HostError "input contain unicode U+0000 or U+10FFFF"))
  ∧ PutState empty_fabric "" "50"
    = (empty_fabric, Some (HostError "key must not be an empty string"))
  ∧ allowance empty_fabric [String NUL "alice"; "bob"; "50"]
    = (empty_fabric, Returned (Success None)).
Proof. by vm_compute. Qed.

(** *** C5: balanceOf *)

(** C5: when the read of the state store succeeds, [balanceOf] answers with
    success and the bytes stored under the address, and with success and the
    bytes ["0"] when nothing is stored under it; an absent key is never an
    error. *)
Theorem C5_balanceOf_stored_or_zero :
  ∀ (stub : ChaincodeStub) (address : string),
    reads_ok stub address →
    (∀ amountBytes, State stub !! address = Some amountBytes →
       balanceOf stub [address] = (stub, Returned (Success (Some amountBytes))))
    ∧ (State stub !! address = None →
       balanceOf stub [address] = (stub, Returned (Success (Some "0")))).
Proof.
  intros stub address Hr. unfold balanceOf. index_params.
  rewrite (GetState_ok _ _ Hr).
  split; [intros b ->|intros ->]; reflexivity.
Qed.

Lemma C5_witness :
  balanceOf (stub_of reliable {[ "alice" := "1000" ]} []) ["bob"]
  = (stub_of reliable {[ "alice" := "1000" ]} [], Returned (Success (Some "0"))).
Proof.
  apply (C5_balanceOf_stored_or_zero (stub_of reliable {[ "alice" := "1000" ]} []) "bob").
  - reflexivity.
  - reflexivity.
Defined.

(** *** C6: an allowance and its listing *)

Lemma alice_bob_key_eq :
  alice_bob_key = insurancePrefix +:+ "alice" +:+ String NUL ("bob" +:+ String NUL "").
Proof. reflexivity. Qed.

(** After the grant, the scan of alice's partial key meets the new entry
    and nothing else. *)
Lemma range_after_allowance st :
  no_allowance_entries st →
  range (<[alice_bob_key := "50"]> st) alice_key
    (alice_key +:+ utf8.EncodeRune maxUnicodeRuneValue)
  = [(alice_bob_key, "50")].
Proof.
  intros Hno. apply NoDup_singleton_eq; [apply NoDup_range|].
  intros [key value]. rewrite elem_of_range. split.
  - intros (Hlook & Hle & Hlt). destruct (decide (key = alice_bob_key)) as [->|Hne].
    + rewrite lookup_insert_eq in Hlook. congruence.
    + rewrite lookup_insert_ne in Hlook by done.
      pose proof (range_prefix _ _ _ Hle Hlt) as Hp.
      rewrite Hno in Hlook; [done|].
      by apply (prefix_trans _ alice_key).
  - intros [= -> ->]. rewrite lookup_insert_eq. by vm_compute.
Qed.

(** The scan of the partial key of any other granter meets nothing. *)
Lemma range_other_granter st g :
  no_allowance_entries st → nul_free g = true → g ≠ "alice" →
  range (<[alice_bob_key := "50"]> st) (insurancePrefix +:+ g +:+ String NUL "")
    ((insurancePrefix +:+ g +:+ String NUL "") +:+ utf8.EncodeRune maxUnicodeRuneValue)
  = [].
Proof.
  intros Hno Hg Hne.
  destruct (range _ _ _) as [|[key value] l] eqn:Hrange; [done|]. exfalso.
  assert ((key, value) ∈ range (<[alice_bob_key := "50"]> st)
            (insurancePrefix +:+ g +:+ String NUL "")
            ((insurancePrefix +:+ g +:+ String NUL "") +:+ utf8.EncodeRune maxUnicodeRuneValue))
    as Hin by (rewrite Hrange; left).
  apply elem_of_range in Hin as (Hlook & Hle & Hlt).
  pose proof (range_prefix _ _ _ Hle Hlt) as Hp.
  destruct (decide (key = alice_bob_key)) as [->|Hkey].
  - rewrite alice_bob_key_eq in Hp. apply prefix_app_inv in Hp.
    by apply delimited_prefix_inj in Hp.
  - rewrite lookup_insert_ne in Hlook by done.
    rewrite Hno in Hlook; [done|].
    apply (prefix_trans _ (insurancePrefix +:+ g +:+ String NUL "")); [apply prefix_app|done].
Qed.

(** C6: on a state without allowance entries, and when the write and the
    scans of the host succeed, [allowance] of 50 from alice to bob answers
    with success, and on the state it leaves [approve] for alice answers
    with the bytes of the list that holds exactly the entry of name bob and
    amount 50, an array of one object with the two members, while [approve]
    for any other granter answers with the bytes of the empty list, an
    opening and a closing bracket, or with an error when the granter is no
    valid key attribute: no entry of alice's is listed for another
    granter. *)
Theorem C6_allowance_then_approve :
  ∀ (stub : ChaincodeStub),
    no_allowance_entries (State stub) →
    putFault (host stub) alice_bob_key "50" = None →
    snd (allowance stub ["alice"; "bob"; "50"]) = Returned (Success None)
    ∧ ∀ later,
        State later = State (fst (allowance stub ["alice"; "bob"; "50"])) →
        scans_ok later →
        approve later ["alice"] = (later, Returned (Success (Some bob_50_bytes)))
        ∧ ∀ g, g ≠ "alice" →
            approve later [g] = (later, Returned (Success (Some "[]")))
            ∨ ∃ e, approve later [g] = (later, Returned (Error (TextErr "error: " e))).
Proof.
  intros stub Hno Hput.
  assert (allowance stub ["alice"; "bob"; "50"]
          = (with_State stub (<[alice_bob_key := "50"]> (State stub)), Returned (Success None)))
    as ->.
  { unfold allowance. index_params.
    change (CreateCompositeKey "insurance" ["alice"; "bob"]) with (alice_bob_key, @None error).
    unfold PutState. by rewrite Hput. }
  split; [done|]. cbn [fst State with_State]. intros later Hst Hscan. split.
  - unfold approve, GetStateByPartialCompositeKey. index_params.
    change (CreateCompositeKey "insurance" ["alice"]) with (alice_key, @None error).
    cbv beta iota. rewrite Hscan, Hst, (range_after_allowance _ Hno). reflexivity.
  - intros g Hg. unfold approve, GetStateByPartialCompositeKey. index_params.
    rewrite CreateCompositeKey_one.
    destruct (validateCompositeKeyAttribute g) as [e|] eqn:Hv; [right; by eexists|].
    left. rewrite Hscan, Hst.
    by rewrite (range_other_granter _ _ Hno (validated_nul_free _ Hv) Hg).
Qed.

Lemma C6_witness :
  snd (allowance after_init ["alice"; "bob"; "50"]) = Returned (Success None)
  ∧ ∀ later,
      State later = State (fst (allowance after_init ["alice"; "bob"; "50"])) →
      scans_ok later →
      approve later ["alice"] = (later, Returned (Success (Some bob_50_bytes)))
      ∧ ∀ g, g ≠ "alice" →
          approve later [g] = (later, Returned (Success (Some "[]")))
          ∨ ∃ e, approve later [g] = (later, Returned (Error (TextErr "error: " e))).
Proof.
  apply (C6_allowance_then_approve after_init).
  - intros key Hkey. unfold after_init.
    destruct key as [|c key]; [done|]. apply prefix_cons in Hkey as [<- _]. reflexivity.
  - reflexivity.
Defined.

(** *** C7: the operations without a body *)

(** C7: for every argument list and every starting state, [transferFrom],
    [increaseAllowance], [decreaseAllowance], [mint] and [burn] return
    success with no payload and hand the stub back as it was, so that no key
    of the state store changes; the same holds when they are reached through
    [Invoke]. *)
Theorem C7_placeholders_are_noops :
  ∀ (stub : ChaincodeStub) (params : list string),
    (transferFrom stub params = (stub, Returned (Success None))
     ∧ increaseAllowance stub params = (stub, Returned (Success None))
     ∧ decreaseAllowance stub params = (stub, Returned (Success None))
     ∧ mint stub params = (stub, Returned (Success None))
     ∧ burn stub params = (stub, Returned (Success None)))
    ∧ ∀ fcn, fcn ∈ ["transferFrom"; "increaseAllowance"; "decreaseAllowance"; "mint"; "burn"] →
        ∀ h st ev,
          let stub' := {| args := fcn :: params; State := st; Event := ev; host := h |} in
          Invoke stub' = (stub', Returned (Success None))
          ∧ State (fst (Invoke stub')) = st.
Proof.
  intros stub params. split; [by repeat split|].
  intros fcn Hin h st ev stub'.
  assert (Invoke stub' = (stub', Returned (Success None))) as ->; [|done].
  repeat (apply elem_of_cons in Hin as [-> | Hin]; [reflexivity|]).
  by apply elem_of_nil in Hin.
Qed.

(** *** C8: a transfer to oneself *)

(** C8 as it holds on the code: when the calls of the stub succeed, the
    bytes stored under [a] are an integer [b], the amount is a positive
    integer with [b - amount >= 0], and [b + amount] is still an [int], the
    transfer from [a] to [a] answers with success and leaves the decimal
    form of [b + amount] under [a]: the balance of [a] has grown by the
    amount. *)
Theorem C8_self_transfer_adds_amount :
  ∀ (stub : ChaincodeStub) (a amount stored : string) (b n : Z),
    reads_ok stub a → writes_ok stub → events_ok stub →
    State stub !! a = Some stored → strconv.Atoi stored = Ok b →
    strconv.Atoi amount = Ok n → 0 < n → 0 ≤ b - n →
    b + n ≤ maxInt →
    snd (transfer stub [a; a; amount]) = Returned (Success (Some "transfer Success"))
    ∧ State (fst (transfer stub [a; a; amount])) !! a = Some (strconv.Itoa (b + n))
    ∧ balance (State (fst (transfer stub [a; a; amount]))) a = Some (b + n).
Proof.
  intros stub a amount stored b n Hr Hw He Hst Hb Hn Hpos Hge Hmax.
  rewrite (transfer_unfold _ _ _ _ n Hn Hpos).
  rewrite (GetState_ok _ _ Hr), Hst. cbn [from_option id]. rewrite Hb.
  pose proof (Atoi_range _ _ Hn). pose proof (Atoi_range _ _ Hb).
  rewrite int_sub_exact, int_add_exact by (unfold minInt, maxInt, intSize in *; lia).
  destruct (Z.ltb_spec (b - n) 0); [lia|].
  rewrite (PutState_ok _ _ _ Hw).
  rewrite (PutState_ok _ _ _ (writes_ok_with_State _ _ Hw)).
  rewrite SetEvent_ok by done.
  cbn [returns fst snd with_Event with_State State].
  split; [done|]. split; [by rewrite lookup_insert_eq|].
  apply balance_insert_eq. unfold minInt, maxInt, intSize in *; lia.
Qed.

Lemma C8_witness :
  snd (transfer alice_10 ["alice"; "alice"; "5"]) = Returned (Success (Some "transfer Success"))
  ∧ State (fst (transfer alice_10 ["alice"; "alice"; "5"])) !! "alice" = Some (strconv.Itoa (10 + 5))
  ∧ balance (State (fst (transfer alice_10 ["alice"; "alice"; "5"]))) "alice" = Some (10 + 5).
Proof.
  apply (C8_self_transfer_adds_amount alice_10 "alice" "5" "10" 10 5).
  - reflexivity.
  - intros key value. reflexivity.
  - intros name payload. reflexivity.
  - reflexivity.
  - reflexivity.
  - reflexivity.
  - lia.
  - lia.
  - unfold maxInt, intSize. lia.
Defined.

(** C8 does not hold for every balance: when alice holds the largest [int],
    her stored balance [b] is an integer and the amount 1 is positive with
    [b - 1 >= 0]; the transfer of 1 token from alice to alice answers with
    success, but the sum wraps around and the balance left under alice is
    the smallest [int], not [b + 1]. *)
Lemma C8_counterexample :
  State alice_maxInt !! "alice" = Some "9223372036854775807"
  ∧ strconv.Atoi "9223372036854775807" = Ok 9223372036854775807
  ∧ strconv.Atoi "1" = Ok 1 ∧ 0 < 1 ∧ 0 ≤ 9223372036854775807 - 1
  ∧ snd (transfer alice_maxInt ["alice"; "alice"; "1"])
    = Returned (Success (Some "transfer Success"))
  ∧ State (fst (transfer alice_maxInt ["alice"; "alice"; "1"])) !! "alice"
    = Some "-9223372036854775808"
  ∧ balance (State (fst (transfer alice_maxInt ["alice"; "alice"; "1"]))) "alice"
    ≠ Some (9223372036854775807 + 1).
Proof.
  repeat (split; [by vm_compute || lia|]).
  assert (balance (State (fst (transfer alice_maxInt ["alice"; "alice"; "1"]))) "alice"
          = Some (-9223372036854775808)) as -> by (by vm_compute).
  intros [=].
Qed.

(** *** C9: arity *)

Lemma totalSupply_checks_arity : checks_arity totalSupply.
Proof.
  exists 1%nat. intros stub params Hn. eexists. unfold totalSupply.
  destruct (Nat.eqb_spec (length params) 1); [done|]. reflexivity.
Qed.

Lemma balanceOf_checks_arity : checks_arity balanceOf.
Proof.
  exists 1%nat. intros stub params Hn. eexists. unfold balanceOf.
  destruct (Nat.eqb_spec (length params) 1); [done|]. reflexivity.
Qed.

Lemma transfer_checks_arity : checks_arity transfer.
Proof.
  exists 3%nat. intros stub params Hn. eexists. unfold transfer.
  destruct (Nat.eqb_spec (length params) 3); [done|]. reflexivity.
Qed.

Lemma Init_checks_arity stub :
  length (snd (GetFunctionAndParameters stub)) ≠ 4%nat →
  Init stub = (stub, Returned (Error (Text "incorrect number of parameter"))).
Proof.
  unfold Init. destruct (GetFunctionAndParameters stub) as [fcn params]. cbn [snd].
  intros Hn. destruct (Nat.eqb_spec (length params) 4); [done|]. reflexivity.
Qed.

Lemma allowance_short_panics stub params :
  (length params < 3)%nat → allowance stub params = (stub, Panicked).
Proof.
  intros Hn. destruct params as [|id [|name [|amount ?]]]; cbn [length] in Hn; try lia; done.
Qed.

Lemma approve_empty_panics stub : approve stub [] = (stub, Panicked).
Proof. reflexivity. Qed.

Create HintDb arity.

#[local] Hint Resolve allowance_short_panics approve_empty_panics Init_checks_arity
  totalSupply_checks_arity balanceOf_checks_arity transfer_checks_arity : arity.

(** C9 as it holds on the code: [allowance] and [approve] validate no
    parameter count; [allowance] with fewer than 3 parameters and [approve]
    without a parameter index past the end of the parameter list and panic,
    where [Init], [totalSupply], [balanceOf] and [transfer] check the number
    of parameters first and answer a wrong number with an error.  The five
    operations without a body make no such check either, but they index no
    parameter and never panic. *)
Theorem C9_arity_checks :
  (¬ checks_arity allowance ∧ ¬ checks_arity approve)
  ∧ (∀ stub params, (length params < 3)%nat → allowance stub params = (stub, Panicked))
  ∧ (∀ stub, approve stub [] = (stub, Panicked))
  ∧ (∀ stub, length (snd (GetFunctionAndParameters stub)) ≠ 4%nat →
       Init stub = (stub, Returned (Error (Text "incorrect number of parameter"))))
  ∧ checks_arity totalSupply ∧ checks_arity balanceOf ∧ checks_arity transfer
  ∧ (∀ op, op ∈ [transferFrom; increaseAllowance; decreaseAllowance; mint; burn] →
       ¬ checks_arity op ∧ ∀ stub params, snd (op stub params) ≠ Panicked).
Proof.
  split.
  { split; intros [n Hn]; destruct (decide (n = 0%nat)) as [->|Hne].
    - by destruct (Hn empty_fabric [""] ltac:(done)) as [msg Hmsg].
    - by destruct (Hn empty_fabric [] ltac:(done)) as [msg Hmsg].
    - destruct (Hn empty_fabric [""] ltac:(done)) as [msg Hmsg].
      by vm_compute in Hmsg.
    - by destruct (Hn empty_fabric [] ltac:(done)) as [msg Hmsg]. }
  do 6 (split; [by auto with arity|]).
  intros op Hop.
  assert (∀ stub params, op stub params = (stub, Returned (Success None))) as Hnoop.
  { repeat (apply elem_of_cons in Hop as [-> | Hop]; [done|]). by apply elem_of_nil in Hop. }
  split.
  - intros [n Hn].
    destruct (Hn empty_fabric (replicate (S n) "") ltac:(rewrite length_replicate; lia))
      as [msg Hmsg].
    rewrite Hnoop in Hmsg. by injection Hmsg.
  - intros stub params. by rewrite Hnoop.
Qed.

(** C9 does not hold for every other operation: not all of them check their
    arity.  [transferFrom] answers with success whatever the number of its
    parameters, none and four included, so it rejects no parameter count. *)
Lemma C9_counterexample :
  transferFrom empty_fabric [] = (empty_fabric, Returned (Success None))
  ∧ transferFrom empty_fabric ["a"; "b"; "c"; "d"] = (empty_fabric, Returned (Success None))
  ∧ ¬ checks_arity transferFrom.
Proof.
  split; [done|]. split; [done|].
  intros [n Hn].
  destruct (Hn empty_fabric (replicate (S n) "") ltac:(rewrite length_replicate; lia))
    as [msg Hmsg].
  by injection Hmsg.
Qed.

(** *** C10: an owner named like the token *)

(** What a successful [Init] has done: the amount is an unsigned number,
    and the state holds the metadata record under the token name and, written
    after it, the amount under the owner. *)
Lemma Init_success stub fcn tokenName symbol owner amount stub' :
  args stub = [fcn; tokenName; symbol; owner; amount] →
  Init stub = (stub', Returned (Success None)) →
  ∃ amountUint erc20Bytes,
    strconv.ParseUint amount = Ok amountUint
    ∧ Marshal_ERC20Metadata {| Name := tokenName; Symbol := symbol; Owner := owner;
                               TotalSupply := amountUint |} = Ok erc20Bytes
    ∧ stub' = with_State stub (<[owner := amount]> (<[tokenName := erc20Bytes]> (State stub))).
Proof.
  intros Ha. unfold Init, GetFunctionAndParameters. rewrite Ha. index_params.
  destruct (strconv.ParseUint amount) as [amountUint|]; [|intros [= _ ?]; done].
  destruct (_ || _); [intros [= _ ?]; done|].
  cbn [Marshal_ERC20Metadata]. unfold PutState.
  destruct (putFault (host stub) tokenName _); [intros [= _ ?]; done|].
  cbn [host with_State State].
  destruct (putFault (host stub) owner amount); [intros [= _ ?]; done|].
  intros [= <-]. by eexists _, _.
Qed.

(** C10: a successful [Init] has written the metadata record under the
    token name and then the amount under the owner, both in the one world
    state.  When the owner is the token name, the second write has replaced
    the record: the state is the one before with the amount stored under the
    token name.  A later [totalSupply] of the token whose read succeeds is
    then answered with the error "failed to Unmarshal", the stored digits
    being no metadata record, and not with the supply. *)
Theorem C10_owner_equal_to_token_name :
  ∀ (stub stub' : ChaincodeStub) (fcn tokenName symbol owner amount : string),
    args stub = [fcn; tokenName; symbol; owner; amount] →
    Init stub = (stub', Returned (Success None)) →
    (∃ amountUint erc20Bytes,
       strconv.ParseUint amount = Ok amountUint
       ∧ Marshal_ERC20Metadata {| Name := tokenName; Symbol := symbol; Owner := owner;
                                  TotalSupply := amountUint |} = Ok erc20Bytes
       ∧ State stub' = <[owner := amount]> (<[tokenName := erc20Bytes]> (State stub)))
    ∧ (owner = tokenName →
       State stub' = <[tokenName := amount]> (State stub)
       ∧ ∀ later, State later = State stub' → reads_ok later tokenName →
           ∃ e, (e = SyntaxError ∨ e = UnmarshalTypeError)
                ∧ totalSupply later [tokenName]
                  = (later, Returned (Error (TextErr "failed to Unmarshal, error: " e)))).
Proof.
  intros stub stub' fcn tokenName symbol owner amount Ha Hi.
  destruct (Init_success _ _ _ _ _ _ _ Ha Hi) as (n & bytes & Hp & Hm & ->).
  cbn [State with_State]. split; [by exists n, bytes|].
  intros ->. rewrite insert_insert_eq. split; [done|].
  intros later Hst Hr. unfold totalSupply. index_params.
  rewrite (GetState_ok _ _ Hr), Hst, lookup_insert_eq.
  destruct (Unmarshal_digits _ _ Hp) as [-> | ->]; eexists; eauto.
Qed.

Lemma C10_witness :
  (∃ amountUint erc20Bytes,
     strconv.ParseUint "10" = Ok amountUint
     ∧ Marshal_ERC20Metadata {| Name := "TOK"; Symbol := "T"; Owner := "TOK";
                                TotalSupply := amountUint |} = Ok erc20Bytes
     ∧ State (fst (Init init_owner_is_token))
       = <[ "TOK" := "10" ]> (<[ "TOK" := erc20Bytes ]> (State init_owner_is_token)))
  ∧ ("TOK" = "TOK" →
     State (fst (Init init_owner_is_token)) = <[ "TOK" := "10" ]> (State init_owner_is_token)
     ∧ ∀ later, State later = State (fst (Init init_owner_is_token)) → reads_ok later "TOK" →
         ∃ e, (e = SyntaxError ∨ e = UnmarshalTypeError)
              ∧ totalSupply later ["TOK"]
                = (later, Returned (Error (TextErr "failed to Unmarshal, error: " e)))).
Proof.
  apply (C10_owner_equal_to_token_name init_owner_is_token (fst (Init init_owner_is_token))
           "init" "TOK" "T" "TOK" "10").
  - reflexivity.
  - reflexivity.
Defined.

(** With an owner of its own, the supply is read back. *)
Lemma totalSupply_after_init :
  snd (totalSupply after_init ["TOK"]) = Returned (Success (Some "10"))
  ∧ snd (totalSupply (fst (Init init_owner_is_token)) ["TOK"])
    = Returned (Error (TextErr "failed to Unmarshal, error: " UnmarshalTypeError)).
Proof. by vm_compute. Qed.

(** ** Further properties of the chaincode *)

(** *** What every operation answers *)

Lemma totalSupply_answers stub params :
  ∃ r, totalSupply stub params = (stub, Returned r) ∧ shim_status r.
Proof.
  unfold totalSupply, shim_status.
  destruct params as [|tokenName [|? ?]]; index_params;
    try (eexists; split; [reflexivity|]; cbn; tauto).
  destruct (GetState stub tokenName) as [erc20Bytes|e];
    [|eexists; split; [reflexivity|]; cbn; tauto].
  destruct (Unmarshal_ERC20Metadata erc20Bytes);
    eexists; (split; [reflexivity|]); cbn; tauto.
Qed.

Lemma balanceOf_answers stub params :
  ∃ r, balanceOf stub params = (stub, Returned r) ∧ shim_status r.
Proof.
  unfold balanceOf, shim_status.
  destruct params as [|address [|? ?]]; index_params;
    try (eexists; split; [reflexivity|]; cbn; tauto).
  destruct (GetState stub address) as [[amountBytes|]|e];
    eexists; (split; [reflexivity|]); cbn; tauto.
Qed.

Lemma approve_answers stub params :
  approve stub params = (stub, Panicked)
  ∨ ∃ r, approve stub params = (stub, Returned r) ∧ shim_status r.
Proof.
  unfold approve, shim_status. destruct (params !! 0%nat) as [id|]; [|by left].
  destruct (GetStateByPartialCompositeKey stub "insurance" [id]) as [it|e].
  - destruct (approve_loop it []); [right|by left].
    eexists; split; [reflexivity|]; cbn; tauto.
  - right. eexists; split; [reflexivity|]; cbn; tauto.
Qed.

Lemma allowance_answers stub params :
  allowance stub params = (stub, Panicked)
  ∨ ∃ stub', allowance stub params = (stub', Returned (Success None)).
Proof.
  unfold allowance.
  destruct (params !! 0%nat); [|by left]. destruct (params !! 1%nat); [|by left].
  destruct (params !! 2%nat); [|by left]. right.
  destruct (CreateCompositeKey _ _) as [insuranceKey ?].
  destruct (PutState stub insuranceKey _) as [stub1 ?]. by eexists.
Qed.

Lemma transfer_answers stub params :
  ∃ stub' r, transfer stub params = (stub', Returned r) ∧ shim_status r.
Proof.
  unfold shim_status.
  destruct params as [|callerAddress [|recipientAddress [|transferAmount [|? ?]]]];
    try (unfold transfer; cbn [length Nat.eqb negb];
         eexists _, _; split; [reflexivity|]; cbn; tauto).
  unfold transfer. index_params.
  repeat match goal with
         | |- context [match ?x with _ => _ end] => destruct x
         end;
    eexists _, _; (split; [reflexivity|]); cbn; tauto.
Qed.

Lemma Init_answers stub :
  ∃ stub' r, Init stub = (stub', Returned r) ∧ shim_status r.
Proof.
  unfold Init, shim_status. destruct (GetFunctionAndParameters stub) as [fcn params].
  destruct params as [|tokenName [|symbol [|owner [|amount [|? ?]]]]];
    try (cbn [length Nat.eqb negb]; eexists _, _; split; [reflexivity|]; cbn; tauto).
  index_params. cbn [Marshal_ERC20Metadata].
  repeat match goal with
         | |- context [match ?x with _ => _ end] => destruct x
         end;
    eexists _, _; (split; [reflexivity|]); cbn; tauto.
Qed.

(** *** Invoke *)

(** The cases of the [switch] of [Invoke]. *)
Lemma Invoke_cases stub :
  let fcn := fst (GetFunctionAndParameters stub) in
  let params := snd (GetFunctionAndParameters stub) in
  (fcn = "totalSupply" ∧ Invoke stub = totalSupply stub params)
  ∨ (fcn = "balanceOf" ∧ Invoke stub = balanceOf stub params)
  ∨ (fcn = "transfer" ∧ Invoke stub = transfer stub params)
  ∨ (fcn = "allowance" ∧ Invoke stub = allowance stub params)
  ∨ (fcn = "approve" ∧ Invoke stub = approve stub params)
  ∨ (fcn ∈ ["transferFrom"; "increaseAllowance"; "decreaseAllowance"; "mint"; "burn"]
     ∧ Invoke stub = (stub, Returned (Success None)))
  ∨ ((fcn ∉ operations) ∧ Invoke stub = (stub, Returned NotFound)).
Proof.
  unfold Invoke. destruct (GetFunctionAndParameters stub) as [fcn params]. cbn [fst snd].
  destruct (String.eqb_spec fcn "totalSupply") as [->|H1]; [tauto|].
  destruct (String.eqb_spec fcn "balanceOf") as [->|H2]; [tauto|].
  destruct (String.eqb_spec fcn "transfer") as [->|H3]; [tauto|].
  destruct (String.eqb_spec fcn "allowance") as [->|H4]; [tauto|].
  destruct (String.eqb_spec fcn "approve") as [->|H5]; [tauto|].
  destruct (String.eqb_spec fcn "transferFrom") as [->|H6].
  { do 5 right. left. split; [|done]. apply elem_of_cons. by left. }
  destruct (String.eqb_spec fcn "increaseAllowance") as [->|H7].
  { do 5 right. left. split; [|done]. do 1 (apply elem_of_cons; right).
    apply elem_of_cons. by left. }
  destruct (String.eqb_spec fcn "decreaseAllowance") as [->|H8].
  { do 5 right. left. split; [|done]. do 2 (apply elem_of_cons; right).
    apply elem_of_cons. by left. }
  destruct (String.eqb_spec fcn "mint") as [->|H9].
  { do 5 right. left. split; [|done]. do 3 (apply elem_of_cons; right).
    apply elem_of_cons. by left. }
  destruct (String.eqb_spec fcn "burn") as [->|H10].
  { do 5 right. left. split; [|done]. do 4 (apply elem_of_cons; right).
    apply elem_of_cons. by left. }
  do 6 right. split; [|done]. unfold operations. intros Hin.
  repeat (apply elem_of_cons in Hin as [Hin|Hin]; [congruence|]).
  by apply elem_of_nil in Hin.
Qed.

Lemma NotFound_no_shim_status : ¬ shim_status NotFound.
Proof. unfold shim_status. cbn. intros [H|H]; discriminate. Qed.

Lemma known_operation fcn :
  fcn ∈ ["totalSupply"; "balanceOf"; "transfer"; "allowance"; "approve"] → fcn ∈ operations.
Proof.
  intros H. unfold operations.
  repeat (apply elem_of_cons in H as [->|H];
          [apply (bool_decide_unpack _); by vm_compute|]).
  by apply elem_of_nil in H.
Qed.

Lemma placeholder_operation fcn :
  fcn ∈ ["transferFrom"; "increaseAllowance"; "decreaseAllowance"; "mint"; "burn"] →
  fcn ∈ operations.
Proof.
  intros H. unfold operations.
  repeat (apply elem_of_cons in H as [->|H];
          [apply (bool_decide_unpack _); by vm_compute|]).
  by apply elem_of_nil in H.
Qed.

Ltac known_name := first [apply known_operation | apply placeholder_operation];
  apply (bool_decide_unpack _); by vm_compute.

(** X1: the response 404 tells an unknown operation from a failed one.  When
    [Invoke] returns, the status of its response is 404 exactly when the
    function name is none of the ten names of the [switch]; the response is
    then the fixed "404 Not Found" and the stub is handed back as it was. *)
Theorem X1_not_found_iff_unknown :
  ∀ (stub : ChaincodeStub) (r : Response),
    snd (Invoke stub) = Returned r →
    (Status r = 404 ↔ fst (GetFunctionAndParameters stub) ∉ operations)
    ∧ (Status r = 404 → r = NotFound ∧ fst (Invoke stub) = stub).
Proof.
  intros stub r Hr.
  assert (∀ fcn, fcn ∈ operations → shim_status r →
          (Status r = 404 ↔ fcn ∉ operations) ∧ (Status r = 404 → r = NotFound ∧ fst (Invoke stub) = stub))
    as Hknown.
  { intros fcn Hin [Hs|Hs]; rewrite Hs; (split; [split; [discriminate|done]|discriminate]). }
  destruct (Invoke_cases stub) as [[Hf Hi]|[[Hf Hi]|[[Hf Hi]|[[Hf Hi]|[[Hf Hi]|[[Hf Hi]|[Hf Hi]]]]]]];
    rewrite Hi in Hr.
  - rewrite Hf. destruct (totalSupply_answers stub (snd (GetFunctionAndParameters stub)))
      as (r' & Heq & Hst). rewrite Heq in Hr. injection Hr as <-.
    apply Hknown; [known_name|done].
  - rewrite Hf. destruct (balanceOf_answers stub (snd (GetFunctionAndParameters stub)))
      as (r' & Heq & Hst). rewrite Heq in Hr. injection Hr as <-.
    apply Hknown; [known_name|done].
  - rewrite Hf. destruct (transfer_answers stub (snd (GetFunctionAndParameters stub)))
      as (stub' & r' & Heq & Hst). rewrite Heq in Hr. injection Hr as <-.
    apply Hknown; [known_name|done].
  - rewrite Hf. destruct (allowance_answers stub (snd (GetFunctionAndParameters stub)))
      as [Heq|(stub' & Heq)]; rewrite Heq in Hr; [done|]. injection Hr as <-.
    apply Hknown; [known_name|by left].
  - rewrite Hf. destruct (approve_answers stub (snd (GetFunctionAndParameters stub)))
      as [Heq|(r' & Heq & Hst)]; rewrite Heq in Hr; [done|]. injection Hr as <-.
    apply Hknown; [known_name|done].
  - injection Hr as <-. apply Hknown; [by apply placeholder_operation|by left].
  - injection Hr as <-. rewrite Hi. cbn [fst]. split; [done|]. done.
Qed.

Lemma X1_witness :
  (Status NotFound = 404
   ↔ fst (GetFunctionAndParameters (stub_of reliable ∅ ["freeze"; "alice"])) ∉ operations)
  ∧ (Status NotFound = 404 →
     NotFound = NotFound
     ∧ fst (Invoke (stub_of reliable ∅ ["freeze"; "alice"]))
       = stub_of reliable ∅ ["freeze"; "alice"]).
Proof.
  apply (X1_not_found_iff_unknown (stub_of reliable ∅ ["freeze"; "alice"]) NotFound).
  reflexivity.
Defined.

(** X2: only [transfer] and [allowance] write.  For every other function
    name, known or not, [Invoke] hands the stub back as it was, whatever its
    parameters and whatever it answers: the world state and the event are
    untouched. *)
Theorem X2_only_transfer_and_allowance_write :
  ∀ (stub : ChaincodeStub),
    fst (GetFunctionAndParameters stub) ∉ ["transfer"; "allowance"] →
    fst (Invoke stub) = stub.
Proof.
  intros stub Hn.
  destruct (Invoke_cases stub) as [[Hf Hi]|[[Hf Hi]|[[Hf Hi]|[[Hf Hi]|[[Hf Hi]|[[Hf Hi]|[Hf Hi]]]]]]];
    rewrite Hi.
  - by destruct (totalSupply_answers stub (snd (GetFunctionAndParameters stub)))
      as (r' & -> & _).
  - by destruct (balanceOf_answers stub (snd (GetFunctionAndParameters stub)))
      as (r' & -> & _).
  - exfalso. apply Hn. rewrite Hf. apply (bool_decide_unpack _). by vm_compute.
  - exfalso. apply Hn. rewrite Hf. apply (bool_decide_unpack _). by vm_compute.
  - by destruct (approve_answers stub (snd (GetFunctionAndParameters stub)))
      as [->|(r' & -> & _)].
  - done.
  - done.
Qed.

Lemma X2_witness :
  fst (Invoke (next_call alice_1000 ["approve"; "alice"]))
  = next_call alice_1000 ["approve"; "alice"].
Proof.
  apply (X2_only_transfer_and_allowance_write (next_call alice_1000 ["approve"; "alice"])).
  apply (bool_decide_unpack _). by vm_compute.
Defined.

(** X3: only the allowance registry panics.  For every function name other
    than "allowance" and "approve", [Invoke] returns a response, whatever
    the number and the content of the parameters and whatever the host
    does. *)
Theorem X3_only_the_registry_panics :
  ∀ (stub : ChaincodeStub),
    fst (GetFunctionAndParameters stub) ∉ ["allowance"; "approve"] →
    ∃ stub' r, Invoke stub = (stub', Returned r).
Proof.
  intros stub Hn.
  destruct (Invoke_cases stub) as [[Hf Hi]|[[Hf Hi]|[[Hf Hi]|[[Hf Hi]|[[Hf Hi]|[[Hf Hi]|[Hf Hi]]]]]]];
    rewrite Hi.
  - destruct (totalSupply_answers stub (snd (GetFunctionAndParameters stub)))
      as (r' & -> & _). by eexists _, _.
  - destruct (balanceOf_answers stub (snd (GetFunctionAndParameters stub)))
      as (r' & -> & _). by eexists _, _.
  - destruct (transfer_answers stub (snd (GetFunctionAndParameters stub)))
      as (stub' & r' & -> & _). by eexists _, _.
  - exfalso. apply Hn. rewrite Hf. apply (bool_decide_unpack _). by vm_compute.
  - exfalso. apply Hn. rewrite Hf. apply (bool_decide_unpack _). by vm_compute.
  - by eexists _, _.
  - by eexists _, _.
Qed.

Lemma X3_witness :
  ∃ stub' r, Invoke (next_call alice_1000 ["transfer"; "alice"]) = (stub', Returned r).
Proof.
  apply (X3_only_the_registry_panics (next_call alice_1000 ["transfer"; "alice"])).
  apply (bool_decide_unpack _). by vm_compute.
Defined.

(** *** Init *)

Lemma valid_init_four tokenName symbol owner amount :
  valid_init [tokenName; symbol; owner; amount]
  ↔ (∃ amountUint, strconv.ParseUint amount = Ok amountUint)
    ∧ tokenName ≠ "" ∧ symbol ≠ "" ∧ owner ≠ "".
Proof.
  unfold valid_init. split.
  - intros (t & s & o & a & n & [= -> -> -> ->] & Hp & ? & ? & ?). eauto.
  - intros ((n & Hp) & ? & ? & ?). by exists tokenName, symbol, owner, amount, n.
Qed.

Lemma length_zero_iff (s : string) : Nat.eqb (String.length s) 0 = true ↔ s = "".
Proof. by destruct s. Qed.

(** X4: [Init] accepts exactly the valid parameter lists, and a refused
    [Init] writes nothing.  On a host whose writes succeed, [Init] answers
    with success when it has four parameters, an amount that [ParseUint]
    reads and three names that are not empty; for every other parameter
    list it answers with an error and hands the stub back as it was.  It
    never panics. *)
Theorem X4_Init_accepts_exactly_valid_input :
  ∀ (stub : ChaincodeStub),
    writes_ok stub →
    (valid_init (snd (GetFunctionAndParameters stub)) →
     ∃ stub', Init stub = (stub', Returned (Success None)))
    ∧ (¬ valid_init (snd (GetFunctionAndParameters stub)) →
       ∃ msg, Init stub = (stub, Returned (Error (Text msg)))).
Proof.
  intros stub Hw. unfold Init.
  destruct (GetFunctionAndParameters stub) as [fcn params]. cbn [snd].
  destruct params as [|tokenName [|symbol [|owner [|amount [|? ?]]]]];
    try (cbn [length Nat.eqb negb];
         split; [intros (? & ? & ? & ? & ? & [=] & _)|intros _; by eexists]).
  rewrite valid_init_four. index_params.
  destruct (strconv.ParseUint amount) as [amountUint|e].
  2:{ split; [intros [[n [=]] _]|intros _; by eexists]. }
  destruct (Nat.eqb (String.length tokenName) 0) eqn:Ht.
  { apply length_zero_iff in Ht as ->. split; [intros (_ & ? & _); done|intros _; by eexists]. }
  destruct (Nat.eqb (String.length symbol) 0) eqn:Hs.
  { apply length_zero_iff in Hs as ->. split; [intros (_ & _ & ? & _); done|intros _; by eexists]. }
  destruct (Nat.eqb (String.length owner) 0) eqn:Ho.
  { apply length_zero_iff in Ho as ->. split; [intros (_ & _ & _ & ?); done|intros _; by eexists]. }
  cbn [orb Marshal_ERC20Metadata].
  rewrite (PutState_ok _ _ _ Hw), (PutState_ok _ _ _ (writes_ok_with_State _ _ Hw)).
  split; [intros _; by eexists|].
  intros Hn. exfalso. apply Hn. split; [by eexists|].
  repeat split; intros ->; cbn in *; discriminate.
Qed.

Lemma X4_witness :
  (valid_init (snd (GetFunctionAndParameters (stub_of reliable ∅ ["init"; "TOK"; "T"; "alice"; "-5"]))) →
   ∃ stub', Init (stub_of reliable ∅ ["init"; "TOK"; "T"; "alice"; "-5"])
            = (stub', Returned (Success None)))
  ∧ (¬ valid_init (snd (GetFunctionAndParameters (stub_of reliable ∅ ["init"; "TOK"; "T"; "alice"; "-5"]))) →
     ∃ msg, Init (stub_of reliable ∅ ["init"; "TOK"; "T"; "alice"; "-5"])
            = (stub_of reliable ∅ ["init"; "TOK"; "T"; "alice"; "-5"],
               Returned (Error (Text msg)))).
Proof.
  apply (X4_Init_accepts_exactly_valid_input (stub_of reliable ∅ ["init"; "TOK"; "T"; "alice"; "-5"])).
  intros key value. reflexivity.
Defined.

Lemma Init_success_args stub stub' :
  Init stub = (stub', Returned (Success None)) →
  ∃ fcn tokenName symbol owner amount, args stub = [fcn; tokenName; symbol; owner; amount].
Proof.
  unfold Init, GetFunctionAndParameters.
  destruct (args stub) as [|fcn [|tokenName [|symbol [|owner [|amount [|? ?]]]]]];
    try by (cbn [length Nat.eqb negb]; intros [=]).
  intros _. by eexists _, _, _, _, _.
Qed.

(** X5: what a successful [Init] leaves behind.  It had four parameters; the
    bytes of the amount, as they were given, are stored under the owner; no
    key other than the token name and the owner has changed and no event is
    set; and a later [balanceOf] of the owner whose read succeeds answers
    with those bytes. *)
Theorem X5_Init_sets_owner_balance :
  ∀ (stub stub' : ChaincodeStub),
    Init stub = (stub', Returned (Success None)) →
    ∃ fcn tokenName symbol owner amount,
      args stub = [fcn; tokenName; symbol; owner; amount]
      ∧ State stub' !! owner = Some amount
      ∧ (∀ key, key ≠ tokenName → key ≠ owner → State stub' !! key = State stub !! key)
      ∧ Event stub' = Event stub
      ∧ ∀ later, State later = State stub' → reads_ok later owner →
          balanceOf later [owner] = (later, Returned (Success (Some amount))).
Proof.
  intros stub stub' Hi.
  destruct (Init_success_args _ _ Hi) as (fcn & tokenName & symbol & owner & amount & Ha).
  destruct (Init_success _ _ _ _ _ _ _ Ha Hi) as (n & bytes & _ & _ & ->).
  exists fcn, tokenName, symbol, owner, amount. cbn [State Event with_State].
  split; [done|]. split; [by rewrite lookup_insert_eq|].
  split; [intros key Ht Ho; by rewrite !lookup_insert_ne|]. split; [done|].
  intros later Hst Hr. unfold balanceOf. index_params.
  by rewrite (GetState_ok _ _ Hr), Hst, lookup_insert_eq.
Qed.

Lemma X5_witness :
  ∃ fcn tokenName symbol owner amount,
    args (stub_of reliable ∅ ["init"; "TOK"; "T"; "alice"; "007"])
    = [fcn; tokenName; symbol; owner; amount]
    ∧ State (fst (Init (stub_of reliable ∅ ["init"; "TOK"; "T"; "alice"; "007"]))) !! owner
      = Some amount
    ∧ (∀ key, key ≠ tokenName → key ≠ owner →
         State (fst (Init (stub_of reliable ∅ ["init"; "TOK"; "T"; "alice"; "007"]))) !! key
         = State (stub_of reliable ∅ ["init"; "TOK"; "T"; "alice"; "007"]) !! key)
    ∧ Event (fst (Init (stub_of reliable ∅ ["init"; "TOK"; "T"; "alice"; "007"])))
      = Event (stub_of reliable ∅ ["init"; "TOK"; "T"; "alice"; "007"])
    ∧ ∀ later,
        State later = State (fst (Init (stub_of reliable ∅ ["init"; "TOK"; "T"; "alice"; "007"]))) →
        reads_ok later owner →
        balanceOf later [owner] = (later, Returned (Success (Some amount))).
Proof.
  apply (X5_Init_sets_owner_balance (stub_of reliable ∅ ["init"; "TOK"; "T"; "alice"; "007"])
           (fst (Init (stub_of reliable ∅ ["init"; "TOK"; "T"; "alice"; "007"])))).
  reflexivity.
Defined.

(** *** totalSupply *)

(** X6: [totalSupply] of a token that was never initialised.  When nothing
    is stored under the token name and the read succeeds, the empty bytes
    are handed to [json.Unmarshal], which refuses them as a document, and
    the answer is the error "failed to Unmarshal"; the stub is handed back
    as it was. *)
Theorem X6_totalSupply_of_missing_token :
  ∀ (stub : ChaincodeStub) (tokenName : string),
    reads_ok stub tokenName →
    State stub !! tokenName = None →
    totalSupply stub [tokenName]
    = (stub, Returned (Error (TextErr "failed to Unmarshal, error: " SyntaxError))).
Proof.
  intros stub tokenName Hr Hn. unfold totalSupply. index_params.
  by rewrite (GetState_ok _ _ Hr), Hn.
Qed.

Lemma X6_witness :
  totalSupply alice_10 ["TOK"]
  = (alice_10, Returned (Error (TextErr "failed to Unmarshal, error: " SyntaxError))).
Proof.
  apply (X6_totalSupply_of_missing_token alice_10 "TOK").
  - reflexivity.
  - reflexivity.
Defined.

(** *** transfer *)

(** X7: an amount that is no positive integer is refused before anything is
    read.  When [Atoi] refuses the amount, or reads it as zero or less, the
    transfer is answered with the matching error, whatever the state holds
    and whatever the host does, and the stub is handed back as it was. *)
Theorem X7_transfer_refuses_bad_amount :
  ∀ (stub : ChaincodeStub) (caller recipient amount : string),
    (∀ n, strconv.Atoi amount = Ok n → n ≤ 0) →
    transfer stub [caller; recipient; amount]
    = (stub,
       Returned (Error (Text (match strconv.Atoi amount with
                              | Ok _ => "transfer amount must be positive"
                              | Err _ => "transfer amount must be integer"
                              end)))).
Proof.
  intros stub caller recipient amount Hbad. unfold transfer. index_params.
  destruct (strconv.Atoi amount) as [n|e]; [|done].
  specialize (Hbad n eq_refl). by destruct (Z.leb_spec n 0); [|lia].
Qed.

Lemma X7_witness :
  transfer alice_10 ["alice"; "bob"; "-3"]
  = (alice_10,
     Returned (Error (Text (match strconv.Atoi "-3" with
                            | Ok _ => "transfer amount must be positive"
                            | Err _ => "transfer amount must be integer"
                            end)))).
Proof.
  apply (X7_transfer_refuses_bad_amount alice_10 "alice" "bob" "-3").
  intros n Hn. vm_compute in Hn. injection Hn as <-. lia.
Defined.

(** The transfers of a positive amount from a caller who holds at least
    that much to another address whose balance stays an [int]. *)
Section funded_transfer.

Context (stub : ChaincodeStub) (caller recipient amount callerAmount : string) (c r n : Z).
Hypothesis Hreads : reads_ok stub caller ∧ reads_ok stub recipient.
Hypothesis Hcaller : State stub !! caller = Some callerAmount ∧ strconv.Atoi callerAmount = Ok c.
Hypothesis Hrecipient : balance (State stub) recipient = Some r.
Hypothesis Hamount : strconv.Atoi amount = Ok n ∧ 0 < n ≤ c.
Hypothesis Hroom : r + n ≤ maxInt.

(** Up to the first write. *)
Lemma funded_transfer_unfold :
  transfer stub [caller; recipient; amount] =
    match PutState stub caller (strconv.Itoa (c - n)) with
    | (stub1, Some e) =>
        returns stub1 (Error (TextErr "failed to PutState of caller, error: " e))
    | (stub1, None) =>
    match PutState stub1 recipient (strconv.Itoa (r + n)) with
    | (stub2, Some e) =>
        returns stub2 (Error (TextErr "failed to PutState of caller, error: " e))
    | (stub2, None) =>
    match SetEvent stub2 "transferEvent"
            (json.object
               [json.field "sender" (json.quote caller);
                json.field "recipient" (json.quote recipient);
                json.field "amount" (json.Marshal_int n)]) with
    | (stub3, Some e) =>
        returns stub3 (Error (TextErr "failed to SetEvent of TransferEvent, error: " e))
    | (stub3, None) => returns stub3 (Success (Some "transfer Success"))
    end end end.
Proof.
  destruct Hreads as [Hrc Hrr]. destruct Hcaller as [Hc Hci]. destruct Hamount as [Hn Hpos].
  rewrite (transfer_unfold _ _ _ _ n Hn) by lia.
  rewrite (GetState_ok _ _ Hrc), Hc. cbn [from_option id]. rewrite Hci.
  rewrite (GetState_ok _ _ Hrr). rewrite (proj1 (balance_default _ _ _) Hrecipient).
  pose proof (Atoi_range _ _ Hn). pose proof (Atoi_range _ _ Hci).
  pose proof (Atoi_range _ _ (proj1 (balance_default _ _ _) Hrecipient)).
  rewrite int_sub_exact, int_add_exact by (unfold minInt, maxInt, intSize in *; lia).
  by destruct (Z.ltb_spec (c - n) 0); [lia|].
Qed.

End funded_transfer.

(** X8: a funded transfer between two different addresses moves the amount.
    When the calls of the stub succeed, the caller's stored balance [c] is an
    integer not below the positive amount [n], the recipient's balance [r]
    (0 when nothing is stored) is an integer with [r + n] still an [int], the
    transfer answers with success; afterwards the caller holds [c - n] and
    the recipient [r + n], every other key is what it was, and the event
    "transferEvent" carries the sender, the recipient and the amount. *)
Theorem X8_transfer_moves_tokens :
  ∀ (stub : ChaincodeStub) (caller recipient amount callerAmount : string) (c r n : Z),
    reads_ok stub caller ∧ reads_ok stub recipient →
    State stub !! caller = Some callerAmount ∧ strconv.Atoi callerAmount = Ok c →
    balance (State stub) recipient = Some r →
    strconv.Atoi amount = Ok n ∧ 0 < n ≤ c →
    r + n ≤ maxInt →
    writes_ok stub → events_ok stub → caller ≠ recipient →
    ∃ stub',
      transfer stub [caller; recipient; amount]
      = (stub', Returned (Success (Some "transfer Success")))
      ∧ balance (State stub') caller = Some (c - n)
      ∧ balance (State stub') recipient = Some (r + n)
      ∧ (∀ key, key ≠ caller → key ≠ recipient → State stub' !! key = State stub !! key)
      ∧ Event stub'
        = Some ("transferEvent",
                json.object [json.field "sender" (json.quote caller);
                             json.field "recipient" (json.quote recipient);
                             json.field "amount" (strconv.Itoa n)]).
Proof.
  intros stub caller recipient amount callerAmount c r n Hreads Hcaller Hrecipient Hamount
    Hroom Hw He Hne.
  rewrite (funded_transfer_unfold _ _ _ _ _ _ _ _ Hreads Hcaller Hrecipient Hamount Hroom).
  rewrite (PutState_ok _ _ _ Hw), (PutState_ok _ _ _ (writes_ok_with_State _ _ Hw)).
  rewrite SetEvent_ok by done.
  eexists. split; [reflexivity|]. cbn [State Event with_State with_Event].
  pose proof (Atoi_range _ _ (proj1 Hamount)). pose proof (Atoi_range _ _ (proj2 Hcaller)).
  pose proof (Atoi_range _ _ (proj1 (balance_default _ _ _) Hrecipient)).
  split.
  { rewrite balance_insert_ne by done. apply balance_insert_eq.
    unfold minInt, maxInt, intSize in *. lia. }
  split.
  { apply balance_insert_eq. unfold minInt, maxInt, intSize in *. lia. }
  split; [|done].
  intros key Hc Hr. by rewrite !lookup_insert_ne.
Qed.

Lemma X8_witness :
  ∃ stub',
    transfer alice_1000 ["alice"; "bob"; "300"]
    = (stub', Returned (Success (Some "transfer Success")))
    ∧ balance (State stub') "alice" = Some (1000 - 300)
    ∧ balance (State stub') "bob" = Some (0 + 300)
    ∧ (∀ key, key ≠ "alice" → key ≠ "bob" → State stub' !! key = State alice_1000 !! key)
    ∧ Event stub'
      = Some ("transferEvent",
              json.object [json.field "sender" (json.quote "alice");
                           json.field "recipient" (json.quote "bob");
                           json.field "amount" (strconv.Itoa 300)]).
Proof.
  apply (X8_transfer_moves_tokens alice_1000 "alice" "bob" "300" "1000" 1000 0 300).
  - split; reflexivity.
  - split; reflexivity.
  - reflexivity.
  - split; [reflexivity|lia].
  - unfold maxInt, intSize. lia.
  - intros key value. reflexivity.
  - intros name payload. reflexivity.
  - discriminate.
Defined.

(** X9: a failure after the first write is reported and not rolled back.
    For a funded transfer whose first write succeeds: when the write of the
    recipient's balance fails, the answer is the error "failed to PutState
    of caller" and the stub holds the caller's new balance and the
    recipient's old one; when both writes succeed and the event cannot be
    set, the answer is the error "failed to SetEvent of TransferEvent", the
    stub holds both new balances and no event is set. *)
Theorem X9_late_failures_are_not_rolled_back :
  ∀ (stub : ChaincodeStub) (caller recipient amount callerAmount : string) (c r n : Z)
    (e : error),
    reads_ok stub caller ∧ reads_ok stub recipient →
    State stub !! caller = Some callerAmount ∧ strconv.Atoi callerAmount = Ok c →
    balance (State stub) recipient = Some r →
    strconv.Atoi amount = Ok n ∧ 0 < n ≤ c →
    r + n ≤ maxInt →
    putFault (host stub) caller (strconv.Itoa (c - n)) = None →
    (putFault (host stub) recipient (strconv.Itoa (r + n)) = Some e →
     transfer stub [caller; recipient; amount]
     = (with_State stub (<[caller := strconv.Itoa (c - n)]> (State stub)),
        Returned (Error (TextErr "failed to PutState of caller, error: " e))))
    ∧ (putFault (host stub) recipient (strconv.Itoa (r + n)) = None →
       (∀ payload, eventFault (host stub) "transferEvent" payload = Some e) →
       transfer stub [caller; recipient; amount]
       = (with_State stub
            (<[recipient := strconv.Itoa (r + n)]>
               (<[caller := strconv.Itoa (c - n)]> (State stub))),
          Returned (Error (TextErr "failed to SetEvent of TransferEvent, error: " e)))).
Proof.
  intros stub caller recipient amount callerAmount c r n e Hreads Hcaller Hrecipient Hamount
    Hroom Hput.
  rewrite (funded_transfer_unfold _ _ _ _ _ _ _ _ Hreads Hcaller Hrecipient Hamount Hroom).
  split.
  - intros Hfail. unfold PutState. rewrite Hput. cbn [host with_State]. by rewrite Hfail.
  - intros Hok Hev. unfold PutState, SetEvent. rewrite Hput. cbn [host with_State].
    rewrite Hok. cbn [host with_State]. by rewrite Hev.
Qed.

Lemma X9_witness :
  (putFault (host alice_10_no_events) "bob" (strconv.Itoa (0 + 4))
   = Some (HostError "no event can be set") →
   transfer alice_10_no_events ["alice"; "bob"; "4"]
   = (with_State alice_10_no_events
        (<[ "alice" := strconv.Itoa (10 - 4) ]> (State alice_10_no_events)),
      Returned (Error (TextErr "failed to PutState of caller, error: "
                         (HostError "no event can be set")))))
  ∧ (putFault (host alice_10_no_events) "bob" (strconv.Itoa (0 + 4)) = None →
     (∀ payload, eventFault (host alice_10_no_events) "transferEvent" payload
                 = Some (HostError "no event can be set")) →
     transfer alice_10_no_events ["alice"; "bob"; "4"]
     = (with_State alice_10_no_events
          (<[ "bob" := strconv.Itoa (0 + 4) ]>
             (<[ "alice" := strconv.Itoa (10 - 4) ]> (State alice_10_no_events))),
        Returned (Error (TextErr "failed to SetEvent of TransferEvent, error: "
                           (HostError "no event can be set"))))).
Proof.
  apply (X9_late_failures_are_not_rolled_back alice_10_no_events
           "alice" "bob" "4" "10" 10 0 4 (HostError "no event can be set")).
  - split; reflexivity.
  - split; reflexivity.
  - reflexivity.
  - split; [reflexivity|lia].
  - unfold maxInt, intSize. lia.
  - reflexivity.
Defined.

(** X10: a transfer touches two keys at most.  Whatever the parameters, the
    state and the host, and whatever the call ends in, every key other than
    the first two parameters holds after the call what it held before, and
    the arguments and the host of the stub are the same. *)
Theorem X10_transfer_touches_two_keys :
  ∀ (stub stub' : ChaincodeStub) (params : list string) (o : outcome) (key : string),
    transfer stub params = (stub', o) →
    params !! 0%nat ≠ Some key → params !! 1%nat ≠ Some key →
    State stub' !! key = State stub !! key
    ∧ args stub' = args stub ∧ host stub' = host stub.
Proof.
  intros stub stub' params o key Ht Hc Hr.
  destruct params as [|callerAddress [|recipientAddress [|transferAmount [|? ?]]]];
    try (unfold transfer in Ht; cbn [length Nat.eqb negb] in Ht; by injection Ht as <- <-).
  assert (callerAddress ≠ key) as Hck by (intros ->; by apply Hc).
  assert (recipientAddress ≠ key) as Hrk by (intros ->; by apply Hr).
  unfold transfer, PutState, SetEvent in Ht. index_params in Ht.
  repeat match type of Ht with
         | context [match putFault ?h ?k ?v with _ => _ end] =>
             destruct (putFault h k v); cbv beta iota in Ht
         | context [match eventFault ?h ?k ?v with _ => _ end] =>
             destruct (eventFault h k v); cbv beta iota in Ht
         | context [match ?x with _ => _ end] => destruct x
         end;
    injection Ht as <- <-; cbn [State args host with_State with_Event];
    rewrite ?lookup_insert_ne by done; done.
Qed.

Lemma X10_witness :
  State (fst (transfer alice_1000 ["alice"; "bob"; "300"])) !! "TOK" = State alice_1000 !! "TOK"
  ∧ args (fst (transfer alice_1000 ["alice"; "bob"; "300"])) = args alice_1000
  ∧ host (fst (transfer alice_1000 ["alice"; "bob"; "300"])) = host alice_1000.
Proof.
  apply (X10_transfer_touches_two_keys alice_1000
           (fst (transfer alice_1000 ["alice"; "bob"; "300"]))
           ["alice"; "bob"; "300"]
           (snd (transfer alice_1000 ["alice"; "bob"; "300"])) "TOK").
  - reflexivity.
  - discriminate.
  - discriminate.
Defined.

(** X11: a successful transfer never leaves the caller in debt.  After a
    transfer between two different addresses that answered with success,
    the bytes stored under the caller are the decimal form of an integer
    between 0 and the largest [int], whatever the balances were before. *)
Theorem X11_caller_balance_is_not_negative :
  ∀ (stub stub' : ChaincodeStub) (caller recipient amount : string) (r : Response),
    transfer stub [caller; recipient; amount] = (stub', Returned r) →
    Status r = OK → caller ≠ recipient →
    ∃ z, 0 ≤ z ≤ maxInt
         ∧ State stub' !! caller = Some (strconv.Itoa z)
         ∧ balance (State stub') caller = Some z.
Proof.
  intros stub stub' caller recipient amount r Ht Hs Hne.
  destruct (transfer_success _ _ _ _ Ht Hs)
    as (ca & ra & ta & n & callerAmount & c & rv & [= <- <- <-] & _ & _ & _ & _ & _ & Hge
        & Hst & _).
  exists (int_sub c n). pose proof (wrap_int_range (c - n)) as Hrange.
  fold (int_sub c n) in Hrange. rewrite Hst.
  split; [lia|]. split.
  - by rewrite lookup_insert_ne, lookup_insert_eq.
  - rewrite balance_insert_ne by done. by apply balance_insert_eq.
Qed.

Lemma X11_witness :
  ∃ z, 0 ≤ z ≤ maxInt
       ∧ State (fst (transfer alice_1000 ["alice"; "bob"; "300"])) !! "alice"
         = Some (strconv.Itoa z)
       ∧ balance (State (fst (transfer alice_1000 ["alice"; "bob"; "300"]))) "alice" = Some z.
Proof.
  apply (X11_caller_balance_is_not_negative alice_1000
           (fst (transfer alice_1000 ["alice"; "bob"; "300"])) "alice" "bob" "300"
           (Success (Some "transfer Success"))).
  - reflexivity.
  - reflexivity.
  - discriminate.
Defined.

(** X12: a transfer is all or nothing when the host does not fail late.  On
    a host whose writes and events succeed, every call of [transfer] returns
    a response; when it is an error, the stub is handed back as it was, and
    when it is a success, it is the payload "transfer Success" and the event
    is set. *)
Theorem X12_transfer_is_all_or_nothing :
  ∀ (stub : ChaincodeStub) (params : list string),
    writes_ok stub → events_ok stub →
    ∃ stub' r,
      transfer stub params = (stub', Returned r)
      ∧ ((Status r = ERROR ∧ stub' = stub)
         ∨ (r = Success (Some "transfer Success")
            ∧ ∃ payload, Event stub' = Some ("transferEvent", payload))).
Proof.
  intros stub params Hw He.
  destruct (transfer_answers stub params) as (stub' & r & Ht & [Hok|Herr]).
  - exists stub', r. split; [done|]. right.
    destruct (transfer_success _ _ _ _ Ht Hok)
      as (ca & ra & ta & n & callerAmount & c & rv & -> & Hn & Hpos & Hc & Hci & Hr & Hge
          & Hst & ->).
    split; [done|].
    rewrite (transfer_unfold _ _ _ _ n Hn Hpos) in Ht.
    unfold GetState in Ht.
    destruct (getFault (host stub) ca); [by injection Ht|]. rewrite Hc in Ht.
    cbn [from_option id] in Ht. rewrite Hci in Ht.
    destruct (getFault (host stub) ra); [by injection Ht|]. rewrite Hr in Ht.
    destruct (Z.ltb_spec (int_sub c n) 0); [lia|].
    rewrite (PutState_ok _ _ _ Hw) in Ht.
    rewrite (PutState_ok _ _ _ (writes_ok_with_State _ _ Hw)) in Ht.
    rewrite SetEvent_ok in Ht by done.
    injection Ht as <-. by eexists.
  - exists stub', r. split; [done|]. left. split; [done|].
    by apply (transfer_error_writes_nothing stub params stub' r).
Qed.

Lemma X12_witness :
  ∃ stub' r,
    transfer alice_10 ["alice"; "bob"; "11"] = (stub', Returned r)
    ∧ ((Status r = ERROR ∧ stub' = alice_10)
       ∨ (r = Success (Some "transfer Success")
          ∧ ∃ payload, Event stub' = Some ("transferEvent", payload))).
Proof.
  apply (X12_transfer_is_all_or_nothing alice_10 ["alice"; "bob"; "11"]).
  - intros key value. reflexivity.
  - intros name payload. reflexivity.
Defined.

(** *** The allowance registry, for every granter and grantee *)

Lemma ascii_compare_code a b : Ascii.compare a b = (code a ?= code b).
Proof. unfold Ascii.compare, code. by rewrite N2Z.inj_compare. Qed.

Lemma code_inj a b : code a = code b → a = b.
Proof.
  unfold code. intros H%N2Z.inj.
  by rewrite <- (ascii_N_embedding a), <- (ascii_N_embedding b), H.
Qed.

Lemma prefix_leb (p k : string) : String.prefix p k = true → String.leb p k = true.
Proof.
  revert k. induction p as [|a p IH]; intros k; [by destruct k|].
  destruct k as [|b k]; [done|]. intros [-> Hp]%prefix_cons.
  specialize (IH _ Hp). unfold String.leb in *. cbn [String.compare].
  by rewrite ascii_compare_code, Z.compare_refl.
Qed.

Lemma ltb_app (p a b : string) : String.ltb (p +:+ a) (p +:+ b) = String.ltb a b.
Proof.
  induction p as [|c p IH]; [done|]. rewrite !append_cons.
  unfold String.ltb in *. cbn [String.compare].
  by rewrite ascii_compare_code, Z.compare_refl.
Qed.

Lemma leb_trans (a b c : string) :
  String.leb a b = true → String.leb b c = true → String.leb a c = true.
Proof.
  revert b c. induction a as [|x a IH]; intros b c; [by destruct c|].
  destruct b as [|y b]; [done|]. destruct c as [|z c]; [done|].
  specialize (IH b c). unfold String.leb in *. cbn [String.compare].
  rewrite !ascii_compare_code.
  destruct (Z.compare_spec (code x) (code y)) as [Hxy|Hxy|Hxy]; [|intros _|done].
  - rewrite Hxy. destruct (Z.compare_spec (code y) (code z)); [done..| ]. by intros _ ?.
  - destruct (Z.compare_spec (code y) (code z)) as [Hyz|Hyz|Hyz]; [| |done].
    + rewrite <- Hyz. by rewrite (proj2 (Z.compare_lt_iff _ _) Hxy).
    + intros _. by rewrite (proj2 (Z.compare_lt_iff (code x) (code z)) ltac:(lia)).
Qed.

(** The components of a key, one delimited piece at a time. *)
Lemma components_app s rest current :
  nul_free s = true →
  components (s +:+ String NUL rest) current = (current +:+ s) :: components rest "".
Proof.
  revert current. induction s as [|c s IH]; intros current Hs.
  - rewrite append_nil_l, append_nil_r. cbn [components].
    by rewrite bool_decide_eq_true_2.
  - cbn [nul_free] in Hs. apply andb_true_iff in Hs as [Hc Hs].
    rewrite append_cons. cbn [components].
    rewrite bool_decide_eq_false_2.
    + rewrite IH by done. by rewrite append_assoc.
    + intros ->. by vm_compute in Hc.
Qed.

(** The key of a grant: the error of the first attribute refused, or the
    namespace prefix followed by the two attributes, each delimited. *)
Lemma CreateCompositeKey_two id name :
  CreateCompositeKey "insurance" [id; name]
  = match validateCompositeKeyAttribute id with
    | Some e => ("", Some e)
    | None =>
        match validateCompositeKeyAttribute name with
        | Some e => ("", Some e)
        | None =>
            (insurancePrefix +:+ id +:+ String NUL (name +:+ String NUL ""), None)
        end
    end.
Proof.
  unfold CreateCompositeKey.
  change (validateCompositeKeyAttribute "insurance") with (@None error).
  cbn [appendAttributes]. destruct (validateCompositeKeyAttribute id); [done|].
  destruct (validateCompositeKeyAttribute name); [done|].
  change (compositeKeyNamespace +:+ "insurance" +:+ String NUL "") with insurancePrefix.
  by rewrite !append_assoc, append_cons, append_nil_l.
Qed.

(** Splitting the key of a grant gives back the object type and the two
    attributes. *)
Lemma SplitCompositeKey_grant id name :
  nul_free id = true → nul_free name = true →
  SplitCompositeKey (insurancePrefix +:+ id +:+ String NUL (name +:+ String NUL ""))
  = Some ("insurance", [id; name]).
Proof.
  intros Hid Hname. unfold SplitCompositeKey.
  change (utf8.skip 1 (insurancePrefix +:+ id +:+ String NUL (name +:+ String NUL "")))
    with ("insurance" +:+ String NUL (id +:+ String NUL (name +:+ String NUL ""))).
  rewrite components_app by done. rewrite components_app by done.
  rewrite components_app by done. reflexivity.
Qed.

(** The first rune of a string that is well-formed and not U+10FFFF puts
    the string below the encoding of U+10FFFF, whatever follows. *)
Lemma first_rune_below_max b0 s1 t :
  utf8.ill_formed (utf8.DecodeRune (String b0 s1)) = false →
  fst (utf8.DecodeRune (String b0 s1)) ≠ maxUnicodeRuneValue →
  String.ltb (String b0 s1 +:+ t) (utf8.EncodeRune maxUnicodeRuneValue) = true.
Proof.
  change (utf8.EncodeRune maxUnicodeRuneValue)
    with (String (chr 0xF4) (String (chr 0x8F) (String (chr 0xBF) (String (chr 0xBF) "")))).
  rewrite append_cons. unfold String.ltb. cbn [String.compare].
  rewrite ascii_compare_code. change (code (chr 0xF4)) with 0xF4.
  destruct (Z.compare_spec (code b0) 0xF4) as [H0|H0|H0]; [|done|].
  - assert (b0 = chr 0xF4) as -> by by apply code_inj.
    destruct s1 as [|b1 [|b2 [|b3 s4]]]; [by vm_compute..|].
    rewrite !append_cons. cbn [String.compare]. rewrite !ascii_compare_code.
    change (code (chr 0x8F)) with 0x8F. change (code (chr 0xBF)) with 0xBF.
    unfold utf8.DecodeRune. change (code (chr 0xF4) <? 0x80) with false.
    change (utf8.lead (code (chr 0xF4))) with (Some (4%nat, 0x80, 0x8F)).
    cbv beta iota.
    destruct (utf8.between 0x80 0x8F b1) eqn:H1; [|by vm_compute].
    destruct (utf8.between 0x80 0xBF b2) eqn:H2; [|by vm_compute].
    destruct (utf8.between 0x80 0xBF b3) eqn:H3; [|by vm_compute].
    cbn [andb fst]. intros _ Hne. unfold utf8.between in H1, H2, H3.
    destruct (Z.compare_spec (code b1) 0x8F) as [E1|?|?]; [|done|lia].
    destruct (Z.compare_spec (code b2) 0xBF) as [E2|?|?]; [|done|lia].
    destruct (Z.compare_spec (code b3) 0xBF) as [E3|?|?]; [|done|lia].
    exfalso. apply Hne. unfold utf8.low6. by rewrite E1, E2, E3.
  - intros Hill. exfalso. revert Hill. unfold utf8.DecodeRune.
    destruct (Z.ltb_spec (code b0) 0x80); [lia|].
    unfold utf8.lead.
    repeat match goal with
           | |- context [if ?b then _ else _] => destruct b eqn:?; try lia
           end.
    by vm_compute.
Qed.

Lemma validated_below_max name x :
  validateCompositeKeyAttribute name = None →
  String.ltb (name +:+ String NUL x) (utf8.EncodeRune maxUnicodeRuneValue) = true.
Proof.
  destruct name as [|b0 s1]; [by rewrite append_nil_l|].
  unfold validateCompositeKeyAttribute.
  destruct (utf8.ValidString (String b0 s1)) eqn:Hvalid; [|done]. cbn [negb].
  destruct (forallb _ (utf8.runes (String b0 s1))) eqn:Hrunes; [|done]. intros _.
  unfold utf8.ValidString, utf8.runes in Hvalid, Hrunes.
  cbn [String.length utf8.runes_loop forallb] in Hvalid, Hrunes.
  apply andb_true_iff in Hvalid as [Hvalid _]. apply andb_true_iff in Hrunes as [Hrunes _].
  apply first_rune_below_max.
  - by apply negb_true_iff.
  - apply negb_true_iff, orb_false_iff in Hrunes as [_ Hrunes]. lia.
Qed.

Lemma grant_key_valid id name :
  validateCompositeKeyAttribute id = None →
  validateCompositeKeyAttribute name = None →
  CreateCompositeKey "insurance" [id; name] = (grant_key id name, None)
  ∧ grant_key id name = granter_key id +:+ name +:+ String NUL ""
  ∧ granter_key id = insurancePrefix +:+ id +:+ String NUL "".
Proof.
  intros Hid Hname. unfold grant_key, granter_key.
  rewrite CreateCompositeKey_two, CreateCompositeKey_one, Hid, Hname. cbn [fst].
  repeat split. by rewrite !append_assoc, append_cons, append_nil_l.
Qed.

(** A key that [allowance] can write lies in the scan of [g] only when it
    is the key of a grant of [g]. *)
Lemma written_key_in_scan id name g key :
  validateCompositeKeyAttribute g = None →
  key = grant_key id name →
  String.leb (granter_key g) key = true →
  String.ltb key (granter_key g +:+ utf8.EncodeRune maxUnicodeRuneValue) = true →
  validateCompositeKeyAttribute id = None
  ∧ validateCompositeKeyAttribute name = None ∧ g = id.
Proof.
  intros Hg -> Hle Hlt. pose proof (range_prefix _ _ _ Hle Hlt) as Hp.
  revert Hp. unfold grant_key, granter_key.
  rewrite CreateCompositeKey_two, CreateCompositeKey_one, Hg. cbn [fst].
  destruct (validateCompositeKeyAttribute id) eqn:Hid; [done|].
  destruct (validateCompositeKeyAttribute name) eqn:Hname; [done|].
  cbn [fst]. intros Hp%prefix_app_inv. repeat split.
  by apply delimited_prefix_inj in Hp; [|apply validated_nul_free..].
Qed.

Lemma grant_in_scan id name :
  validateCompositeKeyAttribute id = None →
  validateCompositeKeyAttribute name = None →
  String.leb (granter_key id) (grant_key id name) = true
  ∧ String.ltb (grant_key id name)
      (granter_key id +:+ utf8.EncodeRune maxUnicodeRuneValue) = true.
Proof.
  intros Hid Hname. destruct (grant_key_valid _ _ Hid Hname) as (_ & -> & _). split.
  - apply prefix_leb, prefix_app.
  - rewrite ltb_app. by apply validated_below_max.
Qed.

#[local] Instance key_le_trans : Transitive key_le.
Proof. intros a b c. unfold key_le. apply leb_trans. Qed.

(** The scan of a range depends on the entries of the range only. *)
Lemma range_agree st1 st2 startKey endKey :
  (∀ key, String.leb startKey key = true → String.ltb key endKey = true →
          st1 !! key = st2 !! key) →
  range st1 startKey endKey = range st2 startKey endKey.
Proof.
  intros Hagree. apply (Sorted_unique_strong key_le); [|apply Sorted_range..|].
  - intros [k1 v1] [k2 v2] (H1 & Hle & Hlt)%elem_of_range (H2 & _)%elem_of_range.
    unfold key_le. cbn [fst]. intros H12 H21.
    assert (k1 = k2) as <- by by apply String.leb_antisym.
    rewrite (Hagree _ Hle Hlt) in H1. congruence.
  - apply NoDup_Permutation; [apply NoDup_range..|].
    intros [k v]. rewrite !elem_of_range. split; intros (H & Hle & Hlt).
    + by rewrite <- (Hagree _ Hle Hlt).
    + by rewrite (Hagree _ Hle Hlt).
Qed.

(** The state that [allowance] leaves: the old one, or the old one with the
    amount under the key of the grant, or under the empty key when an
    attribute is refused. *)
Lemma allowance_state stub id name amount :
  State (fst (allowance stub [id; name; amount])) = State stub
  ∨ State (fst (allowance stub [id; name; amount]))
    = <[grant_key id name := amount]> (State stub).
Proof.
  unfold allowance, grant_key. index_params.
  destruct (CreateCompositeKey "insurance" [id; name]) as [key e]. cbn [fst].
  unfold PutState. destruct (putFault (host stub) key amount); [by left|by right].
Qed.

Lemma prefix_refl (p : string) : String.prefix p p = true.
Proof. rewrite <- (append_nil_r p) at 2. apply prefix_app. Qed.

Lemma leb_app (p a b : string) : String.leb (p +:+ a) (p +:+ b) = String.leb a b.
Proof.
  induction p as [|c p IH]; [done|]. rewrite !append_cons.
  unfold String.leb in *. cbn [String.compare].
  by rewrite ascii_compare_code, Z.compare_refl.
Qed.

(** The delimiter is the smallest byte: delimited attributes without it are
    ordered as the attributes are. *)
Lemma leb_delimited (a b x y : string) :
  nul_free a = true →
  String.leb (a +:+ String NUL x) (b +:+ String NUL y) = true → String.leb a b = true.
Proof.
  revert b. induction a as [|c a IH]; intros b Ha; [by destruct b|].
  cbn [nul_free] in Ha. apply andb_true_iff in Ha as [Hc Ha].
  destruct b as [|d b]; rewrite ?append_nil_l, !append_cons.
  - unfold String.leb. cbn [String.compare]. rewrite ascii_compare_code.
    change (code NUL) with 0.
    pose proof (N2Z.is_nonneg (N_of_ascii c)) as Hpos. fold (code c) in Hpos.
    destruct (Z.compare_spec (code c) 0); [lia|lia|done].
  - specialize (IH b Ha). unfold String.leb in *. cbn [String.compare].
    by destruct (Ascii.compare c d).
Qed.

Lemma grant_key_inj id name1 name2 :
  validateCompositeKeyAttribute id = None →
  validateCompositeKeyAttribute name1 = None →
  validateCompositeKeyAttribute name2 = None →
  grant_key id name1 = grant_key id name2 → name1 = name2.
Proof.
  intros Hid H1 H2.
  destruct (grant_key_valid _ _ Hid H1) as (_ & -> & _).
  destruct (grant_key_valid _ _ Hid H2) as (_ & -> & _).
  intros Heq. pose proof (prefix_refl (granter_key id +:+ name1 +:+ String NUL "")) as Hp.
  rewrite Heq in Hp at 2. apply prefix_app_inv in Hp.
  by apply delimited_prefix_inj in Hp; [|apply validated_nul_free..].
Qed.

Lemma grant_key_leb id name1 name2 :
  validateCompositeKeyAttribute id = None →
  validateCompositeKeyAttribute name1 = None →
  validateCompositeKeyAttribute name2 = None →
  String.leb (grant_key id name1) (grant_key id name2) = true →
  String.leb name1 name2 = true.
Proof.
  intros Hid H1 H2.
  destruct (grant_key_valid _ _ Hid H1) as (_ & -> & _).
  destruct (grant_key_valid _ _ Hid H2) as (_ & -> & _).
  rewrite leb_app. apply leb_delimited. by apply validated_nul_free.
Qed.

Lemma SplitCompositeKey_grant_key id name :
  validateCompositeKeyAttribute id = None →
  validateCompositeKeyAttribute name = None →
  SplitCompositeKey (grant_key id name) = Some ("insurance", [id; name]).
Proof.
  intros Hid Hname. unfold grant_key.
  rewrite CreateCompositeKey_two, Hid, Hname. cbn [fst].
  by apply SplitCompositeKey_grant; apply validated_nul_free.
Qed.

(** On keys of grants the loop of [approve] runs to its end, and adds one
    element for every entry, in the order of the entries. *)
Lemma approve_loop_grants id it result :
  validateCompositeKeyAttribute id = None →
  (∀ key value, (key, value) ∈ it →
     ∃ name, validateCompositeKeyAttribute name = None ∧ key = grant_key id name) →
  ∃ l : list Insurance,
    approve_loop it result = Some (result ++ l)%list ∧ Forall2 (listed id) it l.
Proof.
  intros Hid. revert result. induction it as [|[key value] it IH]; intros result Hit.
  { exists []. by rewrite app_nil_r. }
  destruct (Hit key value) as (name & Hname & ->); [left|].
  destruct (IH (result ++ [{| Insurance_Name := name; Insurance_Amount := value |}])%list)
    as (l & Hl & Hall).
  { intros k v Hin. apply (Hit k v). by right. }
  exists ({| Insurance_Name := name; Insurance_Amount := value |} :: l). split.
  - cbn [approve_loop]. rewrite SplitCompositeKey_grant_key by done.
    index_params. by rewrite Hl, <- app_assoc.
  - by constructor.
Qed.

(** The loop panics on a scan that holds a key with less than two
    attributes. *)
Lemma approve_loop_panics it result key value objectType attrs :
  (key, value) ∈ it →
  SplitCompositeKey key = Some (objectType, attrs) → attrs !! 1%nat = None →
  approve_loop it result = None.
Proof.
  intros Hin Hsplit Hattrs. revert result.
  induction it as [|[k v] it IH]; intros result; [by apply elem_of_nil in Hin|].
  apply elem_of_cons in Hin as [[= <- <-]|Hin].
  - cbn [approve_loop]. rewrite Hsplit, Hattrs. by destruct (attrs !! 0%nat).
  - cbn [approve_loop]. destruct (SplitCompositeKey k) as [[o a]|]; [|done].
    destruct (a !! 0%nat); [|done]. destruct (a !! 1%nat); [|done]. by apply IH.
Qed.

(** [approve] for an accepted granter whose scan succeeds: the loop over
    the range of the partial key. *)
Lemma approve_scan later id :
  validateCompositeKeyAttribute id = None →
  scanFault (host later) (granter_key id) = None →
  approve later [id]
  = match approve_loop
            (range (State later) (granter_key id)
               (granter_key id +:+ utf8.EncodeRune maxUnicodeRuneValue)) [] with
    | Some result => (later, Returned (Success (Some (Marshal_Insurances result))))
    | None => (later, Panicked)
    end.
Proof.
  intros Hid. unfold approve, GetStateByPartialCompositeKey, granter_key. index_params.
  rewrite CreateCompositeKey_one, Hid. cbn [fst]. by intros ->.
Qed.

(** The scan of a granter who holds one grant only. *)
Lemma range_one_grant st id name amount :
  validateCompositeKeyAttribute id = None →
  validateCompositeKeyAttribute name = None →
  (∀ key, String.prefix (granter_key id) key = true → key ≠ grant_key id name →
          st !! key = None) →
  range (<[grant_key id name := amount]> st) (granter_key id)
    (granter_key id +:+ utf8.EncodeRune maxUnicodeRuneValue)
  = [(grant_key id name, amount)].
Proof.
  intros Hid Hname Hno. apply NoDup_singleton_eq; [apply NoDup_range|].
  intros [key value]. rewrite elem_of_range. split.
  - intros (Hlook & Hle & Hlt). destruct (decide (key = grant_key id name)) as [->|Hne].
    + rewrite lookup_insert_eq in Hlook. congruence.
    + rewrite lookup_insert_ne in Hlook by done.
      rewrite Hno in Hlook; [done| |done]. by apply (range_prefix _ _ _ Hle Hlt).
  - intros [= -> ->]. rewrite lookup_insert_eq. split; [done|]. by apply grant_in_scan.
Qed.

(** The state that [allowance] leaves on three parameters or more. *)
Lemma allowance_state_any stub params :
  State (fst (allowance stub params)) = State stub
  ∨ ∃ id name amount,
      params !! 0%nat = Some id ∧ params !! 1%nat = Some name
      ∧ params !! 2%nat = Some amount
      ∧ State (fst (allowance stub params)) = <[grant_key id name := amount]> (State stub).
Proof.
  unfold allowance.
  destruct (params !! 0%nat) as [id|]; [|by left].
  destruct (params !! 1%nat) as [name|]; [|by left].
  destruct (params !! 2%nat) as [amount|]; [|by left].
  unfold grant_key. destruct (CreateCompositeKey "insurance" [id; name]) as [key e] eqn:Hkey.
  unfold PutState. destruct (putFault (host stub) key amount); [by left|].
  right. exists id, name, amount. by rewrite Hkey.
Qed.

(** A key in the namespace of the allowances that is the key of a grant
    has accepted attributes. *)
Lemma grant_key_in_namespace id name :
  String.prefix insurancePrefix (grant_key id name) = true →
  validateCompositeKeyAttribute id = None ∧ validateCompositeKeyAttribute name = None.
Proof.
  unfold grant_key. rewrite CreateCompositeKey_two.
  destruct (validateCompositeKeyAttribute id); [done|].
  by destruct (validateCompositeKeyAttribute name).
Qed.

Lemma registry_ok_insert st id name amount :
  registry_ok st → registry_ok (<[grant_key id name := amount]> st).
Proof.
  intros Hok key Hp Hsome. destruct (decide (key = grant_key id name)) as [->|Hne].
  - destruct (grant_key_in_namespace _ _ Hp). by exists id, name.
  - rewrite lookup_insert_ne in Hsome by done. by apply Hok.
Qed.

Lemma two_granters_ok : registry_ok (State two_granters).
Proof.
  intros key Hp Hsome. unfold two_granters in Hsome. cbn [State stub_of] in Hsome.
  destruct (decide (key = grant_key "alice" "bob")) as [->|Ha];
    [by exists "alice", "bob"|].
  destruct (decide (key = grant_key "carol" "bob")) as [->|Hc];
    [by exists "carol", "bob"|].
  rewrite lookup_insert_ne, lookup_singleton_ne in Hsome by done.
  by destruct Hsome.
Qed.

(** X14: the well-formedness of the registry is an invariant of every
    operation of [Invoke] but [transfer]: when every stored key in the
    namespace of the allowances is the key of a grant between accepted
    attributes, it is so again after the operation.  [allowance] writes the
    key of a grant or, when an attribute is refused, the empty key, which is
    outside the namespace; the other operations write nothing. *)
Theorem X14_registry_stays_well_formed :
  ∀ (stub : ChaincodeStub),
    fst (GetFunctionAndParameters stub) ≠ "transfer" →
    registry_ok (State stub) →
    registry_ok (State (fst (Invoke stub))).
Proof.
  intros stub Hn Hok.
  destruct (Invoke_cases stub) as [[Hf Hi]|[[Hf Hi]|[[Hf Hi]|[[Hf Hi]|[[Hf Hi]|[[Hf Hi]|[Hf Hi]]]]]]];
    rewrite Hi.
  - by destruct (totalSupply_answers stub (snd (GetFunctionAndParameters stub)))
      as (r' & -> & _).
  - by destruct (balanceOf_answers stub (snd (GetFunctionAndParameters stub)))
      as (r' & -> & _).
  - done.
  - destruct (allowance_state_any stub (snd (GetFunctionAndParameters stub)))
      as [->|(id & name & amount & _ & _ & _ & ->)]; [done|].
    by apply registry_ok_insert.
  - by destruct (approve_answers stub (snd (GetFunctionAndParameters stub)))
      as [->|(r' & -> & _)].
  - done.
  - done.
Qed.

Lemma X14_witness :
  registry_ok (State two_granters)
  ∧ registry_ok (State (fst (Invoke two_granters))).
Proof.
  split; [apply two_granters_ok|].
  apply (X14_registry_stays_well_formed two_granters); [done|apply two_granters_ok].
Defined.

(** On a well-formed registry every entry of the scan of an accepted
    granter is a grant of this granter. *)
Lemma scan_of_registry st id key value :
  registry_ok st → validateCompositeKeyAttribute id = None →
  (key, value) ∈ range st (granter_key id)
                  (granter_key id +:+ utf8.EncodeRune maxUnicodeRuneValue) →
  ∃ name, validateCompositeKeyAttribute name = None ∧ key = grant_key id name.
Proof.
  intros Hok Hid (Hlook & Hle & Hlt)%elem_of_range.
  destruct (Hok key) as (id' & name & Hid' & Hname & ->); [|by eexists|].
  { apply (prefix_trans _ (granter_key id)); [|by apply (range_prefix _ _ _ Hle Hlt)].
    unfold granter_key. rewrite CreateCompositeKey_one, Hid. apply prefix_app. }
  destruct (written_key_in_scan id' name id _ Hid eq_refl Hle Hlt) as (_ & _ & ->).
  by exists name.
Qed.

(** X16: a grant does not touch the list of another granter.  For every
    state, parameters and host, when [allowance] is called for the granter
    [id], two later calls of [approve] for a granter [g] other than [id], one
    on the state before the grant and one on the state after it, on the same
    host, have the same outcome: the same list, the same error or the same
    panic. *)
Theorem X16_a_grant_leaves_other_granters_alone :
  ∀ (stub before after : ChaincodeStub) (id name amount g : string),
    g ≠ id →
    State before = State stub →
    State after = State (fst (allowance stub [id; name; amount])) →
    host after = host before →
    snd (approve after [g]) = snd (approve before [g]).
Proof.
  intros stub before after id name amount g Hg Hbefore Hafter Hhost.
  unfold approve, GetStateByPartialCompositeKey. index_params.
  rewrite CreateCompositeKey_one.
  destruct (validateCompositeKeyAttribute g) as [e|] eqn:Hv; [done|].
  rewrite Hhost. destruct (scanFault (host before) _); [done|].
  assert (range (State after) (insurancePrefix +:+ g +:+ String NUL "")
            ((insurancePrefix +:+ g +:+ String NUL "")
             +:+ utf8.EncodeRune maxUnicodeRuneValue)
          = range (State before) (insurancePrefix +:+ g +:+ String NUL "")
              ((insurancePrefix +:+ g +:+ String NUL "")
               +:+ utf8.EncodeRune maxUnicodeRuneValue)) as ->.
  { apply range_agree. intros key Hle Hlt. rewrite Hafter, Hbefore.
    destruct (allowance_state stub id name amount) as [->| ->]; [done|].
    apply lookup_insert_ne. intros Hkey.
    destruct (written_key_in_scan id name g key Hv (eq_sym Hkey)) as (_ & _ & ?); [| |done].
    - unfold granter_key. by rewrite CreateCompositeKey_one, Hv.
    - unfold granter_key. by rewrite CreateCompositeKey_one, Hv. }
  by destruct (approve_loop _ _).
Qed.

Lemma X16_witness :
  snd (approve (next_call (fst (allowance two_granters ["alice"; "bob"; "70"]))
                  ["approve"; "carol"]) ["carol"])
  = snd (approve two_granters ["carol"]).
Proof.
  apply (X16_a_grant_leaves_other_granters_alone two_granters two_granters
           (next_call (fst (allowance two_granters ["alice"; "bob"; "70"]))
              ["approve"; "carol"]) "alice" "bob" "70" "carol");
    [done|reflexivity..].
Defined.

(** X17: [approve] panics on a key with less than two attributes.  When the
    state holds, in the range that [approve] scans for an accepted granter,
    a key that [SplitCompositeKey] splits into less than two attributes,
    [approve] indexes past the end of the attributes: the call panics and
    returns no response.  The partial key of the granter itself is such a
    key, and [transfer] stores a balance under any address it is given. *)
Theorem X17_approve_panics_on_a_short_key :
  ∀ (later : ChaincodeStub) (id key value objectType : string) (attrs : list string),
    validateCompositeKeyAttribute id = None →
    scanFault (host later) (granter_key id) = None →
    State later !! key = Some value →
    String.leb (granter_key id) key = true →
    String.ltb key (granter_key id +:+ utf8.EncodeRune maxUnicodeRuneValue) = true →
    SplitCompositeKey key = Some (objectType, attrs) →
    attrs !! 1%nat = None →
    approve later [id] = (later, Panicked).
Proof.
  intros later id key value objectType attrs Hid Hscan Hlook Hle Hlt Hsplit Hattrs.
  rewrite approve_scan by done.
  rewrite (approve_loop_panics _ _ key value objectType attrs); [done| |done..].
  by apply elem_of_range.
Qed.

Lemma X17_witness :
  State (fst (transfer alice_10 ["alice"; granter_key "alice"; "5"])) !! granter_key "alice"
  = Some "5"
  ∧ approve (next_call (fst (transfer alice_10 ["alice"; granter_key "alice"; "5"]))
               ["approve"; "alice"]) ["alice"]
    = (next_call (fst (transfer alice_10 ["alice"; granter_key "alice"; "5"]))
         ["approve"; "alice"], Panicked).
Proof.
  split; [reflexivity|].
  apply (X17_approve_panics_on_a_short_key _ "alice" (granter_key "alice") "5"
           "insurance" ["alice"]); reflexivity.
Defined.

(** *** [Init] and [totalSupply]: the metadata survives the store *)

Lemma length_app (a b : string) :
  String.length (a +:+ b) = (String.length a + String.length b)%nat.
Proof. induction a as [|c a IH]; [done|]. rewrite append_cons. cbn [String.length]. by rewrite IH. Qed.

Lemma skip_app (p r : string) : utf8.skip (String.length p) (p +:+ r) = r.
Proof. induction p as [|c p IH]; [by destruct r|]. by rewrite append_cons. Qed.

Lemma utf8_prefix_app (p r : string) : utf8.prefix (String.length p) (p +:+ r) = p.
Proof.
  induction p as [|c p IH]; [by destruct r|]. rewrite append_cons.
  cbn [String.length utf8.prefix]. by rewrite IH.
Qed.

(** A sequence of two bytes or more that [DecodeRune] accepts: the bytes
    of the rune, and the same rune whatever follows them. *)
Lemma DecodeRune_multibyte b0 s1 :
  0x80 ≤ code b0 →
  utf8.ill_formed (utf8.DecodeRune (String b0 s1)) = false →
  ∃ pre rest,
    s1 = pre +:+ rest
    ∧ snd (utf8.DecodeRune (String b0 s1)) = S (String.length pre)
    ∧ ∀ t, utf8.DecodeRune (String b0 (pre +:+ t)) = utf8.DecodeRune (String b0 s1).
Proof.
  intros Hx. cbn [utf8.DecodeRune].
  destruct (Z.ltb_spec (code b0) 0x80) as [?|_]; [lia|].
  destruct (utf8.lead (code b0)) as [[[size lo] hi]|] eqn:Hlead; [|by vm_compute].
  destruct size as [|[|[|[|[|size]]]]]; try by vm_compute.
  - destruct s1 as [|b1 s2]; [by vm_compute|].
    destruct (utf8.between lo hi b1) eqn:H1; [|by vm_compute]. intros _.
    exists (String b1 ""), s2. repeat split. intros t.
    rewrite !append_cons. by rewrite H1.
  - destruct s1 as [|b1 [|b2 s3]]; try by vm_compute.
    destruct (utf8.between lo hi b1) eqn:H1; [|by vm_compute].
    destruct (utf8.between 128 191 b2) eqn:H2; [|by vm_compute]. intros _.
    exists (String b1 (String b2 "")), s3. repeat split. intros t.
    rewrite !append_cons. by rewrite H1, H2.
  - destruct s1 as [|b1 [|b2 [|b3 s4]]]; try by vm_compute.
    destruct (utf8.between lo hi b1) eqn:H1; [|by vm_compute].
    destruct (utf8.between 128 191 b2) eqn:H2; [|by vm_compute].
    destruct (utf8.between 128 191 b3) eqn:H3; [|by vm_compute]. intros _.
    exists (String b1 (String b2 (String b3 ""))), s4. repeat split. intros t.
    rewrite !append_cons. by rewrite H1, H2, H3.
Qed.

Lemma hex_val_hex d : 0 ≤ d < 16 → json.hex_val (json.hex d) = Some d.
Proof.
  intros H.
  assert (d = 0 ∨ d = 1 ∨ d = 2 ∨ d = 3 ∨ d = 4 ∨ d = 5 ∨ d = 6 ∨ d = 7 ∨ d = 8 ∨ d = 9
          ∨ d = 10 ∨ d = 11 ∨ d = 12 ∨ d = 13 ∨ d = 14 ∨ d = 15) as Hd by lia.
  repeat (destruct Hd as [-> | Hd]; [by vm_compute|]). subst d. by vm_compute.
Qed.

Lemma nibbles x : 0 ≤ x < 0x80 → 0 ≤ Z.shiftr x 4 < 8 ∧ 0 ≤ Z.land x 0xF < 16.
Proof.
  intros Hx. rewrite Z.shiftr_div_pow2 by lia. change 0xF with (Z.ones 4).
  rewrite Z.land_ones by lia. change (2 ^ 4) with 16.
  pose proof (Z.mod_pos_bound x 16 ltac:(lia)).
  pose proof (Z.div_lt_upper_bound x 16 8 ltac:(lia) ltac:(lia)).
  pose proof (Z.div_pos x 16 ltac:(lia) ltac:(lia)). lia.
Qed.

Lemma bind_unquoted (X : option (string * string)) (g : string → string) rest :
  (∃ t, X = Some (t, rest)) →
  ∃ t', ('(t, k) ← X; Some (g t, k)) = Some (t', rest).
Proof. intros [t ->]. by eexists. Qed.

Lemma unquote_close f rest :
  json.unquote_loop (S f) (String json.quote_chr rest) = Some ("", rest).
Proof. reflexivity. Qed.

Lemma unquote_plain f c r :
  0x20 ≤ code c < 0x80 → code c ≠ 0x22 → code c ≠ 0x5C →
  json.unquote_loop (S f) (String c r)
  = '(t, k) ← json.unquote_loop f r; Some (String c t, k).
Proof.
  intros Hc Hq Hb. cbn [json.unquote_loop].
  destruct (Z.eqb_spec (code c) 0x22); [done|]. destruct (Z.eqb_spec (code c) 0x5C); [done|].
  destruct (Z.ltb_spec (code c) 0x20); [lia|]. destruct (Z.ltb_spec (code c) 0x80); [done|lia].
Qed.

Lemma unquote_simple f e b r :
  json.simple_escape e = Some b →
  json.unquote_loop (S f) (String json.backslash (String e r))
  = '(t, k) ← json.unquote_loop f r; Some (String b t, k).
Proof.
  intros He. cbn [json.unquote_loop].
  change (code json.backslash =? 0x22) with false.
  change (code json.backslash =? 0x5C) with true. cbv iota. by rewrite He.
Qed.

Lemma unquote_u4 f h3 h2 h1 h0 a b c d r :
  json.hex_val h3 = Some a → json.hex_val h2 = Some b →
  json.hex_val h1 = Some c → json.hex_val h0 = Some d →
  json.IsSurrogate (a * 4096 + b * 256 + c * 16 + d) = false →
  json.unquote_loop (S f)
    (String json.backslash (String "u" (String h3 (String h2 (String h1 (String h0 r))))))
  = '(t, k) ← json.unquote_loop f r;
    Some (utf8.EncodeRune (a * 4096 + b * 256 + c * 16 + d) +:+ t, k).
Proof.
  intros H3 H2 H1 H0 Hs. cbn [json.unquote_loop].
  change (code json.backslash =? 0x22) with false.
  change (code json.backslash =? 0x5C) with true. cbv iota.
  change (json.simple_escape "u") with (@None ascii). cbv iota.
  unfold json.getu4. rewrite bool_decide_eq_true_2 by done.
  rewrite H3, H2, H1, H0. cbn [mbind option_bind]. by rewrite Hs.
Qed.

Lemma unquote_rune f c r :
  0x80 ≤ code c →
  json.unquote_loop (S f) (String c r)
  = '(t, k) ← json.unquote_loop f
                (utf8.skip (snd (utf8.DecodeRune (String c r))) (String c r));
    Some (utf8.EncodeRune (fst (utf8.DecodeRune (String c r))) +:+ t, k).
Proof.
  intros Hc. cbn [json.unquote_loop].
  destruct (Z.eqb_spec (code c) 0x22); [lia|]. destruct (Z.eqb_spec (code c) 0x5C); [lia|].
  destruct (Z.ltb_spec (code c) 0x20); [lia|]. destruct (Z.ltb_spec (code c) 0x80); [lia|done].
Qed.

Lemma code_nonneg c : 0 ≤ code c.
Proof. unfold code. lia. Qed.

(** What [Marshal] writes for a string, [Unmarshal] reads as a string, up to
    the closing quote. *)
Lemma unquote_escape n s rest f :
  (String.length s ≤ n)%nat →
  (String.length (json.escape_loop n s) < f)%nat →
  ∃ t, json.unquote_loop f (json.escape_loop n s +:+ String json.quote_chr rest)
       = Some (t, rest).
Proof.
  revert s f. induction n as [|n IH]; intros s f Hn Hf.
  { destruct f as [|f]; [lia|]. destruct s; by eexists. }
  destruct s as [|b s0].
  { destruct f as [|f]; [lia|]. by eexists. }
  cbn [String.length] in Hn. cbn [json.escape_loop] in Hf |- *.
  destruct f as [|f]; [lia|].
  pose proof (code_nonneg b) as Hb.
  destruct (Z.ltb_spec (code b) 0x80) as [Hlt|Hge].
  - rewrite length_app in Hf. rewrite append_assoc.
    assert (∀ f', (String.length (json.escape_loop n s0) < f')%nat →
              ∃ t, json.unquote_loop f' (json.escape_loop n s0 +:+ String json.quote_chr rest)
                   = Some (t, rest)) as IH'.
    { intros f' Hf'. apply IH; [lia|done]. }
    destruct (json.htmlSafe (code b)) eqn:Hsafe.
    { rewrite append_cons, append_nil_l. unfold json.htmlSafe in Hsafe.
      rewrite unquote_plain by lia. apply bind_unquoted, IH'.
      cbn [String.length] in Hf. lia. }
    destruct (_ || _) eqn:Hq.
    { rewrite !append_cons, append_nil_l.
      rewrite (unquote_simple _ _ b).
      - apply bind_unquoted, IH'. cbn [String.length] in Hf. lia.
      - unfold json.simple_escape.
        destruct (Z.eqb_spec (code b) 0x5C) as [->|?]; [done|].
        destruct (Z.eqb_spec (code b) 0x22) as [->|?]; done. }
    destruct (Z.eqb_spec (code b) 0x0A).
    { rewrite !append_cons, append_nil_l. rewrite (unquote_simple _ _ (chr 0x0A)) by done.
      apply bind_unquoted, IH'. cbn [String.length] in Hf. lia. }
    destruct (Z.eqb_spec (code b) 0x0D).
    { rewrite !append_cons, append_nil_l. rewrite (unquote_simple _ _ (chr 0x0D)) by done.
      apply bind_unquoted, IH'. cbn [String.length] in Hf. lia. }
    destruct (Z.eqb_spec (code b) 0x09).
    { rewrite !append_cons, append_nil_l. rewrite (unquote_simple _ _ (chr 0x09)) by done.
      apply bind_unquoted, IH'. cbn [String.length] in Hf. lia. }
    destruct (nibbles (code b)) as [Hhi Hlo]; [lia|].
    rewrite !append_cons, append_nil_l.
    rewrite !append_cons, append_nil_l.
    rewrite (unquote_u4 _ _ _ _ _ 0 0 (Z.shiftr (code b) 4) (Z.land (code b) 0xF));
      [|done|done|apply hex_val_hex; lia|apply hex_val_hex; lia|unfold json.IsSurrogate; lia].
    apply bind_unquoted, IH'. rewrite length_app in Hf. cbn [String.length] in Hf. lia.
  - destruct (utf8.ill_formed (utf8.DecodeRune (String b s0))) eqn:Hill.
    { rewrite !length_app in Hf. rewrite !append_assoc. rewrite !append_cons, !append_nil_l.
      rewrite (unquote_u4 _ _ _ _ _ 15 15 15 13) by done.
      apply bind_unquoted, IH; [lia|]. cbn [String.length] in Hf. lia. }
    destruct (DecodeRune_multibyte b s0 Hge Hill) as (pre & tail & -> & Hsize & Hsame).
    assert (utf8.skip (snd (utf8.DecodeRune (String b (pre +:+ tail)))) (String b (pre +:+ tail))
            = tail) as Hskip.
    { rewrite Hsize. cbn [utf8.skip]. apply skip_app. }
    assert (utf8.prefix (snd (utf8.DecodeRune (String b (pre +:+ tail))))
              (String b (pre +:+ tail)) = String b pre) as Hprefix.
    { rewrite Hsize. cbn [utf8.prefix]. by rewrite utf8_prefix_app. }
    rewrite Hskip in Hf |- *. rewrite length_app in Hn.
    assert (∀ f', (String.length (json.escape_loop n tail) < f')%nat →
              ∃ t, json.unquote_loop f' (json.escape_loop n tail +:+ String json.quote_chr rest)
                   = Some (t, rest)) as IH'.
    { intros f' Hf'. apply IH; [lia|done]. }
    destruct (_ || _) eqn:Hsep.
    + rewrite !length_app in Hf. rewrite !append_assoc.
      rewrite !append_cons, !append_nil_l.
      assert (json.hex (Z.land (fst (utf8.DecodeRune (String b (pre +:+ tail)))) 0xF) = "8"%char
              ∨ json.hex (Z.land (fst (utf8.DecodeRune (String b (pre +:+ tail)))) 0xF) = "9"%char)
        as Hhex.
      { apply orb_true_iff in Hsep as [->%Z.eqb_eq| ->%Z.eqb_eq]; [by left|by right]. }
      destruct Hhex as [-> | ->].
      * rewrite (unquote_u4 _ _ _ _ _ 2 0 2 8) by done.
        apply bind_unquoted, IH'. cbn [String.length] in Hf. lia.
      * rewrite (unquote_u4 _ _ _ _ _ 2 0 2 9) by done.
        apply bind_unquoted, IH'. cbn [String.length] in Hf. lia.
    + rewrite Hprefix in Hf |- *. rewrite length_app in Hf.
      rewrite append_assoc, append_cons. rewrite unquote_rune by done.
      rewrite Hsame, Hsize. cbn [utf8.skip]. rewrite skip_app.
      apply bind_unquoted, IH'. cbn [String.length] in Hf. lia.
Qed.

Lemma quote_app s rest :
  json.quote s +:+ rest
  = String json.quote_chr
      (json.escape_loop (String.length s) s +:+ String json.quote_chr rest).
Proof. unfold json.quote. by rewrite !append_cons, append_assoc, append_cons, append_nil_l. Qed.

(** A string value as [Marshal] writes it is read as one string value. *)
Lemma parse_value_quoted fuel s rest :
  ∃ t, json.parse_value (S fuel) (json.quote s +:+ rest) = Some (json.Str t, rest).
Proof.
  rewrite quote_app. cbn [json.parse_value].
  change (json.skip_ws (String json.quote_chr ?r)) with (String json.quote_chr r).
  cbv beta iota.
  change (code json.quote_chr =? 123) with false.
  change (code json.quote_chr =? 91) with false.
  change (code json.quote_chr =? 34) with true. cbv iota.
  unfold json.scan_string.
  destruct (unquote_escape (String.length s) s rest
              (String.length (json.escape_loop (String.length s) s
                              +:+ String json.quote_chr rest))) as [t ->]; [done| |by eexists].
  rewrite length_app. cbn [String.length]. lia.
Qed.

Lemma all_digits_app s t : all_digits (s +:+ t) = all_digits s && all_digits t.
Proof.
  induction s as [|c s IH]; [done|]. rewrite append_cons. cbn [all_digits].
  by rewrite IH, andb_assoc.
Qed.

(** The digits [FormatUint] prints for a positive number: no zero in
    front. *)
Lemma formatBits_canonical fuel u :
  0 < u < 10 ^ Z.of_nat fuel →
  ∃ c ds, strconv.formatBits fuel u "" = String c ds
          ∧ is_digit c = true ∧ (code c =? 48) = false ∧ all_digits ds = true.
Proof.
  revert u. induction fuel as [|fuel IH]; intros u Hu.
  { change (10 ^ Z.of_nat 0) with 1 in Hu. lia. }
  cbn [strconv.formatBits].
  pose proof (Z.mod_pos_bound u 10 ltac:(lia)) as Hmod.
  destruct (digit_chr_spec (u mod 10) Hmod) as [Hd Hv].
  destruct (Z.ltb_spec u 10) as [Hlt|Hge].
  - eexists _, _. split; [done|]. split; [done|]. split; [|done].
    pose proof (Z.mod_small u 10 ltac:(lia)). unfold digit_val in Hv. lia.
  - rewrite formatBits_acc.
    rewrite Nat2Z.inj_succ, Z.pow_succ_r in Hu by lia.
    destruct (IH (u / 10)) as (c & ds & -> & Hc & Hnz & Hds).
    { split; [apply Z.div_str_pos; lia|]. apply Z.div_lt_upper_bound; lia. }
    exists c, (ds +:+ String (digit_chr (u mod 10)) ""). rewrite append_cons.
    split; [done|]. split; [done|]. split; [done|].
    rewrite all_digits_app, Hds. cbn [all_digits]. by rewrite Hd.
Qed.

Lemma span_digits_closed ds rest :
  all_digits ds = true →
  json.span_digits (ds +:+ String "}" rest) = (ds, String "}" rest).
Proof.
  induction ds as [|c ds IH]; [done|]. rewrite append_cons. cbn [all_digits json.span_digits].
  intros [Hc Hds]%andb_true_iff. by rewrite Hc, IH.
Qed.

(** A number as [Marshal] writes it, before the brace that closes the
    object, is read as this number. *)
Lemma parse_value_uint fuel u rest :
  0 ≤ u < 10 ^ 20 →
  json.parse_value (S fuel) (strconv.FormatUint u +:+ String "}" rest)
  = Some (json.Number (strconv.FormatUint u), String "}" rest).
Proof.
  intros Hu. unfold strconv.FormatUint.
  destruct (decide (u = 0)) as [->|Hne]; [done|].
  destruct (formatBits_canonical 20 u) as (c & ds & -> & Hc & Hnz & Hds); [lia|].
  rewrite append_cons. cbn [json.parse_value]. rewrite (skip_ws_digits _ _ Hc).
  assert ((code c =? 123) = false ∧ (code c =? 91) = false ∧ (code c =? 34) = false)
    as (-> & -> & ->).
  { unfold is_digit in Hc. lia. }
  rewrite Hc, orb_true_r. unfold json.scan_number.
  assert (match String c (ds +:+ String "}" rest) with
          | String "-" r => ("-", r)
          | _ => ("", String c (ds +:+ String "}" rest))
          end = ("", String c (ds +:+ String "}" rest))) as ->.
  { digit_case c Hc; reflexivity. }
  unfold json.scan_int. rewrite Hnz, Hc, (span_digits_closed _ _ Hds).
  cbn [mbind option_bind json.scan_frac json.scan_exp].
  change ((code "}" =? 101) || (code "}" =? 69)) with false.
  cbn [mbind option_bind]. by rewrite !append_nil_l, !append_nil_r.
Qed.

Lemma unquote_plain_string key rest f :
  forallb plain (list_ascii_of_string key) = true →
  (String.length key < f)%nat →
  json.unquote_loop f (key +:+ String json.quote_chr rest) = Some (key, rest).
Proof.
  revert f. induction key as [|c key IH]; intros f Hkey Hf.
  { destruct f as [|f]; [lia|]. done. }
  cbn [list_ascii_of_string forallb] in Hkey. apply andb_true_iff in Hkey as [Hc Hkey].
  cbn [String.length] in Hf. destruct f as [|f]; [lia|].
  rewrite append_cons. unfold plain in Hc. rewrite unquote_plain by lia.
  rewrite IH; [done|done|lia].
Qed.

(** One member of an object, with a name written as it is: the member and
    those that follow the comma, or the last member before the brace. *)
Lemma parse_members_more fuel key X v rest :
  forallb plain (list_ascii_of_string key) = true →
  json.parse_value fuel X = Some (v, String "," rest) →
  json.parse_members (S fuel) (member key X)
  = '(ms, k) ← json.parse_members fuel rest; Some ((key, v) :: ms, k).
Proof.
  intros Hkey Hv. unfold member. cbn [json.parse_members].
  change (json.skip_ws (String json.quote_chr ?r)) with (String json.quote_chr r).
  cbv beta iota. change (code json.quote_chr =? 34) with true. cbv iota.
  unfold json.scan_string. rewrite unquote_plain_string; [|done|].
  - cbn [mbind option_bind]. change (json.skip_ws (String ":" X)) with (String ":" X).
    cbv beta iota. rewrite Hv. cbn [mbind option_bind].
    change (json.skip_ws (String "," rest)) with (String "," rest). done.
  - rewrite length_app. cbn [String.length]. lia.
Qed.

Lemma parse_members_last fuel key X v rest :
  forallb plain (list_ascii_of_string key) = true →
  json.parse_value fuel X = Some (v, String "}" rest) →
  json.parse_members (S fuel) (member key X) = Some ([(key, v)], rest).
Proof.
  intros Hkey Hv. unfold member. cbn [json.parse_members].
  change (json.skip_ws (String json.quote_chr ?r)) with (String json.quote_chr r).
  cbv beta iota. change (code json.quote_chr =? 34) with true. cbv iota.
  unfold json.scan_string. rewrite unquote_plain_string; [|done|].
  - cbn [mbind option_bind]. change (json.skip_ws (String ":" X)) with (String ":" X).
    cbv beta iota. rewrite Hv. cbn [mbind option_bind].
    change (json.skip_ws (String "}" rest)) with (String "}" rest). done.
  - rewrite length_app. cbn [String.length]. lia.
Qed.

Lemma object_open fuel key X :
  json.parse_value (S fuel) (String "{" (member key X))
  = '(ms, k) ← json.parse_members fuel (member key X); Some (json.Object ms, k).
Proof. reflexivity. Qed.

(** The document that [Marshal] writes for the metadata, member by
    member. *)
Lemma Marshal_ERC20Metadata_bytes m :
  Marshal_ERC20Metadata m
  = Ok (String "{"
         (member "name" (json.quote (Name m) +:+ String ","
           (member "symbol" (json.quote (Symbol m) +:+ String ","
             (member "owner" (json.quote (Owner m) +:+ String ","
               (member "totalSupply"
                  (strconv.FormatUint (TotalSupply m) +:+ String "}" ""))))))))).
Proof.
  unfold Marshal_ERC20Metadata, json.object, json.join, json.field, member.
  rewrite !append_assoc. reflexivity.
Qed.

(** [Unmarshal] reads the total supply that [Marshal] wrote, whatever the
    three names are. *)
Lemma Unmarshal_Marshal_TotalSupply m erc20Bytes :
  0 ≤ TotalSupply m ≤ maxUint64 →
  Marshal_ERC20Metadata m = Ok erc20Bytes →
  ∃ m', Unmarshal_ERC20Metadata (Some erc20Bytes) = Ok m'
        ∧ TotalSupply m' = TotalSupply m.
Proof.
  intros Hn. rewrite Marshal_ERC20Metadata_bytes. intros [= <-].
  unfold Unmarshal_ERC20Metadata, json.parse. cbn [from_option id].
  match goal with
  | |- context [json.parse_value ?fuel ?data] =>
      assert (∃ f, fuel = S (S (S (S (S (S f)))))) as [f ->];
        [exists (fuel - 6)%nat; unfold member; cbn [String.length]; lia|]
  end.
  pose proof (parse_value_uint f (TotalSupply m) "" ltac:(unfold maxUint64 in Hn; lia)) as H4.
  set (d4 := member "totalSupply" (strconv.FormatUint (TotalSupply m) +:+ String "}" "")).
  destruct (parse_value_quoted (S f) (Owner m) (String "," d4)) as [t3 H3].
  set (d3 := member "owner" (json.quote (Owner m) +:+ String "," d4)).
  destruct (parse_value_quoted (S (S f)) (Symbol m) (String "," d3)) as [t2 H2].
  set (d2 := member "symbol" (json.quote (Symbol m) +:+ String "," d3)).
  destruct (parse_value_quoted (S (S (S f))) (Name m) (String "," d2)) as [t1 H1].
  rewrite object_open.
  rewrite (parse_members_more _ "name" _ _ _ eq_refl H1).
  unfold d2. rewrite (parse_members_more _ "symbol" _ _ _ eq_refl H2).
  unfold d3. rewrite (parse_members_more _ "owner" _ _ _ eq_refl H3).
  unfold d4. rewrite (parse_members_last _ "totalSupply" _ _ _ eq_refl H4).
  cbn [mbind option_bind json.skip_ws].
  cbn [store_members].
  change (find_field "name") with (Some FName).
  change (find_field "symbol") with (Some FSymbol).
  change (find_field "owner") with (Some FOwner).
  change (find_field "totalSupply") with (Some FTotalSupply).
  cbn [store_field orb Name Symbol Owner TotalSupply].
  assert (strconv.ParseUint (strconv.FormatUint (TotalSupply m)) = Ok (TotalSupply m)) as ->.
  { unfold strconv.ParseUint, strconv.FormatUint.
    destruct (formatBits_head 19 (TotalSupply m)) as (c & ds & Heq & _); [lia|].
    rewrite Heq, <- Heq. apply parse_formatBits; [|lia].
    unfold maxUint64 in Hn. change (Z.of_nat 20) with 20. lia. }
  by eexists.
Qed.

Lemma parseUint_loop_upper M s n m :
  n ≤ M → strconv.parseUint_loop M s n = Ok m → m ≤ M.
Proof.
  revert n. induction s as [|c s IH]; intros n Hn H; cbn [strconv.parseUint_loop] in H.
  - by injection H as <-.
  - destruct (is_digit c); [|done].
    destruct (Z.ltb_spec M (n * 10 + digit_val c)); [done|]. by apply IH in H.
Qed.

Lemma ParseUint_range s n : strconv.ParseUint s = Ok n → 0 ≤ n ≤ maxUint64.
Proof.
  unfold strconv.ParseUint. destruct s as [|c s]; [done|]. intros H. split.
  - by apply parseUint_loop_lower in H.
  - by apply parseUint_loop_upper in H.
Qed.

(** X18: the total supply survives the store.  After every [Init] that
    answers with success, whatever bytes the token name, the symbol and the
    owner are made of, a later [totalSupply] of the token name whose read
    succeeds answers with success and the decimal form of the number that
    [Init] read from the amount, provided the owner is not the token name
    itself: the document that [Marshal] wrote is one that [Unmarshal]
    reads, with the same total supply. *)
Theorem X18_totalSupply_reads_what_Init_wrote :
  ∀ (stub stub' : ChaincodeStub),
    Init stub = (stub', Returned (Success None)) →
    ∃ fcn tokenName symbol owner amount amountUint,
      args stub = [fcn; tokenName; symbol; owner; amount]
      ∧ strconv.ParseUint amount = Ok amountUint
      ∧ (owner ≠ tokenName →
         ∀ later, State later = State stub' → reads_ok later tokenName →
           totalSupply later [tokenName]
           = (later, Returned (Success (Some (strconv.FormatUint amountUint))))).
Proof.
  intros stub stub' Hi.
  destruct (Init_success_args _ _ Hi) as (fcn & tokenName & symbol & owner & amount & Ha).
  destruct (Init_success _ _ _ _ _ _ _ Ha Hi) as (n & bytes & Hn & Hbytes & ->).
  exists fcn, tokenName, symbol, owner, amount, n. split; [done|]. split; [done|].
  intros Hne later Hst Hr. cbn [State with_State] in Hst.
  destruct (Unmarshal_Marshal_TotalSupply
              {| Name := tokenName; Symbol := symbol; Owner := owner; TotalSupply := n |}
              bytes (ParseUint_range _ _ Hn) Hbytes) as (m' & Hm' & Hsupply).
  cbn [TotalSupply] in Hsupply.
  unfold totalSupply. index_params.
  rewrite (GetState_ok _ _ Hr), Hst, lookup_insert_ne, lookup_insert_eq by done.
  rewrite Hm'. cbn [json.Marshal_uint64]. by rewrite Hsupply.
Qed.

Lemma X18_witness :
  ∃ fcn tokenName symbol owner amount amountUint,
    args init_escaped = [fcn; tokenName; symbol; owner; amount]
    ∧ strconv.ParseUint amount = Ok amountUint
    ∧ (owner ≠ tokenName →
       ∀ later, State later = State (fst (Init init_escaped)) → reads_ok later tokenName →
         totalSupply later [tokenName]
         = (later, Returned (Success (Some (strconv.FormatUint amountUint))))).
Proof.
  apply (X18_totalSupply_reads_what_Init_wrote init_escaped (fst (Init init_escaped))).
  reflexivity.
Defined.

(** *** [transfer] computes in Go's [int] *)

(** X19: the balances that [transfer] writes are those of Go's [int]
    arithmetic, and its check looks at the wrapped difference.  For two
    different addresses, when the calls of the stub succeed, the stored
    balances [c] and [r] are integers and the amount [n] is positive, the
    transfer succeeds whenever the wrapped [c - n] is not negative; the
    caller then holds the wrapped [c - n] and the recipient the wrapped
    [r + n].  So a recipient whose balance would pass the largest [int] is
    left with [r + n - 2^64], a negative balance, and a caller in debt by
    more than the smallest [int] allows is left with [c - n + 2^64]. *)
Theorem X19_transfer_wraps_around :
  ∀ (stub : ChaincodeStub) (caller recipient amount callerAmount : string) (c r n : Z),
    reads_ok stub caller ∧ reads_ok stub recipient →
    State stub !! caller = Some callerAmount ∧ strconv.Atoi callerAmount = Ok c →
    balance (State stub) recipient = Some r →
    strconv.Atoi amount = Ok n ∧ 0 < n →
    0 ≤ int_sub c n →
    writes_ok stub → events_ok stub → caller ≠ recipient →
    ∃ stub',
      transfer stub [caller; recipient; amount]
      = (stub', Returned (Success (Some "transfer Success")))
      ∧ balance (State stub') caller = Some (int_sub c n)
      ∧ balance (State stub') recipient = Some (int_add r n)
      ∧ (maxInt < r + n → int_add r n = r + n - 2 ^ 64 ∧ int_add r n < 0)
      ∧ (c - n < minInt → int_sub c n = c - n + 2 ^ 64).
Proof.
  intros stub caller recipient amount callerAmount c r n [Hrc Hrr] [Hc Hci] Hrecipient
    [Hn Hpos] Hcheck Hw He Hne.
  rewrite (transfer_unfold _ _ _ _ n Hn Hpos).
  rewrite (GetState_ok _ _ Hrc), Hc. cbn [from_option id]. rewrite Hci.
  rewrite (GetState_ok _ _ Hrr). rewrite (proj1 (balance_default _ _ _) Hrecipient).
  destruct (Z.ltb_spec (int_sub c n) 0); [lia|].
  rewrite (PutState_ok _ _ _ Hw), (PutState_ok _ _ _ (writes_ok_with_State _ _ Hw)).
  rewrite SetEvent_ok by done.
  eexists. split; [reflexivity|]. cbn [State with_State with_Event].
  pose proof (Atoi_range _ _ Hn) as Hn'. pose proof (Atoi_range _ _ Hci) as Hc'.
  pose proof (Atoi_range _ _ (proj1 (balance_default _ _ _) Hrecipient)) as Hr'.
  split.
  { rewrite balance_insert_ne by done. apply balance_insert_eq, wrap_int_range. }
  split.
  { apply balance_insert_eq, wrap_int_range. }
  unfold int_add, int_sub, wrap_int, minInt, maxInt, intSize in *.
  change (2 ^ (64 - 1)) with 9223372036854775808 in *.
  change (2 ^ 64) with 18446744073709551616 in *.
  split; intros Hout.
  - assert ((r + n + 9223372036854775808) mod 18446744073709551616
            = r + n + 9223372036854775808 - 18446744073709551616) as ->; [|lia].
    symmetry. apply Z.mod_unique_pos with (q := 1); lia.
  - assert ((c - n + 9223372036854775808) mod 18446744073709551616
            = c - n + 9223372036854775808 + 18446744073709551616) as ->; [|lia].
    symmetry. apply Z.mod_unique_pos with (q := -1); lia.
Qed.

Lemma X19_witness :
  ∃ stub',
    transfer alice_maxInt_bob_5 ["bob"; "alice"; "1"]
    = (stub', Returned (Success (Some "transfer Success")))
    ∧ balance (State stub') "bob" = Some (int_sub 5 1)
    ∧ balance (State stub') "alice" = Some (int_add 9223372036854775807 1)
    ∧ (maxInt < 9223372036854775807 + 1 →
       int_add 9223372036854775807 1 = 9223372036854775807 + 1 - 2 ^ 64
       ∧ int_add 9223372036854775807 1 < 0)
    ∧ (5 - 1 < minInt → int_sub 5 1 = 5 - 1 + 2 ^ 64).
Proof.
  apply (X19_transfer_wraps_around alice_maxInt_bob_5 "bob" "alice" "1" "5"
           5 9223372036854775807 1).
  - split; reflexivity.
  - split; reflexivity.
  - reflexivity.
  - split; [reflexivity|lia].
  - by vm_compute.
  - intros key value. reflexivity.
  - intros name payload. reflexivity.
  - discriminate.
Defined.

(** *** The bytes of a listing *)

Lemma Marshal_Insurance_bytes e : Marshal_Insurance e = entry_bytes e.
Proof.
  unfold Marshal_Insurance, entry_bytes, json.object, json.join, json.field.
  rewrite !append_assoc. reflexivity.
Qed.

Lemma Marshal_Insurances_bytes l : Marshal_Insurances l = listing_bytes l.
Proof.
  unfold Marshal_Insurances, listing_bytes, json.array. do 3 f_equal.
  induction l as [|e l IH]; [done|]. cbn [map]. by rewrite Marshal_Insurance_bytes, IH.
Qed.

Lemma escape_loop_safe n s :
  safe s = true → (String.length s ≤ n)%nat → json.escape_loop n s = s.
Proof.
  revert s. induction n as [|n IH]; intros s Hs Hn.
  { destruct s; [done|]. cbn [String.length] in Hn. lia. }
  destruct s as [|b s]; [done|]. unfold safe in Hs.
  cbn [list_ascii_of_string forallb] in Hs. apply andb_true_iff in Hs as [Hb Hs].
  cbn [String.length] in Hn. cbn [json.escape_loop]. rewrite Hb.
  assert ((code b <? 0x80) = true) as ->.
  { unfold json.htmlSafe in Hb. lia. }
  rewrite append_cons, append_nil_l. f_equal. apply IH; [done|lia].
Qed.

(** A safe string is written between two quotes, as it is. *)
Lemma quote_safe s : safe s = true → json.quote s = dq +:+ s +:+ dq.
Proof.
  intros Hs. unfold json.quote, dq. rewrite escape_loop_safe by done.
  by rewrite !append_cons, append_nil_l.
Qed.

Lemma chr_code c : chr (code c) = c.
Proof. unfold chr, code. by rewrite N2Z.id, ascii_N_embedding. Qed.

Lemma EncodeRune_ascii x : 0 ≤ x < 0x80 → utf8.EncodeRune x = String (chr x) "".
Proof.
  intros Hx. unfold utf8.EncodeRune, utf8.MaxRune.
  destruct (Z.ltb_spec x 0); [lia|]. destruct (Z.ltb_spec 0x10FFFF x); [lia|].
  destruct (Z.leb_spec 0xD800 x); [lia|]. cbn [orb andb].
  destruct (Z.leb_spec x 0x7F); [done|lia].
Qed.

Lemma bind_unquoted_eq (X : option (string * string)) (g : string → string) t rest :
  X = Some (t, rest) → ('(t, k) ← X; Some (g t, k)) = Some (g t, rest).
Proof. by intros ->. Qed.

(** What [Marshal] writes for a string of ASCII bytes, [Unmarshal] reads as
    the same string. *)
Lemma unquote_escape_ascii n s rest f :
  ascii_only s = true →
  (String.length s ≤ n)%nat →
  (String.length (json.escape_loop n s) < f)%nat →
  json.unquote_loop f (json.escape_loop n s +:+ String json.quote_chr rest) = Some (s, rest).
Proof.
  revert s f. induction n as [|n IH]; intros s f Hs Hn Hf.
  { destruct f as [|f]; [lia|]. destruct s; [done|]. cbn [String.length] in Hn. lia. }
  destruct s as [|b s0].
  { destruct f as [|f]; [lia|]. done. }
  unfold ascii_only in Hs. cbn [list_ascii_of_string forallb] in Hs.
  apply andb_true_iff in Hs as [Hb Hs]. fold (ascii_only s0) in Hs.
  cbn [String.length] in Hn. cbn [json.escape_loop] in Hf |- *.
  destruct f as [|f]; [lia|].
  pose proof (code_nonneg b) as Hb0. rewrite Hb in Hf |- *. apply Z.ltb_lt in Hb.
  rewrite length_app in Hf. rewrite append_assoc.
  assert (∀ f', (String.length (json.escape_loop n s0) < f')%nat →
            json.unquote_loop f' (json.escape_loop n s0 +:+ String json.quote_chr rest)
            = Some (s0, rest)) as IH'.
  { intros f' Hf'. apply IH; [done|lia|done]. }
  destruct (json.htmlSafe (code b)) eqn:Hsafe.
  { rewrite append_cons, append_nil_l. unfold json.htmlSafe in Hsafe.
    rewrite unquote_plain by lia. apply (bind_unquoted_eq _ (String b)), IH'.
    cbn [String.length] in Hf. lia. }
  destruct (_ || _) eqn:Hq.
  { rewrite !append_cons, append_nil_l.
    rewrite (unquote_simple _ _ b).
    - apply (bind_unquoted_eq _ (String b)), IH'. cbn [String.length] in Hf. lia.
    - unfold json.simple_escape.
      destruct (Z.eqb_spec (code b) 0x5C) as [->|?]; [done|].
      destruct (Z.eqb_spec (code b) 0x22) as [->|?]; done. }
  destruct (Z.eqb_spec (code b) 0x0A) as [E|_].
  { rewrite !append_cons, append_nil_l. rewrite (unquote_simple _ _ (chr 0x0A)) by done.
    rewrite <- E, chr_code. apply (bind_unquoted_eq _ (String b)), IH'.
    cbn [String.length] in Hf. lia. }
  destruct (Z.eqb_spec (code b) 0x0D) as [E|_].
  { rewrite !append_cons, append_nil_l. rewrite (unquote_simple _ _ (chr 0x0D)) by done.
    rewrite <- E, chr_code. apply (bind_unquoted_eq _ (String b)), IH'.
    cbn [String.length] in Hf. lia. }
  destruct (Z.eqb_spec (code b) 0x09) as [E|_].
  { rewrite !append_cons, append_nil_l. rewrite (unquote_simple _ _ (chr 0x09)) by done.
    rewrite <- E, chr_code. apply (bind_unquoted_eq _ (String b)), IH'.
    cbn [String.length] in Hf. lia. }
  destruct (nibbles (code b)) as [Hhi Hlo]; [lia|].
  rewrite !append_cons, append_nil_l.
  rewrite !append_cons, append_nil_l.
  rewrite (unquote_u4 _ _ _ _ _ 0 0 (Z.shiftr (code b) 4) (Z.land (code b) 0xF));
    [|done|done|apply hex_val_hex; lia|apply hex_val_hex; lia|unfold json.IsSurrogate; lia].
  assert (0 * 4096 + 0 * 256 + Z.shiftr (code b) 4 * 16 + Z.land (code b) 0xF = code b) as ->.
  { rewrite Z.shiftr_div_pow2 by lia. change 0xF with (Z.ones 4).
    rewrite Z.land_ones by lia. change (2 ^ 4) with 16.
    pose proof (Z.div_mod (code b) 16 ltac:(lia)). lia. }
  rewrite EncodeRune_ascii, chr_code by lia.
  rewrite (bind_unquoted_eq _ (λ t, String b "" +:+ t) s0 rest).
  - by rewrite append_cons, append_nil_l.
  - apply IH'. rewrite length_app in Hf. cbn [String.length] in Hf. lia.
Qed.

(** A string value of ASCII bytes is read as the string it was written
    for. *)
Lemma parse_value_quoted_ascii fuel s rest :
  ascii_only s = true →
  json.parse_value (S fuel) (json.quote s +:+ rest) = Some (json.Str s, rest).
Proof.
  intros Hs. rewrite quote_app. cbn [json.parse_value].
  change (json.skip_ws (String json.quote_chr ?r)) with (String json.quote_chr r).
  cbv beta iota.
  change (code json.quote_chr =? 123) with false.
  change (code json.quote_chr =? 91) with false.
  change (code json.quote_chr =? 34) with true. cbv iota.
  unfold json.scan_string. rewrite unquote_escape_ascii; [done|done|done|].
  rewrite length_app. cbn [String.length]. lia.
Qed.

Lemma entry_bytes_member e rest :
  entry_bytes e +:+ rest
  = String "{" (member "name" (json.quote (Insurance_Name e) +:+ String ","
                  (member "amount" (json.quote (Insurance_Amount e) +:+ String "}" rest)))).
Proof.
  unfold entry_bytes, member, dq. change json.quote_chr with (chr 0x22).
  repeat (progress rewrite ?append_assoc, ?append_cons, ?append_nil_l). reflexivity.
Qed.

(** One entry of a listing is read as the object of its name and amount. *)
Lemma parse_value_entry fuel e rest :
  ascii_entry e = true →
  json.parse_value (S (S (S (S fuel)))) (entry_bytes e +:+ rest) = Some (entry_value e, rest).
Proof.
  intros [Hn Ha]%andb_true_iff. rewrite entry_bytes_member, object_open.
  rewrite (parse_members_more _ "name" _ (json.Str (Insurance_Name e))
             (member "amount" (json.quote (Insurance_Amount e) +:+ String "}" rest)) eq_refl
             (parse_value_quoted_ascii _ _ _ Hn)).
  by rewrite (parse_members_last _ "amount" _ (json.Str (Insurance_Amount e)) rest eq_refl
                (parse_value_quoted_ascii _ _ _ Ha)).
Qed.

Lemma skip_ws_entry e rest :
  json.skip_ws (entry_bytes e +:+ rest) = entry_bytes e +:+ rest.
Proof. by rewrite entry_bytes_member. Qed.

Lemma parse_elems_more fuel s v rest :
  json.parse_value fuel s = Some (v, String "," rest) →
  json.parse_elems (S fuel) s = '(vs, k) ← json.parse_elems fuel rest; Some (v :: vs, k).
Proof. intros H. cbn [json.parse_elems]. by rewrite H. Qed.

Lemma parse_elems_last fuel s v rest :
  json.parse_value fuel s = Some (v, String "]" rest) →
  json.parse_elems (S fuel) s = Some ([v], rest).
Proof. intros H. cbn [json.parse_elems]. by rewrite H. Qed.

(** The elements of a listing, up to the closing bracket. *)
Lemma parse_elems_entries l e fuel rest :
  forallb ascii_entry (e :: l) = true →
  json.parse_elems (S (S (S (S (S (length l + fuel))))))
    (json.join "," (map entry_bytes (e :: l)) +:+ String "]" rest)
  = Some (map entry_value (e :: l), rest).
Proof.
  revert e. induction l as [|e' l IH]; intros e Hl.
  - cbn [forallb] in Hl. apply andb_true_iff in Hl as [He _].
    cbn [map json.join length Nat.add].
    by rewrite (parse_elems_last _ _ _ _ (parse_value_entry _ _ _ He)).
  - cbn [forallb] in Hl. apply andb_true_iff in Hl as [He Hl].
    change (json.join "," (map entry_bytes (e :: e' :: l)))
      with (entry_bytes e +:+ "," +:+ json.join "," (map entry_bytes (e' :: l))).
    rewrite !append_assoc, append_cons, append_nil_l.
    cbn [length Nat.add].
    rewrite (parse_elems_more _ _ _ _ (parse_value_entry _ _ _ He)).
    by rewrite (IH e' Hl).
Qed.

Lemma length_join_entries l :
  (length l ≤ String.length (json.join "," (map entry_bytes l)))%nat.
Proof.
  induction l as [|e [|e' l] IH]; [done| |].
  - cbn [map json.join length]. unfold entry_bytes. rewrite length_app.
    cbn [String.length]. lia.
  - change (json.join "," (map entry_bytes (e :: e' :: l)))
      with (entry_bytes e +:+ "," +:+ json.join "," (map entry_bytes (e' :: l))).
    rewrite !length_app. cbn [length] in IH |- *. unfold entry_bytes at 1.
    rewrite length_app. cbn [String.length]. lia.
Qed.

(** Decoding the listing of ASCII entries gives the entries back, in their
    order. *)
Lemma parse_listing l :
  forallb ascii_entry l = true →
  json.parse (listing_bytes l) = Some (json.Array (map entry_value l)).
Proof.
  intros Hl. destruct l as [|e l]; [done|].
  unfold json.parse, listing_bytes.
  rewrite append_cons, append_nil_l.
  match goal with
  | |- context [json.parse_value ?fuel ?data] =>
      assert (∃ f, fuel = S (S (S (S (S (S (length l + f))))))) as [f ->]
  end.
  { pose proof (length_join_entries (e :: l)) as Hlen. cbn [length] in Hlen.
    cbn [String.length]. rewrite length_app.
    exists (2 * S (String.length (json.join "," (map entry_bytes (e :: l)))
                   + String.length "]") + 2 - 6 - length l)%nat.
    cbn [String.length]. lia. }
  cbn [json.parse_value]. change (json.skip_ws (String "[" ?r)) with (String "[" r).
  cbv beta iota. change (code "[" =? 123) with false. change (code "[" =? 91) with true.
  cbv iota.
  change (json.join "," (map entry_bytes (e :: l)) +:+ "]")
    with (json.join "," (map entry_bytes (e :: l)) +:+ String "]" "").
  assert (∃ k, json.skip_ws (json.join "," (map entry_bytes (e :: l)) +:+ String "]" "")
               = String "{" k) as [k ->].
  { destruct l as [|e' l].
    - cbn [map json.join]. rewrite entry_bytes_member. by eexists.
    - change (json.join "," (map entry_bytes (e :: e' :: l)))
        with (entry_bytes e +:+ "," +:+ json.join "," (map entry_bytes (e' :: l))).
      rewrite !append_assoc, entry_bytes_member. by eexists. }
  rewrite (parse_elems_entries l e f "" Hl). reflexivity.
Qed.

(** X13: for every granter and grantee that the shim accepts as key
    attributes and every amount that is not empty (the ledger drops a key
    written with an empty value), when the granter holds no grant to another
    grantee and the write succeeds, [allowance] answers with success and on
    the state it leaves [approve] for the granter answers with the bytes of
    an array of exactly one object, the name of the grantee and the amount
    just given, each as [Marshal] writes a string; when the name and the
    amount need no escape they stand between quotes as they are.  A grant
    made before to the same grantee is overwritten, and grants of other
    granters do not show. *)
Theorem X13_a_grant_is_listed_with_its_last_amount :
  ∀ (stub : ChaincodeStub) (id name amount : string),
    validateCompositeKeyAttribute id = None →
    validateCompositeKeyAttribute name = None →
    amount ≠ "" →
    (∀ key, String.prefix (granter_key id) key = true → key ≠ grant_key id name →
            State stub !! key = None) →
    putFault (host stub) (grant_key id name) amount = None →
    snd (allowance stub [id; name; amount]) = Returned (Success None)
    ∧ ∀ later,
        State later = State (fst (allowance stub [id; name; amount])) →
        scans_ok later →
        approve later [id]
        = (later,
           Returned (Success (Some
             ("[{" +:+ dq +:+ "name" +:+ dq +:+ ":" +:+ json.quote name +:+ ","
              +:+ dq +:+ "amount" +:+ dq +:+ ":" +:+ json.quote amount +:+ "}]"))))
        ∧ (safe name = true → safe amount = true →
           approve later [id]
           = (later,
              Returned (Success (Some
                ("[{" +:+ dq +:+ "name" +:+ dq +:+ ":" +:+ dq +:+ name +:+ dq +:+ ","
                 +:+ dq +:+ "amount" +:+ dq +:+ ":" +:+ dq +:+ amount +:+ dq
                 +:+ "}]"))))).
Proof.
  intros stub id name amount Hid Hname _ Hno Hput.
  assert (allowance stub [id; name; amount]
          = (with_State stub (<[grant_key id name := amount]> (State stub)),
             Returned (Success None))) as ->.
  { unfold allowance. index_params.
    destruct (grant_key_valid _ _ Hid Hname) as (-> & _).
    unfold PutState. by rewrite Hput. }
  split; [done|]. cbn [fst State with_State]. intros later Hst Hscan.
  assert (approve later [id]
          = (later,
             Returned (Success (Some
               ("[{" +:+ dq +:+ "name" +:+ dq +:+ ":" +:+ json.quote name +:+ ","
                +:+ dq +:+ "amount" +:+ dq +:+ ":" +:+ json.quote amount +:+ "}]")))))
    as Happrove.
  { rewrite approve_scan by done. rewrite Hst, range_one_grant by done.
    cbn [approve_loop]. rewrite SplitCompositeKey_grant_key by done. index_params.
    cbn [app]. rewrite Marshal_Insurances_bytes.
    unfold listing_bytes, entry_bytes. cbn [map json.join Insurance_Name Insurance_Amount].
    repeat (progress rewrite ?append_assoc, ?append_cons, ?append_nil_l). reflexivity. }
  split; [done|]. intros Hsn Hsa. rewrite Happrove.
  rewrite (quote_safe _ Hsn), (quote_safe _ Hsa).
  repeat (progress rewrite ?append_assoc, ?append_cons, ?append_nil_l). reflexivity.
Qed.

Lemma X13_witness :
  snd (allowance two_granters ["alice"; "bob"; "70"]) = Returned (Success None)
  ∧ ∀ later,
      State later = State (fst (allowance two_granters ["alice"; "bob"; "70"])) →
      scans_ok later →
      approve later ["alice"]
      = (later,
         Returned (Success (Some
           ("[{" +:+ dq +:+ "name" +:+ dq +:+ ":" +:+ json.quote "bob" +:+ ","
            +:+ dq +:+ "amount" +:+ dq +:+ ":" +:+ json.quote "70" +:+ "}]"))))
      ∧ (safe "bob" = true → safe "70" = true →
         approve later ["alice"]
         = (later,
            Returned (Success (Some
              ("[{" +:+ dq +:+ "name" +:+ dq +:+ ":" +:+ dq +:+ "bob" +:+ dq +:+ ","
               +:+ dq +:+ "amount" +:+ dq +:+ ":" +:+ dq +:+ "70" +:+ dq
               +:+ "}]"))))).
Proof.
  apply (X13_a_grant_is_listed_with_its_last_amount two_granters "alice" "bob" "70").
  - reflexivity.
  - reflexivity.
  - discriminate.
  - intros key Hp Hne. unfold two_granters. cbn [State stub_of].
    destruct (decide (key = grant_key "carol" "bob")) as [->|Hc]; [by vm_compute in Hp|].
    rewrite lookup_insert_ne by done. by rewrite lookup_singleton_ne.
  - reflexivity.
Defined.

(** X15: on a well-formed registry, [approve] for an accepted granter whose
    scan succeeds never panics and answers with the bytes of the list of the
    granter's grants: an array with, for every element of the list in its
    order, one object of the name and the amount, each as [Marshal] writes a
    string.  An element is in the list exactly when its name is an accepted
    attribute and the state holds its amount under the key of the grant to
    this name; no name is listed twice; the list is in the byte-wise order
    of the names; and when the names and amounts are ASCII, decoding the
    bytes as JSON gives the array of the objects of exactly these names and
    amounts back. *)
Theorem X15_approve_lists_the_grants_in_name_order :
  ∀ (later : ChaincodeStub) (id : string),
    validateCompositeKeyAttribute id = None →
    registry_ok (State later) →
    scanFault (host later) (granter_key id) = None →
    ∃ l : list Insurance,
      approve later [id] = (later, Returned (Success (Some (listing_bytes l))))
      ∧ (∀ e, e ∈ l
              ↔ validateCompositeKeyAttribute (Insurance_Name e) = None
                ∧ State later !! grant_key id (Insurance_Name e) = Some (Insurance_Amount e))
      ∧ NoDup (Insurance_Name <$> l)
      ∧ StronglySorted name_le l
      ∧ (forallb ascii_entry l = true →
         json.parse (listing_bytes l) = Some (json.Array (map entry_value l))).
Proof.
  intros later id Hid Hok Hscan. rewrite approve_scan by done.
  set (it := range (State later) (granter_key id)
               (granter_key id +:+ utf8.EncodeRune maxUnicodeRuneValue)).
  destruct (approve_loop_grants id it [] Hid) as (l & -> & Hall).
  { intros key value Hin. by apply (scan_of_registry (State later) id key value). }
  exists l. cbn [app]. split; [by rewrite Marshal_Insurances_bytes|].
  assert (∀ i kv e, it !! i = Some kv → l !! i = Some e → listed id kv e) as Hat.
  { intros i kv e Hkv He.
    destruct (Forall2_lookup_l _ _ _ _ _ Hall Hkv) as (e' & He' & Hl). congruence. }
  split; [|split; [|split; [|apply parse_listing]]].
  - intros e. split.
    + intros (i & He)%list_elem_of_lookup_1.
      destruct (Forall2_lookup_r _ _ _ _ _ Hall He) as ([key value] & Hkv & Hn & Hk & Hv).
      cbn [fst snd] in Hk, Hv. subst key value.
      apply list_elem_of_lookup_2, elem_of_range in Hkv as (Hlook & _). done.
    + intros [Hn Hlook].
      assert ((grant_key id (Insurance_Name e), Insurance_Amount e) ∈ it) as Hin.
      { apply elem_of_range. split; [done|]. by apply grant_in_scan. }
      apply list_elem_of_lookup_1 in Hin as (i & Hi).
      destruct (Forall2_lookup_l _ _ _ _ _ Hall Hi) as (e' & He' & Hn' & Hk & Hv).
      cbn [fst snd] in Hk, Hv. apply grant_key_inj in Hk; [|done..].
      apply list_elem_of_lookup_2 in He'. destruct e, e'. cbn in Hk, Hv. by subst.
  - apply NoDup_alt. intros i j name Hi Hj.
    apply list_lookup_fmap_Some in Hi as (e1 & -> & He1).
    apply list_lookup_fmap_Some in Hj as (e2 & Heq & He2).
    destruct (Forall2_lookup_r _ _ _ _ _ Hall He1) as ([k1 v1] & Hkv1 & _ & Hk1 & _).
    destruct (Forall2_lookup_r _ _ _ _ _ Hall He2) as ([k2 v2] & Hkv2 & _ & Hk2 & _).
    cbn [fst] in Hk1, Hk2. rewrite <- Heq in Hk2. subst k1 k2.
    assert (v1 = v2) as ->.
    { apply list_elem_of_lookup_2, elem_of_range in Hkv1 as (H1 & _).
      apply list_elem_of_lookup_2, elem_of_range in Hkv2 as (H2 & _). congruence. }
    by apply (proj1 (NoDup_alt it) (NoDup_range _ _ _) i j
                (grant_key id (Insurance_Name e1), v2)).
  - pose proof (Sorted_StronglySorted _ _ (Sorted_range (State later) (granter_key id)
                  (granter_key id +:+ utf8.EncodeRune maxUnicodeRuneValue))) as Hsorted.
    fold it in Hsorted. clearbody it. clear Hat.
    induction Hall as [|kv e it l Hkv Hall IH]; [constructor|].
    apply StronglySorted_inv in Hsorted as [Hsorted Hhd].
    constructor; [by apply IH|].
    apply Forall_forall. intros e' (i & He')%list_elem_of_lookup_1.
    destruct (Forall2_lookup_r _ _ _ _ _ Hall He') as (kv' & Hkv' & Hn' & Hk' & _).
    rewrite Forall_forall in Hhd. specialize (Hhd kv' (list_elem_of_lookup_2 _ _ _ Hkv')).
    destruct Hkv as (Hn & Hk & _). unfold key_le in Hhd. rewrite Hk, Hk' in Hhd.
    unfold name_le. by apply (grant_key_leb id).
Qed.

Lemma X15_witness :
  validateCompositeKeyAttribute "alice" = None
  ∧ ∃ l : list Insurance,
      approve two_granters ["alice"]
      = (two_granters, Returned (Success (Some (listing_bytes l))))
      ∧ (∀ e, e ∈ l
              ↔ validateCompositeKeyAttribute (Insurance_Name e) = None
                ∧ State two_granters !! grant_key "alice" (Insurance_Name e)
                  = Some (Insurance_Amount e))
      ∧ NoDup (Insurance_Name <$> l)
      ∧ StronglySorted name_le l
      ∧ (forallb ascii_entry l = true →
         json.parse (listing_bytes l) = Some (json.Array (map entry_value l))).
Proof.
  split; [reflexivity|].
  apply (X15_approve_lists_the_grants_in_name_order two_granters "alice");
    [reflexivity|apply two_granters_ok|reflexivity].
Defined.
